(** * Retrieval engine of the RAG service: a shallow embedding

    The development follows [src/core/rag]: the two vector-store back ends
    ([opensearch_store.py], [qdrant_store.py]) and the orchestrator
    ([rag_engine.py]).  Python objects that live outside the process (the
    OpenSearch cluster, the Qdrant server, the OpenAI endpoints) are kept in
    an explicit [World]; every client call is a computation in a state and
    exception monad over that world and leaves an entry in a call trace. *)

From Stdlib Require Import ZArith QArith Qabs String Ascii List Lia DecimalString.
From stdpp Require Import base option list sorting gmap strings.

Local Open Scope string_scope.
Local Open Scope list_scope.
Local Open Scope nat_scope.

(** ** Python values *)

(** JSON-like values found in a metadata dictionary. *)
#[warnings="-register-all"]
Inductive pyval : Type :=
| VNone
| VBool (b : bool)
| VInt (z : Z)
| VFloat (q : Q)
| VStr (s : string)
| VList (l : list pyval).

(** A [str] is truthy when it is not empty; [None] is falsy. *)
Definition truthy_str (o : option string) : bool :=
  match o with
  | Some s => negb (String.eqb s EmptyString)
  | None => false
  end.

(** A list is truthy when it has an element; [None] is falsy. *)
Definition truthy_list {A} (o : option (list A)) : bool :=
  match o with
  | Some (_ :: _) => true
  | _ => false
  end.

(** [needle in haystack] on Python strings. *)
Definition str_contains (needle haystack : string) : bool :=
  match String.index 0 needle haystack with
  | Some _ => true
  | None => false
  end.

(** ** Exceptions *)

Inductive exn_class : Type :=
| NotFoundError        (* opensearchpy.exceptions.NotFoundError *)
| RequestError         (* opensearchpy.exceptions.RequestError *)
| ConnectionError      (* transport failure of either client *)
| UnexpectedResponse   (* qdrant_client HTTP error *)
| APIError             (* openai error *)
| ValueError           (* an argument that the qdrant client refuses *)
| AttributeError.      (* an attribute that an object does not have *)

Record exn : Type := Exn { exn_type : exn_class; exn_str : string }.

Definition is_class (c : exn_class) (e : exn) : bool :=
  match c, exn_type e with
  | NotFoundError, NotFoundError
  | RequestError, RequestError
  | ConnectionError, ConnectionError
  | UnexpectedResponse, UnexpectedResponse
  | APIError, APIError
  | ValueError, ValueError
  | AttributeError, AttributeError => true
  | _, _ => false
  end.

(** ** Stored data *)

(** The [document] dictionary that [OpenSearchStore.add_document] indexes.
    [user_id] and [tags] are the two keys it adds only when truthy. *)
Record Document : Type := {
  doc_text : string;
  doc_embedding : list Q;
  doc_organization_id : string;
  doc_metadata : gmap string pyval;
  doc_created_at : string;
  doc_user_id : option string;
  doc_tags : option (list string)
}.

(** An OpenSearch index: the vector dimension of its mapping and its
    documents with their ids, oldest first. *)
Record Index : Type := {
  ix_dimension : nat;
  ix_docs : list (string * Document)
}.

(** A Qdrant point. *)
Record PointStruct : Type := {
  pt_id : string;
  pt_vector : list Q;
  pt_payload : gmap string pyval
}.

(** A Qdrant collection: the size of its vectors and its points. *)
Record Collection : Type := {
  col_size : nat;
  col_points : list PointStruct
}.

(** The dictionary a store returns for one search result.  The key
    ["tags"] is present only in results of the OpenSearch store. *)
Record SearchResult : Type := {
  sr_id : string;
  sr_score : Q;
  sr_text : string;
  sr_metadata : gmap string pyval;
  sr_tags : option (list string)
}.

(** A chat message. *)
Record Message : Type := { role : string; content : string }.

(** ** Calls that leave the process *)

Inductive call : Type :=
| os_indices_exists (index : string)
| os_indices_create (index : string)
| os_index (index id : string)
| os_search (index : string)
| os_delete (index id : string)
| os_indices_stats (index : string)
| qd_get_collections
| qd_create_collection (name : string)
| qd_upsert (name id : string)
| qd_query_points (name : string)
| qd_delete (name id : string)
| qd_get_collection (name : string)
| openai_embeddings (input model : string)
| openai_chat (model : string) (messages : list Message).

(** What the environment does to one outgoing call: nothing, make it fail,
    or let another instance create the schema just before the call is
    served. *)
Inductive event : Type :=
| Quiet
| Fault (e : exn)
| PeerCreatesIndex (index : string) (dimension : nat)
| PeerCreatesCollection (name : string) (size : nat).

Record World : Type := {
  indices : gmap string Index;
  collections : gmap string Collection;
  schedule : list event;
  trace : list call;
  uuid_counter : nat;
  utcnow : string
}.

Definition set_indices (f : gmap string Index -> gmap string Index) (w : World) : World :=
  {| indices := f (indices w); collections := collections w;
     schedule := schedule w; trace := trace w;
     uuid_counter := uuid_counter w; utcnow := utcnow w |}.

Definition set_collections (f : gmap string Collection -> gmap string Collection) (w : World) : World :=
  {| indices := indices w; collections := f (collections w);
     schedule := schedule w; trace := trace w;
     uuid_counter := uuid_counter w; utcnow := utcnow w |}.

Definition set_schedule (s : list event) (w : World) : World :=
  {| indices := indices w; collections := collections w;
     schedule := s; trace := trace w;
     uuid_counter := uuid_counter w; utcnow := utcnow w |}.

Definition log_call (c : call) (w : World) : World :=
  {| indices := indices w; collections := collections w;
     schedule := schedule w; trace := trace w ++ [c];
     uuid_counter := uuid_counter w; utcnow := utcnow w |}.

Definition bump_uuid (w : World) : World :=
  {| indices := indices w; collections := collections w;
     schedule := schedule w; trace := trace w;
     uuid_counter := S (uuid_counter w); utcnow := utcnow w |}.

(** ** The monad of store operations *)

Definition M (A : Type) : Type := World -> (exn + A) * World.

Definition ret {A} (a : A) : M A := fun w => (inr a, w).

Definition bind {A B} (m : M A) (k : A -> M B) : M B :=
  fun w =>
    match m w with
    | (inl e, w') => (inl e, w')
    | (inr a, w') => k a w'
    end.

Definition raise {A} (e : exn) : M A := fun w => (inl e, w).

(** [try: m  except Exception as e: h e] *)
Definition try_except {A} (m : M A) (h : exn -> M A) : M A :=
  fun w =>
    match m w with
    | (inl e, w') => h e w'
    | (inr a, w') => (inr a, w')
    end.

Definition get_world : M World := fun w => (inr w, w).

Definition modify (f : World -> World) : M unit := fun w => (inr tt, f w).

Declare Scope store_scope.
Delimit Scope store_scope with store.
Notation "'let*' x ':=' m 'in' k" := (bind m (fun x => k))
  (at level 10, x name, m at level 100, k at level 200) : store_scope.
Notation "m ';;' k" := (bind m (fun _ => k))
  (at level 100, k at level 200, right associativity) : store_scope.
Local Open Scope store_scope.

(** Serving one outgoing call: the call is recorded, then the next event
    of the schedule (if any is left) decides whether it goes through. *)
Definition peer_index (index : string) (dimension : nat) (m : gmap string Index) : gmap string Index :=
  match m !! index with
  | Some _ => m
  | None => <[index := {| ix_dimension := dimension; ix_docs := [] |}]> m
  end.

Definition peer_collection (name : string) (size : nat) (m : gmap string Collection) : gmap string Collection :=
  match m !! name with
  | Some _ => m
  | None => <[name := {| col_size := size; col_points := [] |}]> m
  end.

Definition external (c : call) : M unit :=
  fun w =>
    let w1 := log_call c w in
    match schedule w1 with
    | [] => (inr tt, w1)
    | ev :: rest =>
        let w2 := set_schedule rest w1 in
        match ev with
        | Quiet => (inr tt, w2)
        | Fault e => (inl e, w2)
        | PeerCreatesIndex index d => (inr tt, set_indices (peer_index index d) w2)
        | PeerCreatesCollection name n => (inr tt, set_collections (peer_collection name n) w2)
        end
    end.

(** ** Services behind the clients *)

(** Functions computed on the other side of the wire: the OpenAI models,
    the UUID generator, and the relevance functions of the two engines. *)
Record Externals : Type := {
  embedding_model : string -> list Q;
  chat_model : string -> list Message -> Q -> Z -> string;
  uuid4 : nat -> string;
  analyzer_match : string -> string -> bool;
  bm25 : string -> string -> Q;
  keyword_score : Q;
  cosinesimil : list Q -> list Q -> Q;
  store_size_in_bytes : list (string * Document) -> Z;
  valid_point_id : string -> bool;
  vectors_count_of : list PointStruct -> option (option Z);
  indexed_vectors_count_of : list PointStruct -> option (option Z)
}.

(** *** The OpenSearch query DSL, as far as the store uses it *)

#[warnings="-register-all"]
Inductive query : Type :=
| q_term (field value : string)
| q_terms (field : string) (values : list string)
| q_match (field text : string) (boost : Q)
| q_knn (field : string) (vector : list Q) (k : nat)
| q_bool (must should : list query) (minimum_should_match : option nat).

Record search_body : Type := { size : nat; query_of : query }.

Record Hit : Type := { hit_id : string; hit_score : Q; hit_source : Document }.

(** Values of a keyword field of a stored document. *)
Definition keyword_field (field : string) (d : Document) : list string :=
  if String.eqb field "organization_id" then [doc_organization_id d]
  else if String.eqb field "user_id" then
    match doc_user_id d with Some u => [u] | None => [] end
  else if String.eqb field "tags" then
    match doc_tags d with Some ts => ts | None => [] end
  else [].

Definition mem_str (s : string) (l : list string) : bool :=
  existsb (String.eqb s) l.

(** Best-first order on scored items. *)
Definition best_first {A} (score : A -> Q) (a b : A) : Prop :=
  Qle_bool (score b) (score a) = true.

#[global] Instance best_first_dec {A} (score : A -> Q) (a b : A) :
  Decision (best_first score a b).
Proof. unfold best_first. apply _. Defined.

Definition rank {A} (score : A -> Q) (l : list A) : list A :=
  merge_sort (best_first score) l.

Section OpenSearchService.
Variable X : Externals.
Variable docs : list (string * Document).

(** Ids of the [k] stored vectors nearest to [vector]. *)
Definition knn_ids (vector : list Q) (k : nat) : list string :=
  map fst (take k (rank (fun p => cosinesimil X vector (doc_embedding (snd p))) docs)).

(** When absent, [minimum_should_match] is 1 for a [bool] query that has
    only [should] clauses and 0 otherwise. *)
Definition required_should (must should : list query) (msm : option nat) : nat :=
  match msm with
  | Some n => n
  | None => match must, should with
            | [], _ :: _ => 1
            | _, _ => 0
            end
  end.

Fixpoint query_matches (q : query) (h : string * Document) {struct q} : bool :=
  match q with
  | q_term f v => mem_str v (keyword_field f (snd h))
  | q_terms f vs => existsb (fun v => mem_str v (keyword_field f (snd h))) vs
  | q_match f t _ => String.eqb f "text" && analyzer_match X t (doc_text (snd h))
  | q_knn f v k => String.eqb f "embedding" && mem_str (fst h) (knn_ids v k)
  | q_bool must should msm =>
      forallb (fun c => query_matches c h) must
      && (required_should must should msm
            <=? length (List.filter (fun c => query_matches c h) should))
  end.

Fixpoint query_score (q : query) (h : string * Document) {struct q} : Q :=
  match q with
  | q_term _ _ => keyword_score X
  | q_terms _ _ => 1
  | q_match _ t boost => boost * bm25 X t (doc_text (snd h))
  | q_knn _ v _ => cosinesimil X v (doc_embedding (snd h))
  | q_bool must should _ =>
      let clause c acc :=
        ((if query_matches c h then query_score c h else 0) + acc)%Q in
      (fold_right clause 0 must + fold_right clause 0 should)%Q
  end.

Definition to_hit (q : query) (h : string * Document) : Hit :=
  {| hit_id := fst h; hit_score := query_score q h; hit_source := snd h |}.

(** The [hits.hits] array of a search response. *)
Definition run_search (body : search_body) : list Hit :=
  take (size body)
    (rank hit_score
       (map (to_hit (query_of body))
          (List.filter (query_matches (query_of body)) docs))).
End OpenSearchService.

(** *** The OpenSearch client *)

Section OpenSearchClient.
Variable X : Externals.

Definition no_such_index : exn :=
  Exn NotFoundError "NotFoundError(404, 'index_not_found_exception', 'no such index')".
Definition no_such_document : exn :=
  Exn NotFoundError "NotFoundError(404, '{result: not_found}')".
Definition index_already_exists : exn :=
  Exn RequestError "RequestError(400, 'resource_already_exists_exception', 'index already exists')".

Definition has_id (id : string) (l : list (string * Document)) : bool :=
  existsb (fun p => String.eqb (fst p) id) l.

Definition drop_id (id : string) (l : list (string * Document)) : list (string * Document) :=
  List.filter (fun p => negb (String.eqb (fst p) id)) l.

(** [client.indices.exists(index=...)] *)
Definition indices_exists (index : string) : M bool :=
  external (os_indices_exists index);;
  let* w := get_world in
  ret (match indices w !! index with Some _ => true | None => false end).

(** [client.indices.create(index=..., body=...)] *)
Definition indices_create (index : string) (dimension : nat) : M unit :=
  external (os_indices_create index);;
  let* w := get_world in
  match indices w !! index with
  | Some _ => raise index_already_exists
  | None =>
      modify (set_indices
                (insert index {| ix_dimension := dimension; ix_docs := [] |}))
  end.

(** [client.index(index=..., id=..., body=..., refresh=True)]; a missing
    index is created on the fly with a dynamic mapping. *)
Definition client_index (index id : string) (body : Document) : M unit :=
  external (os_index index id);;
  modify (set_indices (fun m =>
    let ix := match m !! index with
              | Some ix => ix
              | None => {| ix_dimension := length (doc_embedding body); ix_docs := [] |}
              end in
    <[index := {| ix_dimension := ix_dimension ix;
                  ix_docs := drop_id id (ix_docs ix) ++ [(id, body)] |}]> m)).

(** [client.search(index=..., body=...)] *)
Definition client_search (index : string) (body : search_body) : M (list Hit) :=
  external (os_search index);;
  let* w := get_world in
  match indices w !! index with
  | Some ix => ret (run_search X (ix_docs ix) body)
  | None => raise no_such_index
  end.

(** [client.delete(index=..., id=..., refresh=True)] *)
Definition client_delete (index id : string) : M unit :=
  external (os_delete index id);;
  let* w := get_world in
  match indices w !! index with
  | Some ix =>
      if has_id id (ix_docs ix) then
        modify (set_indices
                  (insert index {| ix_dimension := ix_dimension ix;
                                   ix_docs := drop_id id (ix_docs ix) |}))
      else raise no_such_document
  | None => raise no_such_index
  end.

(** The part of [client.indices.stats(index=...)] that the store reads. *)
Record IndexStats : Type := {
  total_docs_count : Z;
  total_store_size_in_bytes : Z;
  primaries_docs_count : Z
}.

Definition indices_stats (index : string) : M IndexStats :=
  external (os_indices_stats index);;
  let* w := get_world in
  match indices w !! index with
  | Some ix =>
      ret {| total_docs_count := Z.of_nat (length (ix_docs ix));
             total_store_size_in_bytes := store_size_in_bytes X (ix_docs ix);
             primaries_docs_count := Z.of_nat (length (ix_docs ix)) |}
  | None => raise no_such_index
  end.

(** [openai_client.embeddings.create(input=..., model=...)] followed by
    [response.data[0].embedding]. *)
Definition embeddings_create (input model : string) : M (list Q) :=
  external (openai_embeddings input model);;
  ret (embedding_model X input).

(** [str(uuid.uuid4())] *)
Definition new_uuid : M string :=
  fun w => (inr (uuid4 X (uuid_counter w)), bump_uuid w).
End OpenSearchClient.

(** ** [OpenSearchStore] *)

Module OpenSearchStore.
Section Store.
Variable X : Externals.

Record t : Type := { index_name : string }.

Definition embedding_model_name : string := "text-embedding-3-large".
Definition embedding_dimension : nat := 3072.

Definition _ensure_index (self : t) : M unit :=
  try_except
    (let* present := indices_exists (index_name self) in
     if present then ret tt
     else indices_create (index_name self) embedding_dimension)
    (fun e =>
       if is_class RequestError e then
         if str_contains "resource_already_exists_exception" (exn_str e)
         then ret tt
         else raise e
       else raise e).

Definition _create_embedding (self : t) (text : string) : M (list Q) :=
  try_except (embeddings_create X text embedding_model_name) raise.

Definition add_document (self : t) (text : string)
    (metadata : gmap string pyval) (organization_id : string)
    (user_id : option string) (tags : option (list string)) : M string :=
  try_except
    (let* embedding := _create_embedding self text in
     let* doc_id := new_uuid X in
     let* w := get_world in
     let document :=
       {| doc_text := text;
          doc_embedding := embedding;
          doc_organization_id := organization_id;
          doc_metadata := metadata;
          doc_created_at := utcnow w;
          doc_user_id := if truthy_str user_id then user_id else None;
          doc_tags := if truthy_list tags then tags else None |} in
     client_index (index_name self) doc_id document;;
     ret doc_id)
    raise.

Definition filter_conditions (organization_id : string)
    (user_id : option string) (tags : option (list string)) : list query :=
  [q_term "organization_id" organization_id]
  ++ match user_id with
     | Some u => if truthy_str user_id then [q_term "user_id" u] else []
     | None => []
     end
  ++ match tags with
     | Some ts => if truthy_list tags then [q_terms "tags" ts] else []
     | None => []
     end.

Definition make_search_body (use_hybrid : bool) (query_text : string)
    (query_embedding : list Q) (conditions : list query) (limit : nat)
    : search_body :=
  if use_hybrid then
    {| size := limit;
       query_of :=
         q_bool conditions
           [q_match "text" query_text 1;
            q_knn "embedding" query_embedding (limit * 2)]
           (Some 1) |}
  else
    {| size := limit;
       query_of :=
         q_bool (conditions ++ [q_knn "embedding" query_embedding limit])
           [] None |}.

Definition result_of_hit (hit : Hit) : SearchResult :=
  {| sr_id := hit_id hit;
     sr_score := hit_score hit;
     sr_text := doc_text (hit_source hit);
     sr_metadata := doc_metadata (hit_source hit);
     sr_tags := Some (match doc_tags (hit_source hit) with
                      | Some ts => ts
                      | None => []
                      end) |}.

Definition search (self : t) (query_text : string) (organization_id : string)
    (user_id : option string) (tags : option (list string)) (limit : nat)
    (use_hybrid : bool) : M (list SearchResult) :=
  try_except
    (let* query_embedding := _create_embedding self query_text in
     let conditions := filter_conditions organization_id user_id tags in
     let body := make_search_body use_hybrid query_text query_embedding conditions limit in
     let* hits := client_search X (index_name self) body in
     ret (fold_left (fun results hit => results ++ [result_of_hit hit]) hits []))
    raise.

Definition delete_document (self : t) (doc_id : string) : M bool :=
  try_except
    (client_delete (index_name self) doc_id;; ret true)
    (fun e => if is_class NotFoundError e then ret false else ret false).

Record Stats : Type := {
  name : string;
  document_count : Z;
  size_in_bytes : Z;
  primary_shards : Z
}.

Definition get_index_stats (self : t) : M Stats :=
  try_except
    (let* index_stats := indices_stats X (index_name self) in
     ret {| name := index_name self;
            document_count := total_docs_count index_stats;
            size_in_bytes := total_store_size_in_bytes index_stats;
            primary_shards := primaries_docs_count index_stats |})
    (fun _ =>
       ret {| name := index_name self;
              document_count := 0;
              size_in_bytes := 0;
              primary_shards := 0 |}).
End Store.
End OpenSearchStore.

(** *** The Qdrant server *)

Record FieldCondition : Type := { key : string; match_value : string }.

Record ScoredPoint : Type := {
  sp_id : string;
  sp_score : Q;
  sp_payload : gmap string pyval
}.

(** Keyword values of a payload field: the string itself, or, for an
    array, its string elements. *)
Definition payload_keyword (k : string) (payload : gmap string pyval) : list string :=
  match payload !! k with
  | Some (VStr s) => [s]
  | Some (VList l) =>
      flat_map (fun x => match x with VStr s => [s] | _ => [] end) l
  | _ => []
  end.

(** [FieldCondition(key=..., match=MatchValue(value=...))] on a payload. *)
Definition condition_holds (payload : gmap string pyval) (c : FieldCondition) : bool :=
  mem_str (match_value c) (payload_keyword (key c) payload).

Section QdrantService.
Variable X : Externals.

Definition scored (query : list Q) (p : PointStruct) : ScoredPoint :=
  {| sp_id := pt_id p;
     sp_score := cosinesimil X query (pt_vector p);
     sp_payload := pt_payload p |}.

(** A score passes the threshold when it lies strictly above it. *)
Definition above (score_threshold score : Q) : bool :=
  negb (Qle_bool score score_threshold).

(** [query_points]: the points that pass every [must] condition, scored
    by cosine similarity, without those that do not lie above the
    threshold, best first, cut at [limit]. *)
Definition run_query_points (points : list PointStruct) (query : list Q)
    (limit : nat) (must : list FieldCondition) (score_threshold : Q)
    : list ScoredPoint :=
  take limit
    (rank sp_score
       (List.filter (fun sp => above score_threshold (sp_score sp))
          (map (scored query)
             (List.filter (fun p => forallb (condition_holds (pt_payload p)) must)
                points)))).

Definition no_such_collection : exn :=
  Exn UnexpectedResponse "Unexpected Response: 404 (Not Found): collection does not exist".
Definition collection_already_exists : exn :=
  Exn UnexpectedResponse "Unexpected Response: 409 (Conflict): collection already exists".
Definition bad_point_id : exn :=
  Exn UnexpectedResponse "Unexpected Response: 400 (Bad Request): value is not a valid point ID".
Definition bad_limit : exn :=
  Exn ValueError "ValueError: limit must be greater than 0".
Definition no_attribute (attribute : string) : exn :=
  Exn AttributeError ("'CollectionInfo' object has no attribute '" ++ attribute ++ "'").

Definition drop_points (ids : list string) (l : list PointStruct) : list PointStruct :=
  List.filter (fun p => negb (mem_str (pt_id p) ids)) l.

(** [[col.name for col in client.get_collections().collections]] *)
Definition get_collections : M (list string) :=
  external qd_get_collections;;
  let* w := get_world in
  ret (map fst (map_to_list (collections w))).

Definition create_collection (name : string) (size : nat) : M unit :=
  external (qd_create_collection name);;
  let* w := get_world in
  match collections w !! name with
  | Some _ => raise collection_already_exists
  | None =>
      modify (set_collections
                (insert name {| col_size := size; col_points := [] |}))
  end.

Definition upsert (name : string) (point : PointStruct) : M unit :=
  external (qd_upsert name (pt_id point));;
  let* w := get_world in
  match collections w !! name with
  | Some c =>
      if valid_point_id X (pt_id point) then
        modify (set_collections
                  (insert name
                     {| col_size := col_size c;
                        col_points := drop_points [pt_id point] (col_points c) ++ [point] |}))
      else raise bad_point_id
  | None => raise no_such_collection
  end.

(** The client refuses a [limit] of 0 before it sends the request. *)
Definition query_points (name : string) (query : list Q) (limit : nat)
    (must : list FieldCondition) (score_threshold : Q) : M (list ScoredPoint) :=
  if limit =? 0 then raise bad_limit
  else
    external (qd_query_points name);;
    let* w := get_world in
    match collections w !! name with
    | Some c => ret (run_query_points (col_points c) query limit must score_threshold)
    | None => raise no_such_collection
    end.

(** [client.delete(collection_name=..., points_selector=[doc_id])]: ids
    that name no point are skipped, the operation still completes. *)
Definition qdrant_delete (name : string) (doc_id : string) : M unit :=
  external (qd_delete name doc_id);;
  let* w := get_world in
  match collections w !! name with
  | Some c =>
      if valid_point_id X doc_id then
        modify (set_collections
                  (insert name
                     {| col_size := col_size c;
                        col_points := drop_points [doc_id] (col_points c) |}))
      else raise bad_point_id
  | None => raise no_such_collection
  end.

(** The collection info as the client hands it over.  Whether it has the
    attributes [vectors_count] and [indexed_vectors_count], and whether
    they hold a number or [None], depends on the versions of the server
    and of the client: the outer [None] stands for an attribute that the
    object does not have, the inner one for the value [None]. *)
Record CollectionInfo : Type := {
  info_vectors_count : option (option Z);
  info_indexed_vectors_count : option (option Z);
  info_points_count : option Z
}.

Definition get_collection (name : string) : M CollectionInfo :=
  external (qd_get_collection name);;
  let* w := get_world in
  match collections w !! name with
  | Some c =>
      ret {| info_vectors_count := vectors_count_of X (col_points c);
             info_indexed_vectors_count := indexed_vectors_count_of X (col_points c);
             info_points_count := Some (Z.of_nat (length (col_points c))) |}
  | None => raise no_such_collection
  end.

(** [obj.attribute] *)
Definition getattr {A} (attribute : string) (value : option A) : M A :=
  match value with
  | Some v => ret v
  | None => raise (no_attribute attribute)
  end.
End QdrantService.

(** ** [QdrantStore] *)

Module QdrantStore.
Section Store.
Variable X : Externals.

Record t : Type := { collection_name : string }.

Definition embedding_model_name : string := "text-embedding-3-large".
Definition embedding_dimension : nat := 3072.

Definition _ensure_collection (self : t) : M unit :=
  try_except
    (let* collection_names := get_collections in
     if negb (mem_str (collection_name self) collection_names) then
       create_collection (collection_name self) embedding_dimension
     else ret tt)
    raise.

Definition _create_embedding (self : t) (text : string) : M (list Q) :=
  try_except (embeddings_create X text embedding_model_name) raise.

Definition add_document (self : t) (text : string)
    (metadata : gmap string pyval) (organization_id : string)
    (user_id : option string) : M string :=
  try_except
    (let* embedding := _create_embedding self text in
     let* doc_id := new_uuid X in
     let payload :=
       <["text" := VStr text]>
         (<["organization_id" := VStr organization_id]> metadata) in
     let payload :=
       match user_id with
       | Some u => if truthy_str user_id then <["user_id" := VStr u]> payload else payload
       | None => payload
       end in
     upsert X (collection_name self)
       {| pt_id := doc_id; pt_vector := embedding; pt_payload := payload |};;
     ret doc_id)
    raise.

Definition filter_conditions (organization_id : string)
    (user_id : option string) : list FieldCondition :=
  [{| key := "organization_id"; match_value := organization_id |}]
  ++ match user_id with
     | Some u => if truthy_str user_id
                 then [{| key := "user_id"; match_value := u |}]
                 else []
     | None => []
     end.

(** [point.payload.get("text", "")]: the text is a [str] in every payload
    that [add_document] writes; any other value is read as empty. *)
Definition payload_text (payload : gmap string pyval) : string :=
  match payload !! "text" with
  | Some (VStr s) => s
  | _ => EmptyString
  end.

Definition hidden_keys : list string := ["text"; "organization_id"; "user_id"].

Definition result_of_point (point : ScoredPoint) : SearchResult :=
  {| sr_id := sp_id point;
     sr_score := sp_score point;
     sr_text := payload_text (sp_payload point);
     sr_metadata := filter (fun kv => fst kv ∉ hidden_keys) (sp_payload point);
     sr_tags := None |}.

Definition search (self : t) (query_text : string) (organization_id : string)
    (user_id : option string) (limit : nat) (score_threshold : Q)
    : M (list SearchResult) :=
  try_except
    (let* query_embedding := _create_embedding self query_text in
     let conditions := filter_conditions organization_id user_id in
     let* points :=
       query_points X (collection_name self) query_embedding limit
         conditions score_threshold in
     ret (fold_left (fun results point => results ++ [result_of_point point])
            points []))
    raise.

Definition delete_document (self : t) (doc_id : string) : M bool :=
  try_except
    (qdrant_delete X (collection_name self) doc_id;; ret true)
    (fun _ => ret false).

Record Info : Type := {
  name : string;
  vectors_count : Z;
  indexed_vectors_count : Z;
  points_count : Z
}.

(** [x or 0] *)
Definition or_zero (o : option Z) : Z :=
  match o with
  | Some z => z
  | None => 0%Z
  end.

Definition get_collection_info (self : t) : M Info :=
  try_except
    (let* collection_info := get_collection X (collection_name self) in
     let* vectors_count :=
       getattr "vectors_count" (info_vectors_count collection_info) in
     let* indexed_vectors_count :=
       getattr "indexed_vectors_count" (info_indexed_vectors_count collection_info) in
     ret {| name := collection_name self;
            vectors_count := or_zero vectors_count;
            indexed_vectors_count := or_zero indexed_vectors_count;
            points_count := or_zero (info_points_count collection_info) |})
    raise.
End Store.
End QdrantStore.

(** ** String formatting *)

Definition nl : string := String (ascii_of_nat 10) EmptyString.
Definition dquote : string := String (ascii_of_nat 34) EmptyString.

(** [str(i)] for a non-negative integer. *)
Definition str_of_nat (n : nat) : string :=
  NilZero.string_of_uint (Nat.to_uint n).

Definition str_of_Z (z : Z) : string :=
  NilZero.string_of_int (Z.to_int z).

(** Nearest integer to a non-negative rational, ties to even. *)
Definition round_half_even (q : Q) : Z :=
  let n := Qnum q in
  let d := Zpos (Qden q) in
  let fl := (n / d)%Z in
  let r := (n mod d)%Z in
  match (2 * r ?= d)%Z with
  | Lt => fl
  | Gt => (fl + 1)%Z
  | Eq => if Z.even fl then fl else (fl + 1)%Z
  end.

Definition two_digits (z : Z) : string :=
  if (z <? 10)%Z then "0" ++ str_of_Z z else str_of_Z z.

(** [f"{x:.2f}"] on the exact value of a finite float. *)
Definition format_2f (x : Q) : string :=
  let cents := round_half_even (Qabs x * 100) in
  (if (Qnum x <? 0)%Z then "-" else EmptyString)
  ++ str_of_Z (cents / 100) ++ "." ++ two_digits (cents mod 100).

(** [sep.join(parts)] *)
Fixpoint join (sep : string) (parts : list string) : string :=
  match parts with
  | [] => EmptyString
  | [p] => p
  | p :: rest => p ++ sep ++ join sep rest
  end.

(** ** [RAGEngine] *)

Module RAGEngine.
Section Engine.
Variable X : Externals.

Inductive store : Type :=
| OpenSearch (s : OpenSearchStore.t)
| Qdrant (s : QdrantStore.t).

Record t : Type := {
  vector_store : store;
  llm_model : string;
  temperature : Q;
  max_tokens : Z
}.

(** [openai_client.chat.completions.create(...)] followed by
    [response.choices[0].message.content]. *)
Definition chat_completions_create (model : string) (messages : list Message)
    (temp : Q) (max_tok : Z) : M string :=
  external (openai_chat model messages);;
  ret (chat_model X model messages temp max_tok).

Definition add_document (self : t) (text : string)
    (metadata : gmap string pyval) (organization_id : string)
    (user_id : option string) (tags : option (list string)) : M string :=
  try_except
    (match vector_store self with
     | OpenSearch s =>
         OpenSearchStore.add_document X s text metadata organization_id user_id tags
     | Qdrant s =>
         QdrantStore.add_document X s text metadata organization_id user_id
     end)
    raise.

Definition default_limit : nat := 5.
Definition default_score_threshold : Q := 3 # 10.

Definition search_documents (self : t) (query : string)
    (organization_id : string) (user_id : option string)
    (tags : option (list string)) (limit : nat) : M (list SearchResult) :=
  try_except
    (match vector_store self with
     | OpenSearch s =>
         OpenSearchStore.search X s query organization_id user_id tags limit true
     | Qdrant s =>
         QdrantStore.search X s query organization_id user_id limit
           default_score_threshold
     end)
    raise.

Definition context_block (i : nat) (result : SearchResult) : string :=
  "[문서 " ++ str_of_nat i ++ "] (유사도: " ++ format_2f (sr_score result) ++ ")"
  ++ nl ++ sr_text result.

Definition _build_context (search_results : list SearchResult) : string :=
  let loop :=
    fold_left
      (fun st result =>
         (S (fst st), snd st ++ [context_block (fst st) result]))
      search_results (1, []) in
  join (nl ++ nl) (snd loop).

Definition _get_system_prompt : string :=
"당신은 협업 플랫폼 Cowexa의 AI 어시스턴트입니다.

역할:
- 사용자의 질문에 정확하고 친절하게 답변합니다
- 제공된 문서(컨텍스트)를 바탕으로 답변합니다
- 문서에 없는 내용은 추측하지 않습니다

답변 지침:
1. 제공된 문서의 내용을 우선적으로 사용하세요
2. 문서에 정보가 없으면 " ++ dquote ++ "제공된 문서에서 관련 정보를 찾을 수 없습니다" ++ dquote ++ "라고 답변하세요
3. 답변은 명확하고 간결하게 작성하세요
4. 필요시 문서 번호를 인용하여 출처를 명시하세요 (예: [문서 1]에 따르면...)

주의사항:
- 개인정보나 민감한 정보는 신중하게 다루세요
- 확실하지 않은 내용은 추측하지 마세요
- 항상 친절하고 전문적인 톤을 유지하세요
".

Definition _build_user_prompt (context query : string) : string :=
  "다음은 참고할 문서들입니다:" ++ nl ++ nl
  ++ context ++ nl ++ nl
  ++ "질문: " ++ query ++ nl ++ nl
  ++ "위 문서들을 참고하여 질문에 답변해주세요.".

Definition no_context_system_prompt : string :=
"당신은 협업 플랫폼 Cowexa의 AI 어시스턴트입니다.

사용자의 질문에 답변하되, 관련 문서를 찾을 수 없었음을 알려주세요.
일반적인 정보는 제공할 수 있지만, 회사 내부 정보나 특정 프로젝트 정보는 문서가 필요합니다.".

Record Source : Type := {
  src_text : string;
  src_score : Q;
  src_metadata : gmap string pyval
}.

Record Answer : Type := {
  answer : string;
  sources : list Source;
  model : string
}.

Definition no_context_messages (query : string) : list Message :=
  [ {| role := "system"; content := no_context_system_prompt |};
    {| role := "user"; content := query |} ].

Definition _generate_without_context (self : t) (query : string) : M Answer :=
  let messages := no_context_messages query in
  let* reply :=
    chat_completions_create (llm_model self) messages
      (temperature self) (max_tokens self) in
  ret {| answer := reply; sources := []; model := llm_model self |}.

Definition source_of (src : SearchResult) : Source :=
  {| src_text := sr_text src;
     src_score := sr_score src;
     src_metadata := sr_metadata src |}.

Definition generate_answer (self : t) (query : string)
    (organization_id : string) (user_id : option string)
    (context_limit : nat) : M Answer :=
  try_except
    (let* search_results :=
       search_documents self query organization_id user_id None context_limit in
     match search_results with
     | [] => _generate_without_context self query
     | _ :: _ =>
         let context := _build_context search_results in
         let messages :=
           [ {| role := "system"; content := _get_system_prompt |};
             {| role := "user"; content := _build_user_prompt context query |} ] in
         let* reply :=
           chat_completions_create (llm_model self) messages
             (temperature self) (max_tokens self) in
         ret {| answer := reply;
                sources := map source_of search_results;
                model := llm_model self |}
     end)
    raise.

Definition delete_document (self : t) (doc_id : string) : M bool :=
  try_except
    (match vector_store self with
     | OpenSearch s => OpenSearchStore.delete_document s doc_id
     | Qdrant s => QdrantStore.delete_document X s doc_id
     end)
    (fun _ => ret false).

Record Stats : Type := {
  total_documents : Z;
  vector_store_info : OpenSearchStore.Stats + QdrantStore.Info;
  stats_llm_model : string;
  stats_temperature : Q;
  stats_max_tokens : Z
}.

Definition get_stats (self : t) : M Stats :=
  try_except
    (let* info :=
       match vector_store self with
       | OpenSearch s =>
           let* i := OpenSearchStore.get_index_stats X s in
           ret (OpenSearchStore.document_count i, inl i)
       | Qdrant s =>
           let* i := QdrantStore.get_collection_info X s in
           ret (QdrantStore.vectors_count i, inr i)
       end in
     ret {| total_documents := fst info;
            vector_store_info := snd info;
            stats_llm_model := llm_model self;
            stats_temperature := temperature self;
            stats_max_tokens := max_tokens self |})
    raise.
End Engine.
End RAGEngine.

(** * Vocabulary of the statements *)

(** The documents and points a world holds. *)
Definition stored_doc (w : World) (index id : string) (d : Document) : Prop :=
  exists ix, indices w !! index = Some ix /\ (id, d) ∈ ix_docs ix.

Definition stored_point (w : World) (name : string) (p : PointStruct) : Prop :=
  exists c, collections w !! name = Some c /\ p ∈ col_points c.

(** An outgoing call that is only served (not one that writes) leaves
    every index and collection as it was, except that a peer may have
    created an empty one in the meantime. *)
Definition grown (w w1 : World) : Prop :=
  (forall name,
      indices w1 !! name = indices w !! name
      \/ (indices w !! name = None
          /\ exists d, indices w1 !! name = Some {| ix_dimension := d; ix_docs := [] |}))
  /\ (forall name,
      collections w1 !! name = collections w !! name
      \/ (collections w !! name = None
          /\ exists n, collections w1 !! name = Some {| col_size := n; col_points := [] |})).

(** * Tenant isolation: vocabulary *)

(** A search on either back end, with the arguments each one takes
    ([use_hybrid] is read by the OpenSearch store only, [score_threshold]
    by the Qdrant store only, which has no [tags] parameter). *)
Definition store_search (X : Externals) (b : RAGEngine.store) (query : string)
    (organization_id : string) (user_id : option string)
    (tags : option (list string)) (limit : nat) (use_hybrid : bool)
    (score_threshold : Q) : M (list SearchResult) :=
  match b with
  | RAGEngine.OpenSearch s =>
      OpenSearchStore.search X s query organization_id user_id tags limit use_hybrid
  | RAGEngine.Qdrant s =>
      QdrantStore.search X s query organization_id user_id limit score_threshold
  end.

(** [results] are the renderings of hits that were all stored, in the
    world [w], under the organisation [org]. *)
Definition answers_from (w : World) (b : RAGEngine.store) (org : string)
    (results : list SearchResult) : Prop :=
  match b with
  | RAGEngine.OpenSearch s =>
      exists hits : list Hit,
        results = map OpenSearchStore.result_of_hit hits
        /\ Forall (fun h =>
             stored_doc w (OpenSearchStore.index_name s) (hit_id h) (hit_source h)
             /\ doc_organization_id (hit_source h) = org) hits
  | RAGEngine.Qdrant s =>
      exists points : list ScoredPoint,
        results = map QdrantStore.result_of_point points
        /\ Forall (fun sp =>
             exists p, stored_point w (QdrantStore.collection_name s) p
               /\ sp_id sp = pt_id p
               /\ sp_payload sp = pt_payload p
               /\ pt_payload p !! "organization_id" = Some (VStr org)) points
  end.

(** Every point of a collection carries one organisation id, a string:
    this is how [QdrantStore.add_document] writes payloads. *)
Definition single_tenant_payloads (w : World) (name : string) : Prop :=
  forall p, stored_point w name p ->
    exists o, pt_payload p !! "organization_id" = Some (VStr o).

Definition backend_well_formed (w : World) (b : RAGEngine.store) : Prop :=
  match b with
  | RAGEngine.OpenSearch _ => True
  | RAGEngine.Qdrant s => single_tenant_payloads w (QdrantStore.collection_name s)
  end.

(** * A concrete instance

    Stand-ins for the remote services, used to run the stores on small
    inputs: embeddings are two-dimensional, relevance is the dot product,
    the analyzer matches a query that occurs in the text. *)

Definition is_hex (c : ascii) : bool :=
  let n := nat_of_ascii c in
  ((48 <=? n) && (n <=? 57)) || ((97 <=? n) && (n <=? 102)) || ((65 <=? n) && (n <=? 70)).

Fixpoint uuid_shape (i : nat) (s : string) : bool :=
  match s with
  | EmptyString => i =? 36
  | String c rest =>
      (if (i =? 8) || (i =? 13) || (i =? 18) || (i =? 23)
       then Ascii.eqb c "-"%char
       else is_hex c)
      && uuid_shape (S i) rest
  end.

(** The hyphenated form in which [str(uuid.uuid4())] prints an id. *)
Definition is_canonical_uuid (s : string) : bool := uuid_shape 0 s.

Fixpoint dot (a b : list Q) : Q :=
  match a, b with
  | x :: a', y :: b' => (x * y + dot a' b')%Q
  | _, _ => 0%Q
  end.

Definition demo_uuid (n : nat) : string :=
  "00000000-0000-4000-8000-0000000000"
  ++ (if n <? 10 then "0" ++ str_of_nat n else str_of_nat n).

Definition demo : Externals :=
  {| embedding_model := fun s => if str_contains "deadline" s then [1%Q; 0%Q] else [0%Q; 1%Q];
     chat_model := fun _ messages _ _ =>
       ("reply to " ++ str_of_nat (length messages) ++ " messages")%string;
     uuid4 := demo_uuid;
     analyzer_match := str_contains;
     bm25 := fun _ _ => 1%Q;
     keyword_score := 1%Q;
     cosinesimil := dot;
     store_size_in_bytes := fun docs => (Z.of_nat (length docs) * 100)%Z;
     valid_point_id := is_canonical_uuid;
     vectors_count_of := fun _ => Some None;
     indexed_vectors_count_of := fun _ => Some None |}.

Definition empty_world : World :=
  {| indices := ∅; collections := ∅; schedule := []; trace := [];
     uuid_counter := 0; utcnow := "2024-12-01T00:00:00" |}.

Definition with_schedule (evs : list event) (w : World) : World :=
  set_schedule evs w.

(** The world after running a computation, whatever it returned. *)
Definition after {A} (m : M A) (w : World) : World := snd (m w).

Definition demo_index : OpenSearchStore.t := {| OpenSearchStore.index_name := "ai_documents" |}.
Definition demo_collection : QdrantStore.t := {| QdrantStore.collection_name := "documents" |}.

Definition text_deadline : string := "Project A deadline is Dec 31 2024".
Definition text_owner : string := "Project A owner is Hong".
Definition text_other : string := "Project B deadline is Jan 15 2025".

(** An OpenSearch cluster holding two documents of [org_1] and one of
    [org_2], all written by [add_document]. *)
Definition opensearch_world : World :=
  after (OpenSearchStore.add_document demo demo_index text_other ∅ "org_2" None None)
    (after (OpenSearchStore.add_document demo demo_index text_owner ∅ "org_1" None
              (Some ["projectA"]))
       (after (OpenSearchStore.add_document demo demo_index text_deadline
                 {[ "title" := VStr "schedule" ]} "org_1" (Some "user_1") None)
          (after (OpenSearchStore._ensure_index demo_index) empty_world))).

(** The same three documents in a Qdrant collection. *)
Definition qdrant_world : World :=
  after (QdrantStore.add_document demo demo_collection text_other ∅ "org_2" None)
    (after (QdrantStore.add_document demo demo_collection text_owner ∅ "org_1" None)
       (after (QdrantStore.add_document demo demo_collection text_deadline
                 {[ "title" := VStr "schedule" ]} "org_1" (Some "user_1"))
          (after (QdrantStore._ensure_collection demo_collection) empty_world))).

(** The first document of [opensearch_world], as it is stored. *)
Definition deadline_doc : string * Document :=
  ("00000000-0000-4000-8000-000000000000",
   {| doc_text := text_deadline;
      doc_embedding := [1%Q; 0%Q];
      doc_organization_id := "org_1";
      doc_metadata := {[ "title" := VStr "schedule" ]};
      doc_created_at := "2024-12-01T00:00:00";
      doc_user_id := Some "user_1";
      doc_tags := None |}).

(** * Hybrid search: vocabulary *)

(** The query that [OpenSearchStore.search] sends in hybrid mode. *)
Definition hybrid_body (X : Externals) (query : string) (organization_id : string)
    (user_id : option string) (tags : option (list string)) (limit : nat) : search_body :=
  OpenSearchStore.make_search_body true query (embedding_model X query)
    (OpenSearchStore.filter_conditions organization_id user_id tags) limit.

(** A stored document satisfies every filter condition that the store
    builds from the tenant, the user and the tags. *)
Definition passes_filters (X : Externals) (docs : list (string * Document))
    (organization_id : string) (user_id : option string)
    (tags : option (list string)) (p : string * Document) : bool :=
  forallb (fun c => query_matches X docs c p)
    (OpenSearchStore.filter_conditions organization_id user_id tags).

(** The documents of an index that a search body matches, before the
    [size] cutoff. *)
Definition eligible (X : Externals) (docs : list (string * Document))
    (body : search_body) : list (string * Document) :=
  List.filter (query_matches X docs (query_of body)) docs.

(** The reading under which a keyword match alone always puts a stored
    document that passes the filters among the returned results. *)
Definition keyword_match_suffices (X : Externals) (self : OpenSearchStore.t)
    (query : string) (organization_id : string) (user_id : option string)
    (tags : option (list string)) (limit : nat) (w : World) : Prop :=
  forall results w' ix p,
    OpenSearchStore.search X self query organization_id user_id tags limit true w
      = (inr results, w') ->
    indices w !! OpenSearchStore.index_name self = Some ix ->
    p ∈ ix_docs ix ->
    passes_filters X (ix_docs ix) organization_id user_id tags p = true ->
    analyzer_match X query (doc_text (snd p)) = true ->
    exists r, r ∈ results /\ sr_id r = fst p.

(** * Dense search: vocabulary *)

(** The points of a collection that pass the filter conditions and lie
    above the threshold, scored, before the [limit] cutoff. *)
Definition qualifying (X : Externals) (points : list PointStruct) (query : list Q)
    (must : list FieldCondition) (score_threshold : Q) : list ScoredPoint :=
  List.filter (fun sp => above score_threshold (sp_score sp))
    (map (scored X query)
       (List.filter (fun p => forallb (condition_holds (pt_payload p)) must) points)).

(** * Context builder: the format in words *)

(** One block: a bracketed label with the index, the score with two
    decimals in parentheses, a line break, the text. *)
Definition labelled_block (doc_label score_label : string) (index : nat)
    (r : SearchResult) : string :=
  "[" ++ doc_label ++ " " ++ str_of_nat index ++ "] (" ++ score_label ++ ": "
  ++ format_2f (sr_score r) ++ ")" ++ nl ++ sr_text r.

(** The blocks of the results in input order, numbered from 1 and joined
    by a blank line. *)
Definition format_blocks (doc_label score_label : string)
    (results : list SearchResult) : string :=
  join (nl ++ nl)
    (imap (fun k r => labelled_block doc_label score_label (S k) r) results).

Definition sample_result : SearchResult :=
  {| sr_id := "00000000-0000-4000-8000-000000000000";
     sr_score := 23 # 25;
     sr_text := text_deadline;
     sr_metadata := ∅;
     sr_tags := None |}.

(** * Orchestrator: vocabulary *)

(** The next outgoing call is not made to fail. *)
Definition reachable (w : World) : Prop :=
  match schedule w with
  | Fault _ :: _ => False
  | _ => True
  end.

Definition opensearch_engine : RAGEngine.t :=
  {| RAGEngine.vector_store := RAGEngine.OpenSearch demo_index;
     RAGEngine.llm_model := "gpt-4o";
     RAGEngine.temperature := 7 # 10;
     RAGEngine.max_tokens := 2000 |}.

Definition qdrant_engine : RAGEngine.t :=
  {| RAGEngine.vector_store := RAGEngine.Qdrant demo_collection;
     RAGEngine.llm_model := "gpt-4o";
     RAGEngine.temperature := 7 # 10;
     RAGEngine.max_tokens := 2000 |}.

(** * Schema creation and deletion: scenarios *)

(** Two instances start against an empty Qdrant server: the peer creates
    the collection after this instance has listed the collections and
    before its own creation request is served. *)
Definition qdrant_race_world : World :=
  with_schedule [Quiet; PeerCreatesCollection "documents" 3072] empty_world.

(** The same race against an empty OpenSearch cluster. *)
Definition opensearch_race_world : World :=
  with_schedule [Quiet; PeerCreatesIndex "ai_documents" 3072] empty_world.

(** A well-formed id that names no stored document. *)
Definition absent_id : string := "00000000-0000-4000-8000-000000000077".

Definition point_ids (w : World) (name : string) : list string :=
  match collections w !! name with
  | Some c => map pt_id (col_points c)
  | None => []
  end.

Definition doc_ids (w : World) (index : string) : list string :=
  match indices w !! index with
  | Some ix => map fst (ix_docs ix)
  | None => []
  end.

(** * Failures: vocabulary *)

Definition connection_refused : exn :=
  Exn ConnectionError "ConnectionError: connection refused".




(** The error that [_ensure_index] absorbs. *)
Definition already_exists_error (e : exn) : bool :=
  is_class RequestError e
  && str_contains "resource_already_exists_exception" (exn_str e).

Definition default_stats (self : OpenSearchStore.t) : OpenSearchStore.Stats :=
  {| OpenSearchStore.name := OpenSearchStore.index_name self;
     OpenSearchStore.document_count := 0;
     OpenSearchStore.size_in_bytes := 0;
     OpenSearchStore.primary_shards := 0 |}.

(** The stored worlds with the store unreachable at the next call. *)
Definition opensearch_down : World :=
  with_schedule [Fault connection_refused] opensearch_world.

Definition qdrant_down : World :=
  with_schedule [Fault connection_refused] qdrant_world.

(** The embedding call is served, the store call after it fails. *)
Definition opensearch_down_later : World :=
  with_schedule [Quiet; Fault connection_refused] opensearch_world.

(** * Construction of the stores and of the engine *)

(** The fields of [Settings] that the retrieval path reads, with their
    defaults. *)
Record Settings : Type := {
  environment : string;
  openai_model : string;
  openai_max_tokens : Z;
  openai_temperature : Q;
  opensearch_index : string;
  cors_origins : string
}.

Definition default_settings : Settings :=
  {| environment := "dev";
     openai_model := "gpt-4o";
     openai_max_tokens := 2000;
     openai_temperature := 7 # 10;
     opensearch_index := "ai_documents";
     cors_origins := "http://localhost:3000" |}.

(** [Settings.is_production] *)
Definition is_production (s : Settings) : bool :=
  String.eqb (environment s) "prod".

(** [OpenSearchStore.__init__]: the clients are set up, then the index is
    ensured. *)
Definition opensearch_store_init (index_name : string) : M OpenSearchStore.t :=
  let self := {| OpenSearchStore.index_name := index_name |} in
  OpenSearchStore._ensure_index self;;
  ret self.

(** [QdrantStore.__init__] *)
Definition qdrant_store_init (collection_name : string) : M QdrantStore.t :=
  let self := {| QdrantStore.collection_name := collection_name |} in
  QdrantStore._ensure_collection self;;
  ret self.

(** [RAGEngine.__init__]: a store that is passed in is kept; otherwise an
    OpenSearch store on the configured index, or a Qdrant store with its
    default collection, is constructed. *)
Definition rag_engine_init (settings : Settings)
    (vector_store : option RAGEngine.store) (llm_model : string)
    (temperature : Q) (max_tokens : Z) (use_opensearch : bool) : M RAGEngine.t :=
  let* store :=
    match vector_store with
    | Some s => ret s
    | None =>
        if use_opensearch then
          let* s := opensearch_store_init (opensearch_index settings) in
          ret (RAGEngine.OpenSearch s)
        else
          let* s := qdrant_store_init "documents" in
          ret (RAGEngine.Qdrant s)
    end in
  ret {| RAGEngine.vector_store := store;
         RAGEngine.llm_model := llm_model;
         RAGEngine.temperature := temperature;
         RAGEngine.max_tokens := max_tokens |}.

(** [RAGEngine()], as the REST modules call it. *)
Definition rag_engine_default (settings : Settings) : M RAGEngine.t :=
  rag_engine_init settings None "gpt-4o" (7 # 10) 2000 true.

(** * The REST layer *)

(** What a handler raises: FastAPI turns it into the response status and
    the [detail] body. *)
Record HTTPException : Type := { status_code : nat; detail : string }.

(** A handler either returns its response model or raises an
    [HTTPException]; no other exception leaves a handler. *)
Definition Handler (A : Type) : Type := World -> (HTTPException + A) * World.

(** The status of the response, [ok] being the status of the route. *)
Definition response_status {A} (ok : nat) (r : HTTPException + A) : nat :=
  match r with
  | inr _ => ok
  | inl h => status_code h
  end.

(** [try: body  except Exception as e: raise HTTPException(500, prefix + str(e))] *)
Definition or_500 {A} (prefix : string) (body : M A) : Handler A :=
  fun w =>
    match body w with
    | (inr a, w') => (inr a, w')
    | (inl e, w') =>
        (inl {| status_code := 500; detail := prefix ++ exn_str e |}, w')
    end.

Module DocumentAddRequest.
Record t : Type := {
  text : string;
  metadata : gmap string pyval;
  organization_id : string;
  user_id : option string;
  tags : option (list string)
}.
End DocumentAddRequest.

Module DocumentAddResponse.
Record t : Type := { doc_id : string; message : string }.
End DocumentAddResponse.

Module DocumentSearchRequest.
Record t : Type := {
  query : string;
  organization_id : string;
  user_id : option string;
  tags : option (list string);
  limit : nat
}.
End DocumentSearchRequest.

Module DocumentSearchResponse.
Record t : Type := { results : list RAGEngine.Source; count : nat }.
End DocumentSearchResponse.

Module StatsResponse.
Record t : Type := {
  total_documents : Z;
  vector_store : OpenSearchStore.Stats + QdrantStore.Info;
  llm_model : string
}.
End StatsResponse.

Module Documents.
Section Routes.
Variable X : Externals.
Variable rag_engine : RAGEngine.t.

(** [Source(text=result["text"], score=result["score"], metadata=result["metadata"])] *)
Definition to_source (result : SearchResult) : RAGEngine.Source :=
  {| RAGEngine.src_text := sr_text result;
     RAGEngine.src_score := sr_score result;
     RAGEngine.src_metadata := sr_metadata result |}.

(** [POST /documents], status 201 *)
Definition add_document (request : DocumentAddRequest.t)
    : Handler DocumentAddResponse.t :=
  or_500 "문서 추가 실패: "
    (let* doc_id :=
       RAGEngine.add_document X rag_engine
         (DocumentAddRequest.text request)
         (DocumentAddRequest.metadata request)
         (DocumentAddRequest.organization_id request)
         (DocumentAddRequest.user_id request)
         (DocumentAddRequest.tags request) in
     ret {| DocumentAddResponse.doc_id := doc_id;
            DocumentAddResponse.message := "문서가 성공적으로 추가되었습니다." |}).

(** [POST /documents/search] *)
Definition search_documents (request : DocumentSearchRequest.t)
    : Handler DocumentSearchResponse.t :=
  or_500 "문서 검색 실패: "
    (let* results :=
       RAGEngine.search_documents X rag_engine
         (DocumentSearchRequest.query request)
         (DocumentSearchRequest.organization_id request)
         (DocumentSearchRequest.user_id request)
         (DocumentSearchRequest.tags request)
         (DocumentSearchRequest.limit request) in
     let sources := map to_source results in
     ret {| DocumentSearchResponse.results := sources;
            DocumentSearchResponse.count := length sources |}).

(** [DELETE /documents/{doc_id}]: the 404 raised inside the [try] block
    passes the [except HTTPException: raise] clause; any other exception
    becomes a 500. *)
Definition delete_document (doc_id : string) : Handler string :=
  fun w =>
    match RAGEngine.delete_document X rag_engine doc_id w with
    | (inr success, w') =>
        if negb success then
          (inl {| status_code := 404;
                  detail := "문서를 찾을 수 없습니다: " ++ doc_id |}, w')
        else (inr "문서가 성공적으로 삭제되었습니다.", w')
    | (inl e, w') =>
        (inl {| status_code := 500; detail := "문서 삭제 실패: " ++ exn_str e |}, w')
    end.

(** [GET /documents/stats] *)
Definition get_stats : Handler StatsResponse.t :=
  or_500 "통계 조회 실패: "
    (let* stats := RAGEngine.get_stats X rag_engine in
     ret {| StatsResponse.total_documents := RAGEngine.total_documents stats;
            StatsResponse.vector_store := RAGEngine.vector_store_info stats;
            StatsResponse.llm_model := RAGEngine.stats_llm_model stats |}).
End Routes.
End Documents.

(** * The chat route and the LLM client *)

Module OpenAIClient.
Section Client.
Variable X : Externals.

Record t : Type := { model : string; max_tokens : Z; temperature : Q }.

(** [OpenAIClient()] *)
Definition of_settings (s : Settings) : t :=
  {| model := openai_model s;
     max_tokens := openai_max_tokens s;
     temperature := openai_temperature s |}.

(** [temperature or self.temperature]: [None] and [0.0] are falsy. *)
Definition temperature_or (arg : option Q) (default : Q) : Q :=
  match arg with
  | Some t => if (Qnum t =? 0)%Z then default else t
  | None => default
  end.

(** [max_tokens or self.max_tokens]: [None] and [0] are falsy. *)
Definition max_tokens_or (arg : option Z) (default : Z) : Z :=
  match arg with
  | Some n => if (n =? 0)%Z then default else n
  | None => default
  end.

(** [content if content else ""] *)
Definition content_or_empty (content : string) : string :=
  if String.eqb content EmptyString then EmptyString else content.

Definition generate (self : t) (messages : list Message)
    (temp : option Q) (max_tok : option Z) : M string :=
  try_except
    (let* content :=
       RAGEngine.chat_completions_create X (model self) messages
         (temperature_or temp (temperature self))
         (max_tokens_or max_tok (max_tokens self)) in
     ret (content_or_empty content))
    raise.
End Client.
End OpenAIClient.

Module ChatRequest.
Record t : Type := {
  message : string;
  organization_id : string;
  user_id : option string;
  session_id : option string;
  use_rag : bool
}.
End ChatRequest.

Module ChatResponse.
Record t : Type := {
  session_id : string;
  message : string;
  sources : option (list RAGEngine.Source);
  suggestions : option (list string);
  timestamp : string
}.
End ChatResponse.

Module Chat.
Section Routes.
Variable X : Externals.
Variable rag_engine : RAGEngine.t.
Variable openai_client : OpenAIClient.t.

(** [uuid.uuid4().hex]: the id without its hyphens. *)
Fixpoint hex_of_uuid (s : string) : string :=
  match s with
  | EmptyString => EmptyString
  | String c rest =>
      if Ascii.eqb c "-"%char then hex_of_uuid rest else String c (hex_of_uuid rest)
  end.

(** [request.session_id or f"sess_{uuid.uuid4().hex[:12]}"] *)
Definition session_id_of (request : ChatRequest.t) : M string :=
  match ChatRequest.session_id request with
  | Some s =>
      if truthy_str (Some s) then ret s
      else
        let* u := new_uuid X in
        ret ("sess_" ++ String.substring 0 12 (hex_of_uuid u))%string
  | None =>
      let* u := new_uuid X in
      ret ("sess_" ++ String.substring 0 12 (hex_of_uuid u))%string
  end.

Definition general_system_prompt : string :=
"당신은 Cowexa 협업 플랫폼의 AI 비서입니다.

사용자의 업무를 도와 생산성을 높이는 것이 목표입니다.

지침:
- 친절하고 전문적으로 답변하세요
- 모르는 것은 솔직히 말하세요
- 간결하면서도 도움이 되는 답변을 제공하세요
".

Definition rag_suggestions : list string :=
  ["관련 문서 더 찾기"; "다른 프로젝트 정보 검색"; "일정 확인하기"].

Definition general_suggestions : list string :=
  ["문서 검색하기"; "태스크 생성하기"; "일정 확인하기"].

(** [sources if sources else None] *)
Definition sources_or_none (sources : list RAGEngine.Source)
    : option (list RAGEngine.Source) :=
  match sources with
  | [] => None
  | _ :: _ => Some sources
  end.

(** [POST /chat].  The session id is fixed before the [try] block. *)
Definition chat (request : ChatRequest.t) : Handler ChatResponse.t :=
  fun w =>
    match session_id_of request w with
    | (inl e, w') =>
        (inl {| status_code := 500; detail := exn_str e |}, w')
    | (inr session_id, w1) =>
        or_500 "답변 생성 실패: "
          (if ChatRequest.use_rag request then
             let* rag_result :=
               RAGEngine.generate_answer X rag_engine
                 (ChatRequest.message request)
                 (ChatRequest.organization_id request)
                 (ChatRequest.user_id request)
                 RAGEngine.default_limit in
             let sources :=
               map (fun src =>
                      {| RAGEngine.src_text := RAGEngine.src_text src;
                         RAGEngine.src_score := RAGEngine.src_score src;
                         RAGEngine.src_metadata := RAGEngine.src_metadata src |})
                 (RAGEngine.sources rag_result) in
             let* w2 := get_world in
             ret {| ChatResponse.session_id := session_id;
                    ChatResponse.message := RAGEngine.answer rag_result;
                    ChatResponse.sources := sources_or_none sources;
                    ChatResponse.suggestions := Some rag_suggestions;
                    ChatResponse.timestamp := utcnow w2 |}
           else
             let messages :=
               [ {| role := "system"; content := general_system_prompt |};
                 {| role := "user"; content := ChatRequest.message request |} ] in
             let* response_text :=
               OpenAIClient.generate X openai_client messages None None in
             let* w2 := get_world in
             ret {| ChatResponse.session_id := session_id;
                    ChatResponse.message := response_text;
                    ChatResponse.sources := None;
                    ChatResponse.suggestions := Some general_suggestions;
                    ChatResponse.timestamp := utcnow w2 |})
          w1
    end.
End Routes.
End Chat.

(** * Further vocabulary *)

(** Results ordered best first: each one scores at least as high as every
    later one. *)
Definition ranked (results : list SearchResult) : Prop :=
  StronglySorted (fun a b => (sr_score b <= sr_score a)%Q) results.

(** [results] render hits that all belong to the user [u]. *)
Definition answers_for_user (w : World) (b : RAGEngine.store) (u : string)
    (results : list SearchResult) : Prop :=
  match b with
  | RAGEngine.OpenSearch s =>
      exists hits : list Hit,
        results = map OpenSearchStore.result_of_hit hits
        /\ Forall (fun h =>
             stored_doc w (OpenSearchStore.index_name s) (hit_id h) (hit_source h)
             /\ doc_user_id (hit_source h) = Some u) hits
  | RAGEngine.Qdrant s =>
      exists points : list ScoredPoint,
        results = map QdrantStore.result_of_point points
        /\ Forall (fun sp =>
             exists p, stored_point w (QdrantStore.collection_name s) p
               /\ sp_id sp = pt_id p
               /\ sp_payload sp = pt_payload p
               /\ u ∈ payload_keyword "user_id" (pt_payload p)) points
  end.

(** The stored data is as it was (up to an empty index or collection
    created by a peer) and no document id was drawn. *)
Definition undisturbed (w w' : World) : Prop :=
  grown w w' /\ uuid_counter w' = uuid_counter w.

(** A computation that, whatever it returns or raises, leaves the world
    [undisturbed]. *)
Definition read_only {A} (m : M A) : Prop :=
  forall w, undisturbed w (snd (m w)).

(** The stored OpenSearch world after a fourth document, of [org_3], was
    added. *)
Definition release_notes_world : World :=
  after (OpenSearchStore.add_document demo demo_index "Release notes of Project C"
           {[ "title" := VStr "notes" ]} "org_3" None (Some ["projectC"]))
    opensearch_world.

(** The payload that [QdrantStore.add_document] writes. *)
Definition payload_of (text : string) (metadata : gmap string pyval)
    (organization_id : string) (user_id : option string) : gmap string pyval :=
  let payload :=
    <["text" := VStr text]> (<["organization_id" := VStr organization_id]> metadata) in
  match user_id with
  | Some u => if truthy_str user_id then <["user_id" := VStr u]> payload else payload
  | None => payload
  end.

(** The stored Qdrant world after a fourth document was added, with
    metadata that names a reserved key. *)
Definition shadowed_metadata : gmap string pyval :=
  <["user_id" := VStr "someone"]> {[ "title" := VStr "notes" ]}.

Definition deadline_notes_world : World :=
  after (QdrantStore.add_document demo demo_collection "Project C deadline is Feb 1"
           shadowed_metadata "org_3" (Some "user_9"))
    qdrant_world.

(** The messages that [generate_answer] sends to the chat model for the
    retrieved [results]. *)
Definition prompt_messages (query : string) (results : list SearchResult) : list Message :=
  match results with
  | [] => RAGEngine.no_context_messages query
  | _ :: _ =>
      [ {| role := "system"; content := RAGEngine._get_system_prompt |};
        {| role := "user";
           content := RAGEngine._build_user_prompt (RAGEngine._build_context results) query |} ]
  end.

(** The ids held by the store of an engine. *)
Definition store_ids (w : World) (b : RAGEngine.store) : list string :=
  match b with
  | RAGEngine.OpenSearch s => doc_ids w (OpenSearchStore.index_name s)
  | RAGEngine.Qdrant s => point_ids w (QdrantStore.collection_name s)
  end.

(** [ids] without [id]. *)
Definition without (id : string) (ids : list string) : list string :=
  List.filter (fun i => negb (String.eqb i id)) ids.

(** The messages of the general mode of the chat route. *)
Definition general_messages (message : string) : list Message :=
  [ {| role := "system"; content := Chat.general_system_prompt |};
    {| role := "user"; content := message |} ].

(** Every character is a hexadecimal digit. *)
Fixpoint all_hex (s : string) : bool :=
  match s with
  | EmptyString => true
  | String c rest => is_hex c && all_hex rest
  end.

(** A chat request of [org_1] in retrieval mode, without a session id. *)
Definition deadline_question : ChatRequest.t :=
  {| ChatRequest.message := "deadline";
     ChatRequest.organization_id := "org_1";
     ChatRequest.user_id := None;
     ChatRequest.session_id := None;
     ChatRequest.use_rag := true |}.

(** The documents of an index and the points of a collection; none when
    it does not exist. *)
Definition index_docs (w : World) (index : string) : list (string * Document) :=
  match indices w !! index with
  | Some ix => ix_docs ix
  | None => []
  end.

Definition collection_points (w : World) (name : string) : list PointStruct :=
  match collections w !! name with
  | Some c => col_points c
  | None => []
  end.

(** * Hybrid search: ranking vocabulary *)

(** The hits of a search body in ranked order, before the [size] cutoff. *)
Definition ranked_matches (X : Externals) (docs : list (string * Document))
    (body : search_body) : list Hit :=
  rank hit_score (map (to_hit X docs (query_of body)) (eligible X docs body)).

(** The eligible documents whose hit scores at least as high as the hit of
    [p] ([p] itself included). *)
Definition at_least_as_good (X : Externals) (docs : list (string * Document))
    (body : search_body) (p : string * Document) : list (string * Document) :=
  List.filter
    (fun d => Qle_bool (query_score X docs (query_of body) p)
                (query_score X docs (query_of body) d))
    (eligible X docs body).

(** Services in which a keyword match weighs more than vector similarity. *)
Definition lexical : Externals :=
  {| embedding_model := embedding_model demo;
     chat_model := chat_model demo;
     uuid4 := uuid4 demo;
     analyzer_match := analyzer_match demo;
     bm25 := fun _ _ => 5%Q;
     keyword_score := keyword_score demo;
     cosinesimil := cosinesimil demo;
     store_size_in_bytes := store_size_in_bytes demo;
     valid_point_id := valid_point_id demo;
     vectors_count_of := vectors_count_of demo;
     indexed_vectors_count_of := indexed_vectors_count_of demo |}.

Definition text_calendar : string := "Holiday calendar".
Definition text_menu : string := "Lunch menu".
Definition text_handover : string := "The deadline is set by the owner".

(** An index of [org_1] with two documents whose vectors are the nearest
    to the query [owner] and a third one, farther away, that contains the
    word. *)
Definition handbook_world : World :=
  after (OpenSearchStore.add_document lexical demo_index text_handover ∅ "org_1" None None)
    (after (OpenSearchStore.add_document lexical demo_index text_menu ∅ "org_1" None None)
       (after (OpenSearchStore.add_document lexical demo_index text_calendar ∅ "org_1"
                 None None)
          (after (OpenSearchStore._ensure_index demo_index) empty_world))).

(** The third document of [handbook_world], as it is stored. *)
Definition handover_doc : string * Document :=
  ("00000000-0000-4000-8000-000000000002",
   {| doc_text := text_handover;
      doc_embedding := [1%Q; 0%Q];
      doc_organization_id := "org_1";
      doc_metadata := ∅;
      doc_created_at := "2024-12-01T00:00:00";
      doc_user_id := None;
      doc_tags := None |}).

(** The stored Qdrant world after a document was added without a user id
    and with metadata that names one. *)
Definition borrowed_user_metadata : gmap string pyval :=
  {[ "user_id" := VStr "user_1" ]}.

Definition borrowed_user_world : World :=
  after (QdrantStore.add_document demo demo_collection "Project D deadline is Mar 1"
           borrowed_user_metadata "org_1" None)
    qdrant_world.

(** * Reasoning about store computations *)

Lemma bind_inr {A B} (m : M A) (k : A -> M B) w b w' :
  bind m k w = (inr b, w') ->
  exists a w1, m w = (inr a, w1) /\ k a w1 = (inr b, w').
Proof.
  unfold bind. destruct (m w) as [[e|a] w1]; intros H; [discriminate|eauto].
Qed.

Lemma bind_inl {A B} (m : M A) (k : A -> M B) w e w' :
  bind m k w = (inl e, w') ->
  m w = (inl e, w') \/ exists a w1, m w = (inr a, w1) /\ k a w1 = (inl e, w').
Proof.
  unfold bind. destruct (m w) as [[e1|a] w1]; intros H; [left; congruence|eauto].
Qed.

Lemma try_except_reraise {A} (m : M A) w : try_except m raise w = m w.
Proof. unfold try_except, raise. by destruct (m w) as [[e|a] w1]. Qed.

Lemma fold_left_snoc_map {A B} (f : A -> B) (l : list A) (acc : list B) :
  fold_left (fun results x => results ++ [f x]) l acc = acc ++ map f l.
Proof.
  revert acc. induction l as [|x l IH]; intros acc; simpl.
  - by rewrite app_nil_r.
  - by rewrite IH, <- app_assoc.
Qed.

Lemma mem_str_elem_of s l : mem_str s l = true <-> s ∈ l.
Proof.
  unfold mem_str. rewrite existsb_exists. split.
  - intros (x & Hx & Heq). apply String.eqb_eq in Heq. subst.
    by apply list_elem_of_In.
  - intros Hin. exists s. split; [by apply list_elem_of_In|apply String.eqb_refl].
Qed.

Lemma elem_of_rank {A} (score : A -> Q) (x : A) l : x ∈ rank score l <-> x ∈ l.
Proof. unfold rank. by rewrite merge_sort_Permutation. Qed.

Lemma elem_of_take_rank {A} (score : A -> Q) (x : A) n l :
  x ∈ take n (rank score l) -> x ∈ l.
Proof. intros H. apply (elem_of_rank score). eapply subseteq_take, H. Qed.

Lemma elem_of_List_filter {A} (f : A -> bool) (x : A) l :
  x ∈ List.filter f l <-> x ∈ l /\ f x = true.
Proof. rewrite !list_elem_of_In. apply filter_In. Qed.


Lemma grown_refl w : grown w w.
Proof. split; intros; by left. Qed.

Lemma grown_trans w1 w2 w3 : grown w1 w2 -> grown w2 w3 -> grown w1 w3.
Proof.
  intros [Hi Hc] [Hi' Hc']. split; intros n.
  - destruct (Hi' n) as [E'|[E' [d E2]]], (Hi n) as [E|[E [d0 E0]]].
    + left. congruence.
    + right. split; [done|]. exists d0. congruence.
    + right. split; [congruence|]. by exists d.
    + congruence.
  - destruct (Hc' n) as [E'|[E' [d E2]]], (Hc n) as [E|[E [d0 E0]]].
    + left. congruence.
    + right. split; [done|]. exists d0. congruence.
    + right. split; [congruence|]. by exists d.
    + congruence.
Qed.

Lemma external_grown c w r w1 : external c w = (r, w1) -> grown w w1.
Proof.
  unfold external. simpl. destruct (schedule w) as [|ev rest].
  - intros [= <- <-]. split; intros k; by left.
  - destruct ev as [|e|index d|name n]; intros [= <- <-];
      split; intros k; simpl; try (by left).
    + unfold peer_index. destruct (indices w !! index) eqn:E; [by left|].
      destruct (decide (index = k)) as [->|Hne].
      * right. split; [done|]. exists d. by rewrite lookup_insert_eq.
      * left. by rewrite lookup_insert_ne.
    + unfold peer_collection. destruct (collections w !! name) eqn:E; [by left|].
      destruct (decide (name = k)) as [->|Hne].
      * right. split; [done|]. exists n. by rewrite lookup_insert_eq.
      * left. by rewrite lookup_insert_ne.
Qed.

Lemma grown_stored_doc w w1 index id d :
  grown w w1 -> stored_doc w1 index id d -> stored_doc w index id d.
Proof.
  intros [Hi _] (ix & Hix & Hin). destruct (Hi index) as [E|[_ [n E]]].
  - exists ix. split; [congruence|done].
  - rewrite Hix in E. injection E as ->. simpl in Hin. by apply elem_of_nil in Hin.
Qed.

Lemma grown_stored_point w w1 name p :
  grown w w1 -> stored_point w1 name p -> stored_point w name p.
Proof.
  intros [_ Hc] (c & Hcx & Hin). destruct (Hc name) as [E|[_ [n E]]].
  - exists c. split; [congruence|done].
  - rewrite Hcx in E. injection E as ->. simpl in Hin. by apply elem_of_nil in Hin.
Qed.

Lemma embeddings_create_inr X input model w v w1 :
  embeddings_create X input model w = (inr v, w1) ->
  v = embedding_model X input /\ grown w w1.
Proof.
  unfold embeddings_create. intros H.
  apply bind_inr in H as ([] & w2 & Hext & Hret).
  injection Hret as <- <-. split; [done|]. by eapply external_grown.
Qed.

Lemma run_search_inv X docs body (hit : Hit) :
  hit ∈ run_search X docs body ->
  exists p, p ∈ docs
    /\ query_matches X docs (query_of body) p = true
    /\ hit = to_hit X docs (query_of body) p.
Proof.
  unfold run_search. intros H. apply elem_of_take_rank in H.
  apply list_elem_of_fmap in H as (p & -> & Hp).
  apply elem_of_List_filter in Hp as [Hp Hm]. eauto.
Qed.

Lemma client_search_inr X index body w hits w1 :
  client_search X index body w = (inr hits, w1) ->
  grown w w1
  /\ exists ix, indices w1 !! index = Some ix
       /\ hits = run_search X (ix_docs ix) body.
Proof.
  unfold client_search. intros H.
  apply bind_inr in H as ([] & w2 & Hext & H).
  apply bind_inr in H as (w3 & w4 & Hget & H).
  injection Hget as <- <-.
  destruct (indices w2 !! index) as [ix|] eqn:Hix; [|discriminate].
  injection H as <- <-. split; [by eapply external_grown|eauto].
Qed.

Lemma query_points_inr X name query limit must thr w pts w1 :
  query_points X name query limit must thr w = (inr pts, w1) ->
  grown w w1
  /\ exists c, collections w1 !! name = Some c
       /\ pts = run_query_points X (col_points c) query limit must thr.
Proof.
  unfold query_points. intros H.
  destruct (limit =? 0); [discriminate H|].
  apply bind_inr in H as ([] & w2 & Hext & H).
  apply bind_inr in H as (w3 & w4 & Hget & H).
  injection Hget as <- <-.
  destruct (collections w2 !! name) as [c|] eqn:Hc; [|discriminate].
  injection H as <- <-. split; [by eapply external_grown|eauto].
Qed.

Lemma run_query_points_inv X points query limit must thr (sp : ScoredPoint) :
  sp ∈ run_query_points X points query limit must thr ->
  exists p, p ∈ points
    /\ forallb (condition_holds (pt_payload p)) must = true
    /\ above thr (sp_score sp) = true
    /\ sp = scored X query p.
Proof.
  unfold run_query_points. intros H. apply elem_of_take_rank in H.
  apply elem_of_List_filter in H as [H Hthr].
  apply list_elem_of_fmap in H as (p & -> & Hp).
  apply elem_of_List_filter in Hp as [Hp Hm]. eauto.
Qed.

(** What a successful [OpenSearchStore.search] returns. *)
Lemma opensearch_search_inr X self q org user tags limit hybrid w results w' :
  OpenSearchStore.search X self q org user tags limit hybrid w = (inr results, w') ->
  grown w w'
  /\ exists ix, indices w' !! OpenSearchStore.index_name self = Some ix
       /\ results =
            map OpenSearchStore.result_of_hit
              (run_search X (ix_docs ix)
                 (OpenSearchStore.make_search_body hybrid q (embedding_model X q)
                    (OpenSearchStore.filter_conditions org user tags) limit)).
Proof.
  unfold OpenSearchStore.search. rewrite try_except_reraise. intros H.
  apply bind_inr in H as (v & w1 & Hemb & H).
  unfold OpenSearchStore._create_embedding in Hemb.
  rewrite try_except_reraise in Hemb.
  apply embeddings_create_inr in Hemb as [-> Hg1].
  apply bind_inr in H as (hits & w2 & Hs & H).
  apply client_search_inr in Hs as (Hg2 & ix & Hix & ->).
  injection H as <- <-. rewrite fold_left_snoc_map. simpl.
  split; [by eapply grown_trans|eauto].
Qed.

(** What a successful [QdrantStore.search] returns. *)
Lemma qdrant_search_inr X self q org user limit thr w results w' :
  QdrantStore.search X self q org user limit thr w = (inr results, w') ->
  grown w w'
  /\ exists c, collections w' !! QdrantStore.collection_name self = Some c
       /\ results =
            map QdrantStore.result_of_point
              (run_query_points X (col_points c) (embedding_model X q) limit
                 (QdrantStore.filter_conditions org user) thr).
Proof.
  unfold QdrantStore.search. rewrite try_except_reraise. intros H.
  apply bind_inr in H as (v & w1 & Hemb & H).
  unfold QdrantStore._create_embedding in Hemb.
  rewrite try_except_reraise in Hemb.
  apply embeddings_create_inr in Hemb as [-> Hg1].
  apply bind_inr in H as (pts & w2 & Hs & H).
  apply query_points_inr in Hs as (Hg2 & c & Hc & ->).
  injection H as <- <-. rewrite fold_left_snoc_map. simpl.
  split; [by eapply grown_trans|eauto].
Qed.

(** The organisation term is a [must] clause of both query shapes. *)
Lemma search_body_must_org hybrid q v org user tags limit docs X p :
  query_matches X docs
    (query_of (OpenSearchStore.make_search_body hybrid q v
                 (OpenSearchStore.filter_conditions org user tags) limit)) p = true ->
  doc_organization_id (snd p) = org.
Proof.
  destruct hybrid; simpl; intros H;
    apply andb_prop in H as [H _]; apply andb_prop in H as [H _];
    rewrite orb_false_r in H; apply String.eqb_eq in H; done.
Qed.

Lemma payload_keyword_str k payload o :
  payload !! k = Some (VStr o) -> payload_keyword k payload = [o].
Proof. unfold payload_keyword. by intros ->. Qed.

Lemma qdrant_filter_org org user payload :
  forallb (condition_holds payload) (QdrantStore.filter_conditions org user) = true ->
  org ∈ payload_keyword "organization_id" payload.
Proof.
  unfold QdrantStore.filter_conditions. simpl. intros H.
  apply andb_prop in H as [H _]. unfold condition_holds in H. simpl in H.
  by apply mem_str_elem_of.
Qed.

(** C1. A search issued for organisation [A], on either back end, returns
    only renderings of documents that were stored under [A]: the hits all
    lie in the store as it was before the call and each carries
    [organization_id = A], whatever the query, the user, the tags, the
    limit, the search mode, the threshold and the relevance functions. *)
Theorem tenant_isolation X b q A user tags limit hybrid thr w results w' :
  backend_well_formed w b ->
  store_search X b q A user tags limit hybrid thr w = (inr results, w') ->
  answers_from w b A results.
Proof.
  destruct b as [s|s]; simpl; intros Hwf Hsearch.
  - apply opensearch_search_inr in Hsearch as (Hg & ix & Hix & ->).
    eexists. split; [reflexivity|].
    apply Forall_forall. intros h Hh.
    apply run_search_inv in Hh as ([id d] & Hin & Hm & ->). simpl.
    split.
    + eapply grown_stored_doc; [exact Hg|]. exists ix. by split.
    + by apply search_body_must_org in Hm.
  - apply qdrant_search_inr in Hsearch as (Hg & c & Hc & ->).
    eexists. split; [reflexivity|].
    apply Forall_forall. intros sp Hsp.
    apply run_query_points_inv in Hsp as (p & Hin & Hm & _ & ->). simpl.
    assert (Hst : stored_point w (QdrantStore.collection_name s) p).
    { eapply grown_stored_point; [exact Hg|]. exists c. by split. }
    exists p. repeat split; try done.
    destruct (Hwf p Hst) as [o Ho]. rewrite Ho. do 2 f_equal.
    apply qdrant_filter_org in Hm.
    rewrite (payload_keyword_str _ _ _ Ho) in Hm.
    by apply list_elem_of_singleton in Hm.
Qed.

(** The stored Qdrant world is single-tenant per point. *)
Lemma qdrant_world_single_tenant : single_tenant_payloads qdrant_world "documents".
Proof.
  intros p (c & Hc & Hin). vm_compute in Hc. injection Hc as <-.
  apply list_elem_of_In in Hin. simpl in Hin.
  destruct Hin as [<-|[<-|[<-|[]]]]; eexists; vm_compute; reflexivity.
Qed.

(** The theorem at the two stored worlds: a search for [org_1] over three
    documents, one of them of [org_2]. *)
Lemma tenant_isolation_witness :
  (exists results w',
      store_search demo (RAGEngine.OpenSearch demo_index) "deadline" "org_1"
        None None 5 true (3 # 10) opensearch_world = (inr results, w')
      /\ results <> []
      /\ answers_from opensearch_world (RAGEngine.OpenSearch demo_index) "org_1" results)
  /\ (exists results w',
      store_search demo (RAGEngine.Qdrant demo_collection) "deadline" "org_1"
        None None 5 true (3 # 10) qdrant_world = (inr results, w')
      /\ results <> []
      /\ answers_from qdrant_world (RAGEngine.Qdrant demo_collection) "org_1" results).
Proof.
  split.
  - eexists _, _.
    assert (E : store_search demo (RAGEngine.OpenSearch demo_index) "deadline" "org_1"
                  None None 5 true (3 # 10) opensearch_world = (inr _, _))
      by (vm_compute; reflexivity).
    split; [exact E|]. split; [discriminate|].
    exact (tenant_isolation demo (RAGEngine.OpenSearch demo_index)
             _ _ _ _ _ _ _ _ _ _ I E).
  - eexists _, _.
    assert (E : store_search demo (RAGEngine.Qdrant demo_collection) "deadline" "org_1"
                  None None 5 true (3 # 10) qdrant_world = (inr _, _))
      by (vm_compute; reflexivity).
    split; [exact E|]. split; [discriminate|].
    exact (tenant_isolation demo (RAGEngine.Qdrant demo_collection)
             _ _ _ _ _ _ _ _ _ _ qdrant_world_single_tenant E).
Defined.

(** * What [add_document] stores *)

Lemma bind_any {A B} (m : M A) (k : A -> M B) w r w' :
  bind m k w = (r, w') ->
  (exists e, m w = (inl e, w') /\ r = inl e)
  \/ exists a w1, m w = (inr a, w1) /\ k a w1 = (r, w').
Proof.
  unfold bind. destruct (m w) as [[e|a] w1]; intros H.
  - left. exists e. by injection H as <- <-.
  - right. eauto.
Qed.

Lemma grown_single_tenant w w1 name :
  grown w w1 -> single_tenant_payloads w name -> single_tenant_payloads w1 name.
Proof. intros Hg Hw p Hp. apply Hw. by eapply grown_stored_point. Qed.

Lemma upsert_single_tenant X name point w r w' name' :
  (exists o, pt_payload point !! "organization_id" = Some (VStr o)) ->
  single_tenant_payloads w name' ->
  upsert X name point w = (r, w') ->
  single_tenant_payloads w' name'.
Proof.
  intros Ho Hw H. unfold upsert in H.
  apply bind_any in H as [(e & He & ->)|([] & w1 & Hext & H)].
  { eapply grown_single_tenant; [by eapply external_grown|done]. }
  apply external_grown in Hext. pose proof (grown_single_tenant _ _ _ Hext Hw) as Hw1.
  apply bind_any in H as [(e & He & ->)|(w2 & w3 & Hget & H)]; [discriminate He|].
  injection Hget as <- <-.
  destruct (collections w1 !! name) as [c|] eqn:Hc; [|by injection H as <- <-].
  destruct (valid_point_id X (pt_id point)); [|by injection H as <- <-].
  injection H as <- <-.
  intros p (c' & Hc' & Hin). simpl in Hc'.
  destruct (decide (name = name')) as [->|Hne].
  - rewrite lookup_insert_eq in Hc'. injection Hc' as <-. simpl in Hin.
    apply elem_of_app in Hin as [Hin|Hin].
    + apply Hw1. exists c. split; [done|].
      unfold drop_points in Hin. by apply elem_of_List_filter in Hin as [Hin _].
    + apply list_elem_of_singleton in Hin. by subst p.
  - rewrite lookup_insert_ne in Hc' by done. apply Hw1. by exists c'.
Qed.

(** X23. [QdrantStore.add_document] keeps every collection single-tenant
    per point, whether it returns or raises: the organisation id it writes
    is the string it was given, whatever the metadata contains, so a
    metadata key [organization_id] cannot move a document to another
    tenant. *)
Theorem qdrant_add_document_single_tenant X self text md org user w r w' name :
  single_tenant_payloads w name ->
  QdrantStore.add_document X self text md org user w = (r, w') ->
  single_tenant_payloads w' name.
Proof.
  intros Hw H. unfold QdrantStore.add_document in H.
  rewrite try_except_reraise in H.
  apply bind_any in H as [(e & He & ->)|(v & w1 & Hemb & H)].
  { unfold QdrantStore._create_embedding in He. rewrite try_except_reraise in He.
    unfold embeddings_create in He.
    apply bind_any in He as [(e' & He & _)|([] & w1 & _ & He)]; [|discriminate He].
    eapply grown_single_tenant; [by eapply external_grown|done]. }
  unfold QdrantStore._create_embedding in Hemb. rewrite try_except_reraise in Hemb.
  apply embeddings_create_inr in Hemb as [-> Hg].
  pose proof (grown_single_tenant _ _ _ Hg Hw) as Hw1.
  apply bind_any in H as [(e & He & ->)|(doc_id & w2 & Hid & H)]; [discriminate He|].
  injection Hid as <- <-.
  apply bind_any in H as [(e & He & ->)|([] & w3 & Hup & H)].
  - eapply upsert_single_tenant; [| |exact He].
    + simpl. exists org.
      destruct user as [u|]; [destruct (truthy_str (Some u))|];
        by simplify_map_eq.
    + intros p Hp. by apply Hw1.
  - injection H as <- <-. eapply upsert_single_tenant; [| |exact Hup].
    + simpl. exists org.
      destruct user as [u|]; [destruct (truthy_str (Some u))|];
        by simplify_map_eq.
    + intros p Hp. by apply Hw1.
Qed.

(** Metadata that names the tenant key: the stored point still belongs to
    the organisation of the call. *)
Lemma qdrant_add_document_single_tenant_witness :
  exists r w',
    QdrantStore.add_document demo demo_collection text_other
      {[ "organization_id" := VStr "org_1" ]} "org_2" None qdrant_world = (r, w')
    /\ single_tenant_payloads w' "documents".
Proof.
  eexists _, _.
  assert (E : QdrantStore.add_document demo demo_collection text_other
                {[ "organization_id" := VStr "org_1" ]} "org_2" None qdrant_world
              = (inr "00000000-0000-4000-8000-000000000003",
                 after (QdrantStore.add_document demo demo_collection text_other
                          {[ "organization_id" := VStr "org_1" ]} "org_2" None)
                   qdrant_world))
    by (vm_compute; reflexivity).
  refine (conj E _).
  exact (qdrant_add_document_single_tenant demo demo_collection _ _ _ _ _ _ _
           "documents" qdrant_world_single_tenant E).
Defined.

(** A document added for organisation [org] is stored with that
    organisation id and its text, on both stores. *)
Lemma add_document_records_organization X os qd text md org user tags w id w' :
  (OpenSearchStore.add_document X os text md org user tags w = (inr id, w') ->
   exists d, stored_doc w' (OpenSearchStore.index_name os) id d
     /\ doc_organization_id d = org /\ doc_text d = text)
  /\ (QdrantStore.add_document X qd text md org user w = (inr id, w') ->
      exists p, stored_point w' (QdrantStore.collection_name qd) p
        /\ pt_id p = id
        /\ pt_payload p !! "organization_id" = Some (VStr org)
        /\ pt_payload p !! "text" = Some (VStr text)).
Proof.
  split; intros H.
  - unfold OpenSearchStore.add_document in H. rewrite try_except_reraise in H.
    apply bind_inr in H as (v & w1 & _ & H).
    apply bind_inr in H as (doc_id & w2 & Hid & H). injection Hid as <- <-.
    apply bind_inr in H as (w3 & w4 & Hget & H). injection Hget as <- <-.
    apply bind_inr in H as ([] & w5 & Hidx & H). injection H as <- <-.
    unfold client_index in Hidx.
    apply bind_inr in Hidx as ([] & w6 & _ & Hmod). injection Hmod as <-.
    eexists. split.
    { eexists. split; [simpl; apply lookup_insert_eq|]. simpl.
      apply elem_of_app. right. by apply list_elem_of_singleton. }
    split; reflexivity.
  - unfold QdrantStore.add_document in H. rewrite try_except_reraise in H.
    apply bind_inr in H as (v & w1 & _ & H).
    apply bind_inr in H as (doc_id & w2 & Hid & H). injection Hid as <- <-.
    apply bind_inr in H as ([] & w5 & Hup & H). injection H as <- <-.
    unfold upsert in Hup.
    apply bind_inr in Hup as ([] & w6 & _ & Hup).
    apply bind_inr in Hup as (w7 & w8 & Hget & Hup). injection Hget as <- <-.
    destruct (collections w6 !! QdrantStore.collection_name qd) as [c|]; [|discriminate].
    destruct (valid_point_id X _); [|discriminate].
    injection Hup as <-.
    eexists. split.
    { eexists. split; [simpl; apply lookup_insert_eq|]. simpl.
      apply elem_of_app. right. by apply list_elem_of_singleton. }
    split; [reflexivity|].
    simpl. destruct user as [u|]; [destruct (truthy_str (Some u))|];
      split; by simplify_map_eq.
Qed.

(** * Hybrid search *)

Lemma grown_index_kept w w1 name ix :
  grown w w1 -> indices w !! name = Some ix -> indices w1 !! name = Some ix.
Proof.
  intros [Hi _] H. destruct (Hi name) as [E|[E _]]; congruence.
Qed.

Lemma grown_collection_kept w w1 name c :
  grown w w1 -> collections w !! name = Some c -> collections w1 !! name = Some c.
Proof.
  intros [_ Hc] H. destruct (Hc name) as [E|[E _]]; congruence.
Qed.

Lemma take_rank_all {A} (score : A -> Q) (l : list A) n :
  length l <= n -> take n (rank score l) = rank score l.
Proof.
  intros H. apply take_ge. unfold rank.
  by rewrite (Permutation_length (merge_sort_Permutation _ l)).
Qed.

Lemma best_first_total {A} (score : A -> Q) : Total (best_first score).
Proof.
  intros x y. unfold best_first. rewrite !Qle_bool_iff.
  destruct (Qlt_le_dec (score x) (score y)) as [H|H]; [right|left]; [|done].
  by apply Qlt_le_weak.
Qed.

Lemma best_first_transitive {A} (score : A -> Q) : Transitive (best_first score).
Proof.
  intros x y z. unfold best_first. rewrite !Qle_bool_iff.
  intros H1 H2. by eapply Qle_trans.
Qed.

Lemma List_filter_length_Permutation {A} (f : A -> bool) l l' :
  l ≡ₚ l' -> length (List.filter f l) = length (List.filter f l').
Proof.
  induction 1 as [|x l l' _ IH|x y l|l l' l'' _ IH1 _ IH2]; cbn.
  - done.
  - destruct (f x); cbn; by rewrite IH.
  - by destruct (f x), (f y).
  - congruence.
Qed.

Lemma List_filter_all {A} (f : A -> bool) l :
  (forall x, x ∈ l -> f x = true) -> List.filter f l = l.
Proof.
  induction l as [|a l IH]; [done|]. intros H. cbn.
  rewrite (H a) by apply list_elem_of_here.
  rewrite IH; [done|]. intros x Hx. apply H. by apply list_elem_of_further.
Qed.

Lemma List_filter_map {A B} (g : A -> B) (f : B -> bool) l :
  List.filter f (map g l) = map g (List.filter (fun a => f (g a)) l).
Proof.
  induction l as [|a l IH]; [done|]. cbn. destruct (f (g a)); cbn; by rewrite IH.
Qed.

(** An item stays under a cut of the ranked list when the items that score
    at least as high as it, itself included, fit under the cut. *)
Lemma elem_of_take_rank_top {A} (score : A -> Q) n (l : list A) x :
  x ∈ l ->
  length (List.filter (fun y => Qle_bool (score x) (score y)) l) <= n ->
  x ∈ take n (rank score l).
Proof.
  intros Hx Hn.
  assert (Hs : StronglySorted (best_first score) (rank score l)).
  { pose proof (best_first_total score). pose proof (best_first_transitive score).
    unfold rank. by apply StronglySorted_merge_sort. }
  assert (Hp : rank score l ≡ₚ l) by (unfold rank; apply merge_sort_Permutation).
  rewrite <- (List_filter_length_Permutation _ _ _ Hp) in Hn.
  apply (elem_of_rank score) in Hx.
  apply list_elem_of_split in Hx as (l1 & l2 & E). rewrite E in Hs, Hn |- *.
  assert (Hl1 : List.filter (fun y => Qle_bool (score x) (score y)) l1 = l1).
  { apply List_filter_all. intros y Hy.
    apply (StronglySorted_app_1_elem_of _ _ _ y x Hs Hy). apply list_elem_of_here. }
  rewrite List.filter_app, length_app, Hl1 in Hn. cbn in Hn.
  assert (Hxx : Qle_bool (score x) (score x) = true)
    by (apply Qle_bool_iff, Qle_refl).
  rewrite Hxx in Hn. cbn in Hn.
  apply (list_elem_of_lookup_2 _ (length l1)).
  rewrite lookup_take_lt by lia. by apply list_lookup_middle.
Qed.

(** A keyword match satisfies the [should] part of the hybrid query on
    its own: the vector clause is not consulted. *)
Lemma hybrid_keyword_eligible X docs q org user tags limit p :
  passes_filters X docs org user tags p = true ->
  analyzer_match X q (doc_text (snd p)) = true ->
  query_matches X docs (query_of (hybrid_body X q org user tags limit)) p = true.
Proof.
  unfold passes_filters, hybrid_body. intros Hf Hk.
  cbn [OpenSearchStore.make_search_body query_of query_matches required_should].
  rewrite Hf. cbn [List.filter query_matches]. rewrite Hk. simpl.
  reflexivity.
Qed.

(** C2, as amended.  In hybrid mode the keyword clause and the vector
    clause are alternatives ([should], [minimum_should_match = 1]) next to
    the mandatory filters, and the vector clause asks for [2 * limit]
    neighbours.  A stored document that passes the filters and matches the
    query by keyword is therefore eligible whatever its embedding is.  The
    results are the first [limit] of the eligible documents in ranked
    order, [limit] being the [size] of the request; so the document is
    among the returned results whenever the eligible documents that score
    at least as high as it does, itself included, number at most
    [limit]. *)
Theorem hybrid_keyword_match_eligible X self q org user tags limit w results w' ix p :
  OpenSearchStore.search X self q org user tags limit true w = (inr results, w') ->
  indices w !! OpenSearchStore.index_name self = Some ix ->
  p ∈ ix_docs ix ->
  passes_filters X (ix_docs ix) org user tags p = true ->
  analyzer_match X q (doc_text (snd p)) = true ->
  query_of (hybrid_body X q org user tags limit)
    = q_bool (OpenSearchStore.filter_conditions org user tags)
        [q_match "text" q 1; q_knn "embedding" (embedding_model X q) (limit * 2)]
        (Some 1)
  /\ p ∈ eligible X (ix_docs ix) (hybrid_body X q org user tags limit)
  /\ results
     = map OpenSearchStore.result_of_hit
         (take limit
            (ranked_matches X (ix_docs ix) (hybrid_body X q org user tags limit)))
  /\ length results <= limit
  /\ (length (at_least_as_good X (ix_docs ix) (hybrid_body X q org user tags limit) p)
      <= limit ->
      OpenSearchStore.result_of_hit
        (to_hit X (ix_docs ix) (query_of (hybrid_body X q org user tags limit)) p)
        ∈ results).
Proof.
  intros Hs Hix Hp Hf Hk.
  apply opensearch_search_inr in Hs as (Hg & ix' & Hix' & ->).
  rewrite (grown_index_kept _ _ _ _ Hg Hix) in Hix'. injection Hix' as <-.
  assert (He : p ∈ eligible X (ix_docs ix) (hybrid_body X q org user tags limit)).
  { unfold eligible. apply elem_of_List_filter. split; [done|].
    by apply hybrid_keyword_eligible. }
  split; [reflexivity|]. split; [exact He|]. split; [reflexivity|]. split.
  - rewrite length_map. unfold run_search. rewrite length_take. simpl. lia.
  - intros Hfit. apply list_elem_of_fmap. eexists. split; [reflexivity|].
    unfold run_search. fold (hybrid_body X q org user tags limit).
    fold (eligible X (ix_docs ix) (hybrid_body X q org user tags limit)).
    change (size (hybrid_body X q org user tags limit)) with limit.
    apply elem_of_take_rank_top.
    + apply list_elem_of_fmap. eauto.
    + rewrite List_filter_map, length_map. exact Hfit.
Qed.

(** With [limit = 1], three documents of [org_1] are eligible for the
    query [owner]: the two nearest vectors, which do not contain the word,
    and the hand-over note, which contains it and is not among the two
    nearest.  The note scores highest and is the one result. *)
Lemma hybrid_keyword_match_eligible_witness :
  exists results w' ix,
    OpenSearchStore.search lexical demo_index "owner" "org_1" None None 1 true
      handbook_world = (inr results, w')
    /\ indices handbook_world !! "ai_documents" = Some ix
    /\ OpenSearchStore.result_of_hit
         (to_hit lexical (ix_docs ix)
            (query_of (hybrid_body lexical "owner" "org_1" None None 1)) handover_doc)
         ∈ results
    /\ length (eligible lexical (ix_docs ix)
                 (hybrid_body lexical "owner" "org_1" None None 1)) = 3
    /\ mem_str (fst handover_doc)
         (knn_ids lexical (ix_docs ix) (embedding_model lexical "owner") 2) = false.
Proof.
  eexists _, _, _.
  assert (E : OpenSearchStore.search lexical demo_index "owner" "org_1" None None 1 true
                handbook_world = (inr _, _)) by (vm_compute; reflexivity).
  eassert (Hix : indices handbook_world !! "ai_documents" = Some _)
    by (vm_compute; reflexivity).
  refine (conj E (conj Hix (conj _ (conj _ _)))).
  - refine (proj2 (proj2 (proj2 (proj2
      (hybrid_keyword_match_eligible lexical demo_index "owner" "org_1" None None 1
         handbook_world _ _ _ handover_doc E Hix _ _ _)))) _).
    + apply list_elem_of_In. right. right. left. vm_compute. reflexivity.
    + vm_compute. reflexivity.
    + vm_compute. reflexivity.
    + vm_compute. lia.
  - vm_compute. reflexivity.
  - vm_compute. reflexivity.
Defined.

(** C2, as stated, fails: with [limit = 1] two documents of [org_1] match
    the query by keyword, and the request is cut at one result. *)
Lemma keyword_match_cut_by_limit :
  ~ keyword_match_suffices demo demo_index "Project A" "org_1" None None 1
      opensearch_world.
Proof.
  intros H.
  assert (E : OpenSearchStore.search demo demo_index "Project A" "org_1" None None 1 true
                opensearch_world = (inr _, _)) by (vm_compute; reflexivity).
  eassert (Hix : indices opensearch_world !! "ai_documents" = Some _)
    by (vm_compute; reflexivity).
  destruct (H _ _ _ deadline_doc E Hix) as (r & Hr & Hid).
  - apply list_elem_of_In. left. vm_compute. reflexivity.
  - vm_compute. reflexivity.
  - vm_compute. reflexivity.
  - apply list_elem_of_In in Hr. simpl in Hr, Hid.
    destruct Hr as [<-|[]]. vm_compute in Hid. discriminate Hid.
Qed.

(** * Dense search *)

Lemma above_iff thr score : above thr score = true <-> (thr < score)%Q.
Proof.
  unfold above. rewrite negb_true_iff. split.
  - intros H. apply Qnot_le_lt. intros Hle. apply Qle_bool_iff in Hle. congruence.
  - intros H. destruct (Qle_bool score thr) eqn:E; [|done].
    apply Qle_bool_iff in E. by apply Qle_not_lt in E.
Qed.

(** C3. A search on the Qdrant store returns at most [limit] results, each
    with a score above [score_threshold], so none with a score below it;
    points that do not lie above the threshold are dropped before the cut,
    so that the number of results is the smaller of [limit] and the number
    of qualifying points. *)
Theorem dense_threshold_cutoff X self q org user limit thr w results w' :
  QdrantStore.search X self q org user limit thr w = (inr results, w') ->
  length results <= limit
  /\ Forall (fun r => (thr < sr_score r)%Q /\ (thr <= sr_score r)%Q) results
  /\ exists c, collections w' !! QdrantStore.collection_name self = Some c
       /\ length results =
            Nat.min limit
              (length (qualifying X (col_points c) (embedding_model X q)
                         (QdrantStore.filter_conditions org user) thr)).
Proof.
  intros Hs. apply qdrant_search_inr in Hs as (Hg & c & Hc & ->).
  assert (Hlen : length (map QdrantStore.result_of_point
                   (run_query_points X (col_points c) (embedding_model X q) limit
                      (QdrantStore.filter_conditions org user) thr))
                 = Nat.min limit
                     (length (qualifying X (col_points c) (embedding_model X q)
                                (QdrantStore.filter_conditions org user) thr))).
  { rewrite length_map. unfold run_query_points, qualifying.
    rewrite length_take. unfold rank.
    by rewrite (Permutation_length (merge_sort_Permutation _ _)). }
  split; [rewrite Hlen; lia|]. split.
  - apply Forall_forall. intros r Hr.
    apply list_elem_of_fmap in Hr as (sp & -> & Hsp).
    apply run_query_points_inv in Hsp as (p & _ & _ & Hthr & _).
    simpl. apply above_iff in Hthr. split; [exact Hthr|by apply Qlt_le_weak].
  - exists c. by split.
Qed.

(** One point of [org_1] lies above the threshold 0.3 for this query. *)
Lemma dense_threshold_cutoff_witness :
  exists results w',
    QdrantStore.search demo demo_collection "deadline" "org_1" None 5 (3 # 10)
      qdrant_world = (inr results, w')
    /\ length results = 1
    /\ Forall (fun r => (3 # 10 < sr_score r)%Q /\ (3 # 10 <= sr_score r)%Q) results.
Proof.
  eexists _, _.
  assert (E : QdrantStore.search demo demo_collection "deadline" "org_1" None 5 (3 # 10)
                qdrant_world = (inr _, _)) by (vm_compute; reflexivity).
  refine (conj E (conj eq_refl _)).
  exact (proj1 (proj2 (dense_threshold_cutoff demo demo_collection _ _ _ _ _ _ _ _ E))).
Defined.

(** C10. The metadata of a result of the Qdrant store has none of the keys
    [text], [organization_id] and [user_id]; it keeps every other key of
    the payload, and the payload text is the result's [text]. *)
Theorem dense_metadata_hides_tenant_keys X self q org user limit thr w results w' :
  QdrantStore.search X self q org user limit thr w = (inr results, w') ->
  Forall (fun r =>
            sr_metadata r !! "text" = None
            /\ sr_metadata r !! "organization_id" = None
            /\ sr_metadata r !! "user_id" = None
            /\ exists p, stored_point w (QdrantStore.collection_name self) p
                 /\ sr_text r = QdrantStore.payload_text (pt_payload p)
                 /\ forall k, k ∉ QdrantStore.hidden_keys ->
                      sr_metadata r !! k = pt_payload p !! k) results.
Proof.
  intros Hs. apply qdrant_search_inr in Hs as (Hg & c & Hc & ->).
  apply Forall_forall. intros r Hr.
  apply list_elem_of_fmap in Hr as (sp & -> & Hsp).
  apply run_query_points_inv in Hsp as (p & Hin & _ & _ & ->). simpl.
  assert (Hhid : forall k, k ∈ QdrantStore.hidden_keys ->
            filter (fun kv : string * pyval => fst kv ∉ QdrantStore.hidden_keys)
              (pt_payload p) !! k = None).
  { intros k Hk. apply map_lookup_filter_None. right. intros v _ Hn. by apply Hn. }
  repeat split; try (apply Hhid; unfold QdrantStore.hidden_keys; set_solver).
  exists p. split; [|split; [done|]].
  - eapply grown_stored_point; [exact Hg|]. exists c. by split.
  - intros k Hk. destruct (pt_payload p !! k) as [v|] eqn:Hv.
    + apply map_lookup_filter_Some. by split.
    + apply map_lookup_filter_None. by left.
Qed.

(** A point stored with a user id and a title. *)
Lemma dense_metadata_hides_tenant_keys_witness :
  exists results w',
    QdrantStore.search demo demo_collection "deadline" "org_1" (Some "user_1") 5 (3 # 10)
      qdrant_world = (inr results, w')
    /\ results <> []
    /\ Forall (fun r =>
                 sr_metadata r !! "text" = None
                 /\ sr_metadata r !! "organization_id" = None
                 /\ sr_metadata r !! "user_id" = None) results.
Proof.
  eexists _, _.
  assert (E : QdrantStore.search demo demo_collection "deadline" "org_1" (Some "user_1")
                5 (3 # 10) qdrant_world = (inr _, _)) by (vm_compute; reflexivity).
  split; [exact E|]. split; [discriminate|].
  eapply Forall_impl;
    [exact (dense_metadata_hides_tenant_keys demo demo_collection _ _ _ _ _ _ _ _ E)|].
  intros r (H1 & H2 & H3 & _). repeat split; assumption.
Defined.

(** * Context builder *)

Lemma build_context_loop (results : list SearchResult) i acc :
  fold_left
    (fun st result =>
       (S (fst st), snd st ++ [RAGEngine.context_block (fst st) result]))
    results (i, acc)
  = (i + length results,
     acc ++ imap (fun k r => RAGEngine.context_block (i + k) r) results).
Proof.
  revert i acc. induction results as [|r results IH]; intros i acc; simpl.
  - by rewrite Nat.add_0_r, app_nil_r.
  - rewrite IH. simpl. f_equal; [lia|].
    rewrite <- app_assoc. simpl. rewrite Nat.add_0_r. do 2 f_equal.
    apply imap_ext. intros k x _. simpl. f_equal. lia.
Qed.

Lemma context_block_labelled i r :
  RAGEngine.context_block i r = labelled_block "문서" "유사도" i r.
Proof. reflexivity. Qed.

(** C7, as amended.  [_build_context] depends on its argument only and
    returns the blocks
    [[문서 <index>] (유사도: <score with two decimals>)\n<text>] of the
    results, numbered from 1, joined by a blank line, in the input order. *)
Theorem build_context_format (results : list SearchResult) :
  RAGEngine._build_context results = format_blocks "문서" "유사도" results.
Proof.
  unfold RAGEngine._build_context, format_blocks.
  rewrite build_context_loop. simpl. f_equal.
Qed.

(** C7, as stated, fails: the labels of a block are not [Doc] and
    [score]. *)
Lemma build_context_labels_differ :
  RAGEngine._build_context [sample_result] <> format_blocks "Doc" "score" [sample_result].
Proof. vm_compute. intros H. discriminate H. Qed.

Example build_context_sample :
  RAGEngine._build_context [sample_result; sample_result]
  = ("[문서 1] (유사도: 0.92)" ++ nl ++ text_deadline ++ nl ++ nl
     ++ "[문서 2] (유사도: 0.92)" ++ nl ++ text_deadline)%string.
Proof. vm_compute. reflexivity. Qed.

(** * Orchestrator *)

Lemma external_reachable c w :
  reachable w ->
  exists w1, external c w = (inr tt, w1) /\ trace w1 = trace w ++ [c].
Proof.
  unfold reachable, external. simpl.
  destruct (schedule w) as [|[|e|index d|name n] rest]; intros H;
    try contradiction; eexists; split; reflexivity.
Qed.

(** C6. When retrieval comes back empty, [generate_answer] continues as
    [_generate_without_context]: it calls the chat model once, with the
    system message that asks to answer while telling the user that no
    related document was found (general information can be given) and the
    query as the user message; when that call is served, the operation
    returns the reply with an empty source list and the model name. *)
Theorem empty_retrieval_degrades X self q org user limit w w1 :
  RAGEngine.search_documents X self q org user None limit w = (inr [], w1) ->
  reachable w1 ->
  RAGEngine.generate_answer X self q org user limit w
    = RAGEngine._generate_without_context X self q w1
  /\ RAGEngine.no_context_messages q
     = [ {| role := "system"; content := RAGEngine.no_context_system_prompt |};
         {| role := "user"; content := q |} ]
  /\ str_contains "관련 문서를 찾을 수 없었음을 알려주세요"
       RAGEngine.no_context_system_prompt = true
  /\ str_contains "일반적인 정보는 제공할 수 있지만"
       RAGEngine.no_context_system_prompt = true
  /\ exists w2,
       RAGEngine.generate_answer X self q org user limit w
         = (inr {| RAGEngine.answer :=
                     chat_model X (RAGEngine.llm_model self)
                       (RAGEngine.no_context_messages q)
                       (RAGEngine.temperature self) (RAGEngine.max_tokens self);
                   RAGEngine.sources := [];
                   RAGEngine.model := RAGEngine.llm_model self |}, w2)
       /\ trace w2
          = trace w1 ++ [openai_chat (RAGEngine.llm_model self)
                           (RAGEngine.no_context_messages q)].
Proof.
  intros Hs Hr.
  assert (Hgen : RAGEngine.generate_answer X self q org user limit w
                 = RAGEngine._generate_without_context X self q w1).
  { unfold RAGEngine.generate_answer. rewrite try_except_reraise.
    unfold bind at 1. by rewrite Hs. }
  split; [exact Hgen|]. split; [reflexivity|].
  split; [vm_compute; reflexivity|]. split; [vm_compute; reflexivity|].
  rewrite Hgen.
  unfold RAGEngine._generate_without_context, RAGEngine.chat_completions_create.
  destruct (external_reachable
              (openai_chat (RAGEngine.llm_model self) (RAGEngine.no_context_messages q))
              w1 Hr) as (w2 & He & Ht).
  exists w2. unfold bind. rewrite He. by split.
Qed.

(** No document is stored for [org_3]. *)
Lemma empty_retrieval_degrades_witness :
  exists w1 w2 reply,
    RAGEngine.search_documents demo opensearch_engine "When is the deadline?" "org_3"
      None None 5 opensearch_world = (inr [], w1)
    /\ RAGEngine.generate_answer demo opensearch_engine "When is the deadline?" "org_3"
         None 5 opensearch_world
       = (inr {| RAGEngine.answer := reply; RAGEngine.sources := [];
                 RAGEngine.model := "gpt-4o" |}, w2).
Proof.
  eexists _, _, _.
  assert (E : RAGEngine.search_documents demo opensearch_engine "When is the deadline?"
                "org_3" None None 5 opensearch_world = (inr [], _))
    by (vm_compute; reflexivity).
  split; [exact E|].
  destruct (empty_retrieval_degrades demo opensearch_engine _ _ _ _ _ _ E I)
    as (H & _).
  rewrite H. vm_compute. reflexivity.
Defined.

(** * Tags *)

Lemma hybrid_must_conditions X docs hybrid q v conds limit p :
  query_matches X docs
    (query_of (OpenSearchStore.make_search_body hybrid q v conds limit)) p = true ->
  forallb (fun c => query_matches X docs c p) conds = true.
Proof.
  destruct hybrid; simpl; intros H; apply andb_prop in H as [H _]; [done|].
  rewrite forallb_app in H. by apply andb_prop in H as [H _].
Qed.

Lemma tags_condition_holds X docs org user t ts p :
  forallb (fun c => query_matches X docs c p)
    (OpenSearchStore.filter_conditions org user (Some (t :: ts))) = true ->
  exists tag, tag ∈ t :: ts /\ tag ∈ keyword_field "tags" (snd p).
Proof.
  unfold OpenSearchStore.filter_conditions. rewrite !forallb_app.
  intros H. apply andb_prop in H as [_ H]. apply andb_prop in H as [_ H].
  cbn [truthy_list forallb] in H. rewrite andb_true_r in H.
  cbn [query_matches] in H. apply existsb_exists in H as (tag & Hin & Hm).
  exists tag. split; [by apply list_elem_of_In|by apply mem_str_elem_of].
Qed.

(** C8. Through the orchestrator bound to the Qdrant store, a non-empty
    [tags] argument changes nothing: [add_document] and [search_documents]
    have the outcome (value or error, and resulting store) of the same call
    without tags.  Bound to the OpenSearch store, the tags are a mandatory
    filter: every result carries one of the requested tags. *)
Theorem tags_dropped_on_dense X self s text md q org user ts limit w :
  RAGEngine.vector_store self = RAGEngine.Qdrant s ->
  ts <> [] ->
  RAGEngine.add_document X self text md org user (Some ts) w
    = RAGEngine.add_document X self text md org user None w
  /\ RAGEngine.search_documents X self q org user (Some ts) limit w
     = RAGEngine.search_documents X self q org user None limit w
  /\ forall hybrid os results w',
       RAGEngine.vector_store hybrid = RAGEngine.OpenSearch os ->
       RAGEngine.search_documents X hybrid q org user (Some ts) limit w
         = (inr results, w') ->
       Forall (fun r => exists tag tags,
                 tag ∈ ts /\ sr_tags r = Some tags /\ tag ∈ tags) results.
Proof.
  intros Hq Hts. unfold RAGEngine.add_document, RAGEngine.search_documents.
  rewrite Hq. split; [reflexivity|]. split; [reflexivity|].
  intros hybrid os results w' Hos Hs.
  unfold RAGEngine.search_documents in Hs. rewrite Hos, try_except_reraise in Hs.
  apply opensearch_search_inr in Hs as (_ & ix & _ & ->).
  apply Forall_forall. intros r Hr.
  apply list_elem_of_fmap in Hr as (h & -> & Hh).
  apply run_search_inv in Hh as (p & _ & Hm & ->).
  apply hybrid_must_conditions in Hm.
  destruct ts as [|t ts]; [done|].
  apply tags_condition_holds in Hm as (tag & Hin & Hk).
  exists tag. eexists. split; [exact Hin|]. split; [reflexivity|].
  exact Hk.
Qed.

(** A tag that no document carries: the Qdrant engine still returns the
    deadline document, the OpenSearch engine returns nothing. *)
Lemma tags_dropped_on_dense_witness :
  RAGEngine.search_documents demo qdrant_engine "deadline" "org_1" None
    (Some ["no-such-tag"]) 5 qdrant_world
  = RAGEngine.search_documents demo qdrant_engine "deadline" "org_1" None None 5
      qdrant_world
  /\ (exists r w', RAGEngine.search_documents demo qdrant_engine "deadline" "org_1" None
        (Some ["no-such-tag"]) 5 qdrant_world = (inr [r], w'))
  /\ (exists w', RAGEngine.search_documents demo opensearch_engine "deadline" "org_1" None
        (Some ["no-such-tag"]) 5 opensearch_world = (inr [], w')).
Proof.
  split.
  - refine (proj1 (proj2 (tags_dropped_on_dense demo qdrant_engine demo_collection
                            text_owner ∅ _ _ _ ["no-such-tag"] _ _ eq_refl _))).
    discriminate.
  - split; [eexists _, _|eexists]; vm_compute; reflexivity.
Defined.

(** * Schema creation *)

Lemma mem_str_false s l : mem_str s l = false <-> s ∉ l.
Proof.
  rewrite <- mem_str_elem_of. destruct (mem_str s l); split; intros H; done.
Qed.

Lemma listed_collection (m : gmap string Collection) name :
  mem_str name (map fst (map_to_list m)) = true <-> is_Some (m !! name).
Proof.
  rewrite mem_str_elem_of, list_elem_of_fmap. split.
  - intros ([k c] & -> & Hin). apply elem_of_map_to_list in Hin. by exists c.
  - intros [c Hc]. exists (name, c). split; [done|]. by apply elem_of_map_to_list.
Qed.

(** In a quiet environment a second [_ensure_index] finds the index and
    leaves the cluster as the first call left it. *)
Lemma opensearch_ensure_index_twice self w :
  schedule w = [] ->
  exists w1 w2,
    OpenSearchStore._ensure_index self w = (inr tt, w1)
    /\ OpenSearchStore._ensure_index self w1 = (inr tt, w2)
    /\ is_Some (indices w1 !! OpenSearchStore.index_name self)
    /\ indices w2 = indices w1.
Proof.
  intros Hq.
  assert (Hrun : forall w0, schedule w0 = [] ->
            exists w1, OpenSearchStore._ensure_index self w0 = (inr tt, w1)
              /\ schedule w1 = []
              /\ is_Some (indices w1 !! OpenSearchStore.index_name self)
              /\ (is_Some (indices w0 !! OpenSearchStore.index_name self) ->
                  indices w1 = indices w0)).
  { intros w0 H0. unfold OpenSearchStore._ensure_index, try_except, bind,
      indices_exists, indices_create, external, get_world, ret, modify, raise, bind.
    simpl. rewrite H0. simpl.
    destruct (indices w0 !! OpenSearchStore.index_name self) as [ix|] eqn:Hix; simpl.
    - eexists. repeat split; simpl; eauto.
    - rewrite H0. simpl. rewrite Hix. simpl.
      eexists. repeat split; simpl; eauto.
      + by rewrite lookup_insert_eq.
      + by intros [? ?]. }
  destruct (Hrun w Hq) as (w1 & H1 & Hq1 & Hc1 & _).
  destruct (Hrun w1 Hq1) as (w2 & H2 & _ & _ & Hsame).
  exists w1, w2. repeat split; auto.
Qed.

Lemma external_none c w :
  schedule w = [] -> external c w = (inr tt, log_call c w).
Proof. unfold external. simpl. by intros ->. Qed.

Lemma external_quiet c w rest :
  schedule w = Quiet :: rest ->
  external c w = (inr tt, set_schedule rest (log_call c w)).
Proof. unfold external. simpl. by intros ->. Qed.

Lemma external_fault c w e rest :
  schedule w = Fault e :: rest ->
  external c w = (inl e, set_schedule rest (log_call c w)).
Proof. unfold external. simpl. by intros ->. Qed.

Lemma external_peer_index c w index d rest :
  schedule w = PeerCreatesIndex index d :: rest ->
  external c w
  = (inr tt, set_indices (peer_index index d) (set_schedule rest (log_call c w))).
Proof. unfold external. simpl. by intros ->. Qed.

Lemma external_peer_collection c w name n rest :
  schedule w = PeerCreatesCollection name n :: rest ->
  external c w
  = (inr tt, set_collections (peer_collection name n) (set_schedule rest (log_call c w))).
Proof. unfold external. simpl. by intros ->. Qed.

(** X22. When a peer creates the index between the existence check and
    the creation request, the request is refused with
    [resource_already_exists_exception] and [_ensure_index] returns
    normally, leaving the index of the peer in place. *)
Theorem opensearch_ensure_index_tolerates_race self w d rest :
  indices w !! OpenSearchStore.index_name self = None ->
  schedule w = Quiet :: PeerCreatesIndex (OpenSearchStore.index_name self) d :: rest ->
  exists w', OpenSearchStore._ensure_index self w = (inr tt, w')
    /\ indices w' !! OpenSearchStore.index_name self
       = Some {| ix_dimension := d; ix_docs := [] |}.
Proof.
  intros Hix Hs. unfold OpenSearchStore._ensure_index, try_except, bind,
    indices_exists, indices_create, bind.
  rewrite (external_quiet _ _ _ Hs). unfold get_world, ret.
  cbn [indices set_schedule log_call]. rewrite Hix.
  erewrite external_peer_index by reflexivity.
  cbn [indices set_indices set_schedule log_call]. unfold peer_index at 1.
  rewrite Hix, lookup_insert_eq. unfold raise. cbn.
  eexists. split; [reflexivity|]. cbn. unfold peer_index. by rewrite Hix, lookup_insert_eq.
Qed.

(** The race of two instances that start against an empty cluster. *)
Lemma opensearch_ensure_index_tolerates_race_witness :
  exists w',
    OpenSearchStore._ensure_index demo_index opensearch_race_world = (inr tt, w')
    /\ indices w' !! "ai_documents" = Some {| ix_dimension := 3072; ix_docs := [] |}.
Proof.
  exact (opensearch_ensure_index_tolerates_race demo_index opensearch_race_world
           3072 [] eq_refl eq_refl).
Defined.

(** X21. [_ensure_collection] is idempotent against a server that
    answers: the first call leaves the collection in place (creating it
    when it was missing), and a second call returns normally too and leaves
    every collection as the first call left it. *)
Theorem qdrant_ensure_collection_twice self w :
  schedule w = [] ->
  exists w1 w2,
    QdrantStore._ensure_collection self w = (inr tt, w1)
    /\ QdrantStore._ensure_collection self w1 = (inr tt, w2)
    /\ is_Some (collections w1 !! QdrantStore.collection_name self)
    /\ collections w2 = collections w1.
Proof.
  intros Hq.
  assert (Hrun : forall w0, schedule w0 = [] ->
            exists w1, QdrantStore._ensure_collection self w0 = (inr tt, w1)
              /\ schedule w1 = []
              /\ is_Some (collections w1 !! QdrantStore.collection_name self)
              /\ (is_Some (collections w0 !! QdrantStore.collection_name self) ->
                  collections w1 = collections w0)).
  { intros w0 H0. unfold QdrantStore._ensure_collection, try_except, bind,
      get_collections, create_collection, external, get_world, ret, modify, raise, bind.
    simpl. rewrite H0. simpl.
    destruct (mem_str _ _) eqn:Hm; simpl.
    - apply listed_collection in Hm. eexists. repeat split; eauto.
    - rewrite H0. simpl.
      destruct (collections w0 !! QdrantStore.collection_name self) eqn:Hc.
      + assert (Ht : mem_str (QdrantStore.collection_name self)
                       (map fst (map_to_list (collections w0))) = true)
          by (apply listed_collection; eauto).
        congruence.
      + simpl. eexists. repeat split; simpl; eauto.
        * by rewrite lookup_insert_eq.
        * by intros [? ?]. }
  destruct (Hrun w Hq) as (w1 & H1 & Hq1 & Hc1 & _).
  destruct (Hrun w1 Hq1) as (w2 & H2 & _ & _ & Hsame).
  exists w1, w2. repeat split; auto.
Qed.

(** Two constructions in a row against an empty server. *)
Lemma qdrant_ensure_collection_twice_witness :
  exists w1 w2,
    QdrantStore._ensure_collection demo_collection empty_world = (inr tt, w1)
    /\ QdrantStore._ensure_collection demo_collection w1 = (inr tt, w2)
    /\ collections w2 = collections w1.
Proof.
  destruct (qdrant_ensure_collection_twice demo_collection empty_world eq_refl)
    as (w1 & w2 & H1 & H2 & _ & Hsame).
  exists w1, w2. exact (conj H1 (conj H2 Hsame)).
Defined.

(** C9 at the race.  The peer's collection makes [create_collection] fail
    with a conflict, and [_ensure_collection] passes the error on, where
    [_ensure_index] absorbs the corresponding error of OpenSearch. *)
Theorem qdrant_ensure_collection_race :
  fst (QdrantStore._ensure_collection demo_collection qdrant_race_world)
    = inl collection_already_exists
  /\ fst (OpenSearchStore._ensure_index demo_index opensearch_race_world) = inr tt.
Proof. split; vm_compute; reflexivity. Qed.

Lemma qdrant_ensure_collection_race_general self w n rest :
  collections w !! QdrantStore.collection_name self = None ->
  schedule w = Quiet :: PeerCreatesCollection (QdrantStore.collection_name self) n :: rest ->
  fst (QdrantStore._ensure_collection self w) = inl collection_already_exists.
Proof.
  intros Hc Hs. unfold QdrantStore._ensure_collection, try_except, bind,
    get_collections, create_collection, external, get_world, ret, modify, raise, bind.
  simpl. rewrite Hs. simpl.
  destruct (mem_str _ _) eqn:Hm; simpl.
  - apply listed_collection in Hm as [c Hc']. congruence.
  - unfold peer_collection. rewrite Hc, lookup_insert_eq. reflexivity.
Qed.

(** * Deletion *)

Lemma has_id_doc_ids id docs : has_id id docs = true <-> id ∈ map fst docs.
Proof.
  unfold has_id. rewrite existsb_exists, list_elem_of_fmap. split.
  - intros (p & Hin & Heq). apply String.eqb_eq in Heq. exists p.
    split; [done|by apply list_elem_of_In].
  - intros (p & -> & Hin). exists p. split; [by apply list_elem_of_In|].
    apply String.eqb_refl.
Qed.

Lemma grown_doc_ids w w1 index id :
  grown w w1 -> id ∈ doc_ids w1 index -> id ∈ doc_ids w index.
Proof.
  intros [Hi _]. unfold doc_ids. destruct (Hi index) as [->|[_ [d ->]]]; [done|].
  simpl. by intros H%elem_of_nil.
Qed.

(** X20. [delete_document] of the OpenSearch store never raises; it
    returns [false] for an id that names no stored document, and [true]
    only when the document was there and is gone afterwards. *)
Theorem opensearch_delete_document_outcome self id w :
  exists b w',
    OpenSearchStore.delete_document self id w = (inr b, w')
    /\ (id ∉ doc_ids w (OpenSearchStore.index_name self) -> b = false)
    /\ (b = true ->
        id ∈ doc_ids w (OpenSearchStore.index_name self)
        /\ id ∉ doc_ids w' (OpenSearchStore.index_name self)).
Proof.
  unfold OpenSearchStore.delete_document, try_except.
  destruct (bind (client_delete (OpenSearchStore.index_name self) id)
              (fun _ => ret true) w) as [[e|b] w'] eqn:E.
  - destruct (is_class NotFoundError e); eexists _, _;
      (split; [reflexivity|]); split; done.
  - exists b, w'. split; [reflexivity|].
    apply bind_inr in E as ([] & w1 & Hdel & Hret). injection Hret as <- <-.
    unfold client_delete in Hdel.
    apply bind_inr in Hdel as ([] & w2 & Hext & Hdel).
    apply external_grown in Hext.
    apply bind_inr in Hdel as (w3 & w4 & Hget & Hdel). injection Hget as <- <-.
    destruct (indices w2 !! OpenSearchStore.index_name self) as [ix|] eqn:Hix;
      [|discriminate].
    destruct (has_id id (ix_docs ix)) eqn:Hid; [|discriminate].
    injection Hdel as <-.
    assert (Hin : id ∈ doc_ids w (OpenSearchStore.index_name self)).
    { eapply grown_doc_ids; [exact Hext|]. unfold doc_ids. rewrite Hix.
      by apply has_id_doc_ids. }
    split; [done|]. intros _. split; [exact Hin|].
    unfold doc_ids. simpl. rewrite lookup_insert_eq. simpl.
    unfold drop_id. intros H. apply list_elem_of_fmap in H as (p & -> & Hp).
    apply elem_of_List_filter in Hp as [_ Hp].
    by rewrite String.eqb_refl in Hp.
Qed.

Lemma drop_points_ids id l :
  map pt_id (drop_points [id] l)
  = List.filter (fun i => negb (String.eqb i id)) (map pt_id l).
Proof.
  unfold drop_points. induction l as [|p l IH]; [done|].
  cbn [List.filter map]. unfold mem_str at 1. cbn [existsb].
  rewrite orb_false_r.
  destruct (String.eqb (pt_id p) id); cbn [negb map]; by rewrite IH.
Qed.

(** In a quiet environment, [delete_document] of the Qdrant store returns
    [true] for every well-formed id, stored or not, and leaves the other
    points in place. *)
Lemma qdrant_delete_document_valid X self id w c :
  schedule w = [] ->
  collections w !! QdrantStore.collection_name self = Some c ->
  valid_point_id X id = true ->
  exists w', QdrantStore.delete_document X self id w = (inr true, w')
    /\ point_ids w' (QdrantStore.collection_name self)
       = List.filter (fun i => negb (String.eqb i id)) (point_ids w (QdrantStore.collection_name self)).
Proof.
  intros Hs Hc Hv. unfold QdrantStore.delete_document, try_except, bind, qdrant_delete, bind.
  rewrite (external_none _ _ Hs). unfold get_world.
  cbn [collections log_call]. rewrite Hc, Hv. unfold modify, ret.
  eexists. split; [reflexivity|].
  unfold point_ids. cbn. rewrite lookup_insert_eq, Hc. cbn.
  apply drop_points_ids.
Qed.

(** C4 at a stored collection.  The id names no point of the collection,
    and [delete_document] answers [true], on the store and through the
    orchestrator; the OpenSearch store answers [false] for the same id. *)
Theorem qdrant_delete_absent_returns_true :
  (absent_id ∉ point_ids qdrant_world "documents")
  /\ valid_point_id demo absent_id = true
  /\ fst (QdrantStore.delete_document demo demo_collection absent_id qdrant_world)
     = inr true
  /\ fst (RAGEngine.delete_document demo qdrant_engine absent_id qdrant_world)
     = inr true
  /\ (absent_id ∉ doc_ids opensearch_world "ai_documents")
  /\ fst (OpenSearchStore.delete_document demo_index absent_id opensearch_world)
     = inr false.
Proof.
  repeat split; try (vm_compute; reflexivity);
    apply mem_str_false; vm_compute; reflexivity.
Qed.

(** * Failures *)

Lemma opensearch_delete_handler self id w :
  OpenSearchStore.delete_document self id w
  = match (client_delete (OpenSearchStore.index_name self) id;; ret true) w with
    | (inl _, w') => (inr false, w')
    | (inr a, w') => (inr a, w')
    end.
Proof.
  unfold OpenSearchStore.delete_document, try_except.
  destruct (bind _ _ w) as [[e|b] w']; [|done].
  by destruct (is_class NotFoundError e).
Qed.

Lemma ensure_index_handler self w :
  OpenSearchStore._ensure_index self w
  = match (let* present := indices_exists (OpenSearchStore.index_name self) in
           if present then ret tt
           else indices_create (OpenSearchStore.index_name self)
                  OpenSearchStore.embedding_dimension) w with
    | (inl e, w') => if already_exists_error e then (inr tt, w') else (inl e, w')
    | (inr a, w') => (inr a, w')
    end.
Proof.
  unfold OpenSearchStore._ensure_index, try_except, already_exists_error.
  destruct (bind _ _ w) as [[e|[]] w']; [|done].
  destruct (is_class RequestError e); [|done].
  by destruct (str_contains _ _).
Qed.




Example connection_failure_outcomes :
  fst (RAGEngine.delete_document demo opensearch_engine absent_id opensearch_down)
    = inr false
  /\ fst (RAGEngine.delete_document demo qdrant_engine absent_id qdrant_down)
     = inr false
  /\ (exists st, fst (RAGEngine.get_stats demo opensearch_engine opensearch_down) = inr st
        /\ RAGEngine.total_documents st = 0%Z)
  /\ fst (RAGEngine.get_stats demo qdrant_engine qdrant_down) = inl connection_refused.
Proof.
  repeat split; try (vm_compute; reflexivity).
  eexists. split; vm_compute; reflexivity.
Qed.

(** * Searches: further properties *)

Lemma bind_keeps {A B} (R : World -> World -> Prop) (m : M A) (k : A -> M B) w :
  (forall w1 w2 w3, R w1 w2 -> R w2 w3 -> R w1 w3) ->
  R w (snd (m w)) ->
  (forall a w1, R w1 (snd (k a w1))) ->
  R w (snd (bind m k w)).
Proof.
  intros Htrans Hm Hk. unfold bind. destruct (m w) as [[e|a] w1] eqn:E; simpl in *.
  - exact Hm.
  - eapply Htrans; [exact Hm|apply Hk].
Qed.

Lemma undisturbed_refl w : undisturbed w w.
Proof. split; [apply grown_refl|done]. Qed.

Lemma undisturbed_trans w1 w2 w3 :
  undisturbed w1 w2 -> undisturbed w2 w3 -> undisturbed w1 w3.
Proof.
  intros [Hg1 Hu1] [Hg2 Hu2]. split; [by eapply grown_trans|congruence].
Qed.

Lemma external_read_only c : read_only (external c).
Proof.
  intros w. destruct (external c w) as [r w1] eqn:E. simpl. split.
  - by eapply external_grown.
  - unfold external in E. simpl in E.
    destruct (schedule w) as [|[|e|index d|name n] rest];
      injection E as <- <-; reflexivity.
Qed.

Lemma embeddings_create_read_only X input model :
  read_only (embeddings_create X input model).
Proof.
  intros w. unfold embeddings_create.
  apply (bind_keeps undisturbed); [apply undisturbed_trans|apply external_read_only|].
  intros _ w1. apply undisturbed_refl.
Qed.

Lemma client_search_read_only X index body : read_only (client_search X index body).
Proof.
  intros w. unfold client_search.
  apply (bind_keeps undisturbed); [apply undisturbed_trans|apply external_read_only|].
  intros _ w1. unfold bind, get_world.
  destruct (indices w1 !! index); apply undisturbed_refl.
Qed.

Lemma query_points_read_only X name query limit must thr :
  read_only (query_points X name query limit must thr).
Proof.
  intros w. unfold query_points.
  destruct (limit =? 0); [apply undisturbed_refl|].
  apply (bind_keeps undisturbed); [apply undisturbed_trans|apply external_read_only|].
  intros _ w1. unfold bind, get_world.
  destruct (collections w1 !! name); apply undisturbed_refl.
Qed.

Lemma opensearch_search_read_only X self q org user tags limit hybrid :
  read_only (OpenSearchStore.search X self q org user tags limit hybrid).
Proof.
  intros w. unfold OpenSearchStore.search. rewrite try_except_reraise.
  apply (bind_keeps undisturbed); [apply undisturbed_trans| |].
  - unfold OpenSearchStore._create_embedding. rewrite try_except_reraise.
    apply embeddings_create_read_only.
  - intros v w1. apply (bind_keeps undisturbed);
      [apply undisturbed_trans|apply client_search_read_only|].
    intros hits w2. apply undisturbed_refl.
Qed.

Lemma qdrant_search_read_only X self q org user limit thr :
  read_only (QdrantStore.search X self q org user limit thr).
Proof.
  intros w. unfold QdrantStore.search. rewrite try_except_reraise.
  apply (bind_keeps undisturbed); [apply undisturbed_trans| |].
  - unfold QdrantStore._create_embedding. rewrite try_except_reraise.
    apply embeddings_create_read_only.
  - intros v w1. apply (bind_keeps undisturbed);
      [apply undisturbed_trans|apply query_points_read_only|].
    intros pts w2. apply undisturbed_refl.
Qed.

(** X1. A search never writes: whatever it returns or raises, on either
    back end, every index and collection holds afterwards what it held
    before (up to an empty index or collection created by a peer
    meanwhile), and no document id is drawn. *)
Theorem search_never_writes X b q org user tags limit hybrid thr :
  read_only (store_search X b q org user tags limit hybrid thr).
Proof.
  destruct b as [s|s]; simpl.
  - apply opensearch_search_read_only.
  - apply qdrant_search_read_only.
Qed.

Lemma take_rank_sorted {A} (score : A -> Q) n (l : list A) :
  StronglySorted (best_first score) (take n (rank score l)).
Proof.
  pose proof (best_first_total score) as Ht.
  pose proof (best_first_transitive score) as Htr.
  apply (StronglySorted_app_1_l _ _ (drop n (rank score l))).
  rewrite take_drop. unfold rank. by apply StronglySorted_merge_sort.
Qed.

(** X2. The results of a successful search, on either back end, are in
    best-first order: each result scores at least as high as every result
    after it. *)
Theorem results_ranked_best_first X b q org user tags limit hybrid thr w results w' :
  store_search X b q org user tags limit hybrid thr w = (inr results, w') ->
  ranked results.
Proof.
  unfold ranked. destruct b as [s|s]; simpl; intros Hs.
  - apply opensearch_search_inr in Hs as (_ & ix & _ & ->).
    unfold run_search.
    eapply (StronglySorted_fmap _ (best_first hit_score)); [|apply take_rank_sorted].
    intros x y. unfold best_first. by rewrite Qle_bool_iff.
  - apply qdrant_search_inr in Hs as (_ & c & _ & ->).
    unfold run_query_points.
    eapply (StronglySorted_fmap _ (best_first sp_score)); [|apply take_rank_sorted].
    intros x y. unfold best_first. by rewrite Qle_bool_iff.
Qed.

(** The stored OpenSearch world, two matches, the better one first. *)
Lemma results_ranked_best_first_witness :
  exists r1 r2 w',
    store_search demo (RAGEngine.OpenSearch demo_index) "Project A" "org_1"
      None None 5 true (3 # 10) opensearch_world = (inr [r1; r2], w')
    /\ ranked [r1; r2].
Proof.
  eexists _, _, _.
  assert (E : store_search demo (RAGEngine.OpenSearch demo_index) "Project A" "org_1"
                None None 5 true (3 # 10) opensearch_world = (inr [_; _], _))
    by (vm_compute; reflexivity).
  split; [exact E|].
  exact (results_ranked_best_first demo (RAGEngine.OpenSearch demo_index)
           _ _ _ _ _ _ _ _ _ _ E).
Defined.

(** X3. The OpenSearch store never returns a document that matches
    neither signal.  In hybrid mode every result matches the query text or
    is one of the [2 * limit] stored vectors nearest to the query; in
    vector-only mode every result is one of the [limit] nearest vectors of
    the whole index, tenant filters being applied on top of that pool.
    At most [limit] results are returned. *)
Theorem opensearch_results_match_a_signal X self q org user tags limit hybrid
    w results w' :
  OpenSearchStore.search X self q org user tags limit hybrid w = (inr results, w') ->
  length results <= limit
  /\ exists ix hits,
       indices w' !! OpenSearchStore.index_name self = Some ix
       /\ results = map OpenSearchStore.result_of_hit hits
       /\ Forall (fun h =>
            if hybrid then
              analyzer_match X q (doc_text (hit_source h)) = true
              \/ hit_id h ∈ knn_ids X (ix_docs ix) (embedding_model X q) (limit * 2)
            else
              hit_id h ∈ knn_ids X (ix_docs ix) (embedding_model X q) limit) hits.
Proof.
  intros Hs. apply opensearch_search_inr in Hs as (_ & ix & Hix & ->). split.
  - rewrite length_map. unfold run_search. rewrite length_take.
    destruct hybrid; simpl; lia.
  - exists ix. eexists. split; [exact Hix|]. split; [reflexivity|].
    apply Forall_forall. intros h Hh.
    apply run_search_inv in Hh as (p & _ & Hm & ->). simpl.
    destruct hybrid; simpl in Hm.
    + apply andb_prop in Hm as [_ Hm].
      destruct (analyzer_match X q (doc_text (snd p))); [by left|]. right.
      simpl in Hm.
      destruct (mem_str (fst p) (knn_ids X (ix_docs ix) (embedding_model X q) (limit * 2)))
        eqn:Hk; [by apply mem_str_elem_of|discriminate Hm].
    + apply andb_prop in Hm as [Hm _]. rewrite forallb_app in Hm.
      apply andb_prop in Hm as [_ Hm]. simpl in Hm. rewrite andb_true_r in Hm.
      apply andb_prop in Hm as [_ Hm].
      apply mem_str_elem_of. exact Hm.
Qed.

(** A hybrid search of [org_1]: one result matches by keyword, the other
    is in the pool of nearest vectors only. *)
Lemma opensearch_results_match_a_signal_witness :
  exists results w' ix hits,
    OpenSearchStore.search demo demo_index "deadline" "org_1" None None 5 true
      opensearch_world = (inr results, w')
    /\ length results = 2
    /\ indices w' !! OpenSearchStore.index_name demo_index = Some ix
    /\ results = map OpenSearchStore.result_of_hit hits
    /\ Forall (fun h =>
         analyzer_match demo "deadline" (doc_text (hit_source h)) = true
         \/ hit_id h ∈ knn_ids demo (ix_docs ix) (embedding_model demo "deadline") (5 * 2))
         hits
    /\ Exists (fun h =>
         analyzer_match demo "deadline" (doc_text (hit_source h)) = false) hits.
Proof.
  eexists _, _.
  assert (E : OpenSearchStore.search demo demo_index "deadline" "org_1" None None 5 true
                opensearch_world = (inr [_; _], _)) by (vm_compute; reflexivity).
  destruct (opensearch_results_match_a_signal demo demo_index _ _ _ _ _ _ _ _ _ E)
    as (_ & ix & hits & Hix & Hres & Hall).
  exists ix, hits.
  refine (conj E (conj eq_refl (conj Hix (conj Hres (conj Hall _))))).
  destruct hits as [|h1 [|h2 [|h3 hits]]]; try discriminate Hres.
  apply Exists_cons_tl, Exists_cons_hd.
  apply (f_equal (fun l => nth 1 (map sr_text l) EmptyString)) in Hres.
  cbn [nth map sr_text OpenSearchStore.result_of_hit] in Hres.
  rewrite <- Hres. vm_compute. reflexivity.
Defined.

Lemma truthy_str_nonempty u : u <> EmptyString -> truthy_str (Some u) = true.
Proof.
  intros Hu. unfold truthy_str. destruct (String.eqb u EmptyString) eqn:E; [|done].
  by apply String.eqb_eq in E.
Qed.

(** X4. A search that names a user returns only documents that carry that
    user id, on either back end: the user condition is added to the tenant
    condition.  On the OpenSearch store these are the documents whose
    [user_id] field is that user, a field that [add_document] sets from its
    [user_id] argument alone.  On the Qdrant store they are the points
    whose payload holds that user under the key [user_id]; that key is
    written from the [user_id] argument of [add_document], and a [user_id]
    of the metadata stays in place when the argument is missing (X26). *)
Theorem user_filter_narrows X b q org u tags limit hybrid thr w results w' :
  u <> EmptyString ->
  store_search X b q org (Some u) tags limit hybrid thr w = (inr results, w') ->
  answers_for_user w b u results.
Proof.
  intros Hu. destruct b as [s|s]; simpl; intros Hsearch.
  - apply opensearch_search_inr in Hsearch as (Hg & ix & Hix & ->).
    eexists. split; [reflexivity|].
    apply Forall_forall. intros h Hh.
    apply run_search_inv in Hh as ([id d] & Hin & Hm & ->). simpl. split.
    + eapply grown_stored_doc; [exact Hg|]. exists ix. by split.
    + apply hybrid_must_conditions in Hm.
      unfold OpenSearchStore.filter_conditions in Hm.
      rewrite (truthy_str_nonempty _ Hu) in Hm. simpl in Hm.
      apply andb_prop in Hm as [_ Hm]. apply andb_prop in Hm as [Hm _].
      unfold keyword_field in Hm. simpl in Hm.
      destruct (doc_user_id d) as [u'|]; simpl in Hm; [|discriminate Hm].
      rewrite orb_false_r in Hm. apply String.eqb_eq in Hm. by subst.
  - apply qdrant_search_inr in Hsearch as (Hg & c & Hc & ->).
    eexists. split; [reflexivity|].
    apply Forall_forall. intros sp Hsp.
    apply run_query_points_inv in Hsp as (p & Hin & Hm & _ & ->). simpl.
    exists p. repeat split; try done.
    + eapply grown_stored_point; [exact Hg|]. exists c. by split.
    + unfold QdrantStore.filter_conditions in Hm.
      rewrite (truthy_str_nonempty _ Hu) in Hm. simpl in Hm.
      apply andb_prop in Hm as [_ Hm]. apply andb_prop in Hm as [Hm _].
      by apply mem_str_elem_of.
Qed.

(** A search of [org_1] for [user_1] returns the one document stored for
    that user and not the document that [org_1] stores without a user. *)
Lemma user_filter_narrows_witness :
  exists r w',
    store_search demo (RAGEngine.OpenSearch demo_index) "Project A" "org_1"
      (Some "user_1") None 5 true (3 # 10) opensearch_world = (inr [r], w')
    /\ sr_text r = text_deadline
    /\ answers_for_user opensearch_world (RAGEngine.OpenSearch demo_index) "user_1" [r].
Proof.
  eexists _, _.
  assert (E : store_search demo (RAGEngine.OpenSearch demo_index) "Project A" "org_1"
                (Some "user_1") None 5 true (3 # 10) opensearch_world = (inr [_], _))
    by (vm_compute; reflexivity).
  split; [exact E|]. split; [reflexivity|].
  refine (user_filter_narrows demo (RAGEngine.OpenSearch demo_index)
            _ _ _ _ _ _ _ _ _ _ _ E).
  discriminate.
Defined.

(** * Writes: further properties *)

Lemma grown_bump_uuid w : grown w (bump_uuid w).
Proof. split; intros k; by left. Qed.

Lemma client_index_inl index id d w e w' :
  client_index index id d w = (inl e, w') -> grown w w'.
Proof.
  unfold client_index. intros H.
  apply bind_inl in H as [H|([] & w1 & _ & H)]; [|discriminate H].
  by eapply external_grown.
Qed.

Lemma upsert_inl X name point w e w' :
  upsert X name point w = (inl e, w') -> grown w w'.
Proof.
  unfold upsert. intros H.
  apply bind_inl in H as [H|([] & w1 & Hext & H)]; [by eapply external_grown|].
  apply external_grown in Hext.
  apply bind_inl in H as [H|(w2 & w3 & Hget & H)]; [discriminate H|].
  injection Hget as <- <-.
  destruct (collections w1 !! name); [|by injection H as _ <-].
  destruct (valid_point_id X (pt_id point)); [discriminate H|by injection H as _ <-].
Qed.

Lemma opensearch_add_document_inl X self text md org user tags w e w' :
  OpenSearchStore.add_document X self text md org user tags w = (inl e, w') ->
  grown w w'.
Proof.
  unfold OpenSearchStore.add_document. rewrite try_except_reraise. intros H.
  apply bind_inl in H as [H|(v & w1 & Hemb & H)].
  { pose proof (embeddings_create_read_only X text
                  OpenSearchStore.embedding_model_name w) as [Hg _].
    unfold OpenSearchStore._create_embedding in H.
    rewrite try_except_reraise in H. by rewrite H in Hg. }
  unfold OpenSearchStore._create_embedding in Hemb.
  rewrite try_except_reraise in Hemb.
  apply embeddings_create_inr in Hemb as [_ Hg].
  apply bind_inl in H as [H|(doc_id & w2 & Hid & H)]; [discriminate H|].
  injection Hid as <- <-.
  apply bind_inl in H as [H|(w3 & w4 & Hget & H)]; [discriminate H|].
  injection Hget as <- <-.
  apply bind_inl in H as [H|([] & w5 & _ & H)]; [|discriminate H].
  apply client_index_inl in H.
  eapply grown_trans; [exact Hg|]. eapply grown_trans; [apply grown_bump_uuid|exact H].
Qed.

Lemma qdrant_add_document_inl X self text md org user w e w' :
  QdrantStore.add_document X self text md org user w = (inl e, w') ->
  grown w w'.
Proof.
  unfold QdrantStore.add_document. rewrite try_except_reraise. intros H.
  apply bind_inl in H as [H|(v & w1 & Hemb & H)].
  { pose proof (embeddings_create_read_only X text
                  QdrantStore.embedding_model_name w) as [Hg _].
    unfold QdrantStore._create_embedding in H.
    rewrite try_except_reraise in H. by rewrite H in Hg. }
  unfold QdrantStore._create_embedding in Hemb.
  rewrite try_except_reraise in Hemb.
  apply embeddings_create_inr in Hemb as [_ Hg].
  apply bind_inl in H as [H|(doc_id & w2 & Hid & H)]; [discriminate H|].
  injection Hid as <- <-.
  apply bind_inl in H as [H|([] & w5 & _ & H)]; [|discriminate H].
  apply upsert_inl in H.
  eapply grown_trans; [exact Hg|]. eapply grown_trans; [apply grown_bump_uuid|exact H].
Qed.

Lemma engine_add_document_inl X self text md org user tags w e w' :
  RAGEngine.add_document X self text md org user tags w = (inl e, w') ->
  grown w w'.
Proof.
  unfold RAGEngine.add_document. rewrite try_except_reraise.
  destruct (RAGEngine.vector_store self) as [s|s].
  - apply opensearch_add_document_inl.
  - apply qdrant_add_document_inl.
Qed.

Lemma grown_same_ids w w' :
  grown w w' ->
  forall name, doc_ids w' name = doc_ids w name /\ point_ids w' name = point_ids w name.
Proof.
  intros [Hi Hc] name. unfold doc_ids, point_ids. split.
  - destruct (Hi name) as [->|[-> [d ->]]]; reflexivity.
  - destruct (Hc name) as [->|[-> [n ->]]]; reflexivity.
Qed.

(** X5. An [add_document] that fails stores nothing: when the call through
    the orchestrator raises, whether the embedding call or the store write
    failed, every index and collection holds the documents it held before.
    The write is the last step, so there is nothing to roll back. *)
Theorem failed_add_stores_nothing X self text md org user tags w e w' :
  RAGEngine.add_document X self text md org user tags w = (inl e, w') ->
  grown w w'
  /\ forall name,
       doc_ids w' name = doc_ids w name /\ point_ids w' name = point_ids w name.
Proof.
  intros H. apply engine_add_document_inl in H. split; [exact H|].
  by apply grown_same_ids.
Qed.

(** The embedding call is served and the write to OpenSearch fails. *)
Lemma failed_add_stores_nothing_witness :
  exists w',
    RAGEngine.add_document demo opensearch_engine text_owner ∅ "org_1" None None
      opensearch_down_later = (inl connection_refused, w')
    /\ doc_ids w' "ai_documents" = doc_ids opensearch_down_later "ai_documents".
Proof.
  eexists.
  assert (E : RAGEngine.add_document demo opensearch_engine text_owner ∅ "org_1"
                None None opensearch_down_later = (inl connection_refused, _))
    by (vm_compute; reflexivity).
  split; [exact E|].
  exact (proj1 (proj2 (failed_add_stores_nothing demo opensearch_engine
                         _ _ _ _ _ _ _ _ E) "ai_documents")).
Defined.

(** What a successful [OpenSearchStore.add_document] leaves in the index:
    the new document at the end, any older document of the same id
    removed. *)
Lemma opensearch_add_document_inr X self text md org user tags w id w' :
  OpenSearchStore.add_document X self text md org user tags w = (inr id, w') ->
  exists n old d,
    indices w' !! OpenSearchStore.index_name self
      = Some {| ix_dimension := n; ix_docs := drop_id id old ++ [(id, d)] |}
    /\ old = index_docs w (OpenSearchStore.index_name self)
    /\ doc_text d = text
    /\ doc_embedding d = embedding_model X text
    /\ doc_organization_id d = org
    /\ doc_metadata d = md
    /\ doc_user_id d = (if truthy_str user then user else None)
    /\ doc_tags d = (if truthy_list tags then tags else None).
Proof.
  unfold OpenSearchStore.add_document. rewrite try_except_reraise. intros H.
  apply bind_inr in H as (v & w1 & Hemb & H).
  unfold OpenSearchStore._create_embedding in Hemb.
  rewrite try_except_reraise in Hemb.
  apply embeddings_create_inr in Hemb as [-> Hg1].
  apply bind_inr in H as (doc_id & w2 & Hid & H). injection Hid as <- <-.
  apply bind_inr in H as (w3 & w4 & Hget & H). injection Hget as <- <-.
  apply bind_inr in H as ([] & w5 & Hidx & H). injection H as <- <-.
  unfold client_index in Hidx.
  apply bind_inr in Hidx as ([] & w6 & Hext & Hmod). injection Hmod as <-.
  apply external_grown in Hext.
  pose proof (grown_trans _ _ _ Hg1 (grown_trans _ _ _ (grown_bump_uuid w1) Hext)) as Hg.
  eexists _, _, _. split; [simpl; apply lookup_insert_eq|].
  split; [|repeat split; reflexivity].
  unfold index_docs. destruct Hg as [Hi _].
  destruct (Hi (OpenSearchStore.index_name self)) as [->|[-> [n ->]]]; [|done].
  by destruct (indices w !! OpenSearchStore.index_name self).
Qed.

(** X6. A document added to the OpenSearch store can be found at once: a
    hybrid search of the same organisation whose query matches the text by
    keyword returns it, with the id that [add_document] returned, the text,
    the metadata exactly as given and the tags, provided the matching
    documents fit in [limit]. *)
Theorem added_document_is_searchable X self text md org user tags q limit
    w id w1 results w2 :
  OpenSearchStore.add_document X self text md org user tags w = (inr id, w1) ->
  OpenSearchStore.search X self q org None None limit true w1 = (inr results, w2) ->
  analyzer_match X q text = true ->
  (forall ix, indices w1 !! OpenSearchStore.index_name self = Some ix ->
     length (eligible X (ix_docs ix) (hybrid_body X q org None None limit)) <= limit) ->
  exists r, r ∈ results
    /\ sr_id r = id
    /\ sr_text r = text
    /\ sr_metadata r = md
    /\ sr_tags r = Some (match tags with Some ts => ts | None => [] end).
Proof.
  intros Hadd Hs Hk Hfit.
  apply opensearch_add_document_inr in Hadd
    as (n & old & d & Hix & _ & Ht & _ & Ho & Hmd & _ & Htags).
  apply opensearch_search_inr in Hs as (Hg & ix' & Hix' & ->).
  rewrite (grown_index_kept _ _ _ _ Hg Hix) in Hix'. injection Hix' as <-.
  specialize (Hfit _ Hix). simpl in Hfit.
  assert (Hin : (id, d) ∈ drop_id id old ++ [(id, d)])
    by (apply elem_of_app; right; by apply list_elem_of_singleton).
  assert (He : (id, d)
                 ∈ eligible X (drop_id id old ++ [(id, d)])
                     (hybrid_body X q org None None limit)).
  { unfold eligible. apply elem_of_List_filter. split; [exact Hin|].
    apply hybrid_keyword_eligible.
    - unfold passes_filters. simpl. rewrite Ho, String.eqb_refl. reflexivity.
    - simpl. by rewrite Ht. }
  exists (OpenSearchStore.result_of_hit
            (to_hit X (drop_id id old ++ [(id, d)])
               (query_of (hybrid_body X q org None None limit)) (id, d))).
  split.
  - apply list_elem_of_fmap. eexists. split; [reflexivity|].
    unfold run_search. simpl.
    fold (hybrid_body X q org None None limit).
    fold (eligible X (drop_id id old ++ [(id, d)]) (hybrid_body X q org None None limit)).
    rewrite take_rank_all by (by rewrite length_map).
    apply elem_of_rank. apply list_elem_of_fmap. eauto.
  - simpl. rewrite Ht, Hmd, Htags. repeat split.
    destruct tags as [[|t ts]|]; reflexivity.
Qed.

(** A fourth document is added to the stored world and found by keyword. *)
Lemma added_document_is_searchable_witness :
  exists id results w2 r,
    OpenSearchStore.add_document demo demo_index "Release notes of Project C"
      {[ "title" := VStr "notes" ]} "org_3" None (Some ["projectC"])
      opensearch_world = (inr id, release_notes_world)
    /\ OpenSearchStore.search demo demo_index "Release notes" "org_3" None None 5 true
         release_notes_world = (inr results, w2)
    /\ r ∈ results
    /\ sr_id r = id
    /\ sr_metadata r = {[ "title" := VStr "notes" ]}
    /\ sr_tags r = Some ["projectC"].
Proof.
  eexists _, _, _.
  assert (E1 : OpenSearchStore.add_document demo demo_index "Release notes of Project C"
                 {[ "title" := VStr "notes" ]} "org_3" None (Some ["projectC"])
                 opensearch_world = (inr _, release_notes_world))
    by (vm_compute; reflexivity).
  assert (E2 : OpenSearchStore.search demo demo_index "Release notes" "org_3" None None
                  5 true release_notes_world = (inr _, _)) by (vm_compute; reflexivity).
  destruct (added_document_is_searchable demo demo_index _ _ _ _ _ _ _ _ _ _ _ _ E1 E2)
    as (r & Hr & Hid & _ & Hmd & Htags).
  - vm_compute; reflexivity.
  - intros ix Hix.
    assert (Hc : match indices release_notes_world !! OpenSearchStore.index_name demo_index with
                 | Some ix =>
                     length (eligible demo (ix_docs ix)
                               (hybrid_body demo "Release notes" "org_3" None None 5)) <=? 5
                 | None => true
                 end = true) by (vm_compute; reflexivity).
    rewrite Hix in Hc. apply Nat.leb_le. exact Hc.
  - exists r. exact (conj E1 (conj E2 (conj Hr (conj Hid (conj Hmd Htags))))).
Defined.

(** What a successful [QdrantStore.add_document] leaves in the collection:
    the new point at the end, any older point of the same id removed. *)
Lemma qdrant_add_document_inr X self text md org user w id w' :
  QdrantStore.add_document X self text md org user w = (inr id, w') ->
  exists n old,
    collections w' !! QdrantStore.collection_name self
      = Some {| col_size := n;
                col_points :=
                  drop_points [id] old
                  ++ [ {| pt_id := id;
                          pt_vector := embedding_model X text;
                          pt_payload := payload_of text md org user |} ] |}
    /\ old = collection_points w (QdrantStore.collection_name self)
    /\ valid_point_id X id = true
    /\ map pt_id old = point_ids w (QdrantStore.collection_name self).
Proof.
  unfold QdrantStore.add_document. rewrite try_except_reraise. intros H.
  apply bind_inr in H as (v & w1 & Hemb & H).
  unfold QdrantStore._create_embedding in Hemb.
  rewrite try_except_reraise in Hemb.
  apply embeddings_create_inr in Hemb as [-> Hg1].
  apply bind_inr in H as (doc_id & w2 & Hid & H). injection Hid as <- <-.
  apply bind_inr in H as ([] & w5 & Hup & H). injection H as <- <-.
  unfold upsert in Hup.
  apply bind_inr in Hup as ([] & w6 & Hext & Hup).
  apply external_grown in Hext.
  apply bind_inr in Hup as (w7 & w8 & Hget & Hup). injection Hget as <- <-.
  destruct (collections w6 !! QdrantStore.collection_name self) as [c|] eqn:Hc;
    [|discriminate].
  cbn [pt_id] in Hup.
  destruct (valid_point_id X (uuid4 X (uuid_counter w1))) eqn:Hv; [|discriminate].
  injection Hup as <-.
  pose proof (grown_trans _ _ _ Hg1 (grown_trans _ _ _ (grown_bump_uuid w1) Hext)) as Hg.
  exists (col_size c), (col_points c).
  split; [cbn; by rewrite lookup_insert_eq|]. split; [|split; [done|]].
  - unfold collection_points. destruct Hg as [_ Hcs].
    destruct (Hcs (QdrantStore.collection_name self)) as [E|[-> [m E]]];
      rewrite E in Hc.
    + by rewrite Hc.
    + by injection Hc as <-.
  - destruct (grown_same_ids _ _ Hg (QdrantStore.collection_name self)) as [_ <-].
    unfold point_ids. by rewrite Hc.
Qed.

Lemma payload_of_text text md org user :
  QdrantStore.payload_text (payload_of text md org user) = text.
Proof.
  unfold QdrantStore.payload_text, payload_of.
  destruct user as [u|]; [destruct (truthy_str (Some u))|]; by simplify_map_eq.
Qed.

Lemma payload_of_metadata text md org user :
  filter (fun kv : string * pyval => fst kv ∉ QdrantStore.hidden_keys)
    (payload_of text md org user)
  = filter (fun kv : string * pyval => fst kv ∉ QdrantStore.hidden_keys) md.
Proof.
  assert (Hh : forall k v (m : gmap string pyval), k ∈ QdrantStore.hidden_keys ->
            filter (fun kv : string * pyval => fst kv ∉ QdrantStore.hidden_keys) (<[k := v]> m)
            = filter (fun kv : string * pyval => fst kv ∉ QdrantStore.hidden_keys) m).
  { intros k v m Hk. apply map_filter_insert_not. intros y Hn. by apply Hn. }
  unfold payload_of.
  destruct user as [u|]; [destruct (truthy_str (Some u))|];
    rewrite !Hh; try done; unfold QdrantStore.hidden_keys; set_solver.
Qed.

Lemma payload_of_passes text md org user :
  forallb (condition_holds (payload_of text md org user))
    (QdrantStore.filter_conditions org user) = true.
Proof.
  unfold QdrantStore.filter_conditions, payload_of, condition_holds, payload_keyword.
  destruct user as [u|]; [destruct (truthy_str (Some u))|]; cbn;
    simplify_map_eq; cbn; by rewrite ?String.eqb_refl.
Qed.

(** X7. A document added to the Qdrant store can be found at once by a
    search of the same organisation and user whose query scores above the
    threshold against the text, provided the qualifying points fit in
    [limit].  It comes
    back with the id that [add_document] returned and its text; of its
    metadata, the keys [text], [organization_id] and [user_id] are lost,
    and every other key comes back as given. *)
Theorem qdrant_added_document_is_searchable X self text md org user q limit thr
    w id w1 results w2 :
  QdrantStore.add_document X self text md org user w = (inr id, w1) ->
  QdrantStore.search X self q org user limit thr w1 = (inr results, w2) ->
  (thr < cosinesimil X (embedding_model X q) (embedding_model X text))%Q ->
  (forall c, collections w1 !! QdrantStore.collection_name self = Some c ->
     length (qualifying X (col_points c) (embedding_model X q)
               (QdrantStore.filter_conditions org user) thr) <= limit) ->
  exists r, r ∈ results
    /\ sr_id r = id
    /\ sr_text r = text
    /\ sr_metadata r
       = filter (fun kv : string * pyval => fst kv ∉ QdrantStore.hidden_keys) md
    /\ sr_tags r = None.
Proof.
  intros Hadd Hs Hthr Hfit.
  apply qdrant_add_document_inr in Hadd as (n & old & Hc & _ & _).
  apply qdrant_search_inr in Hs as (Hg & c' & Hc' & ->).
  rewrite (grown_collection_kept _ _ _ _ Hg Hc) in Hc'. injection Hc' as <-.
  specialize (Hfit _ Hc). cbn [col_points] in Hfit.
  set (p := {| pt_id := id; pt_vector := embedding_model X text;
               pt_payload := payload_of text md org user |}) in *.
  exists (QdrantStore.result_of_point (scored X (embedding_model X q) p)).
  split.
  - apply list_elem_of_fmap. eexists. split; [reflexivity|].
    unfold run_query_points. cbn [col_points].
    fold (qualifying X (drop_points [id] old ++ [p]) (embedding_model X q)
            (QdrantStore.filter_conditions org user) thr).
    rewrite take_rank_all by done.
    apply elem_of_rank. unfold qualifying.
    apply elem_of_List_filter. split.
    + apply list_elem_of_fmap. exists p. split; [done|].
      apply elem_of_List_filter. split.
      * apply elem_of_app. right. by apply list_elem_of_singleton.
      * apply payload_of_passes.
    + cbn. by apply above_iff.
  - cbn. rewrite payload_of_text, payload_of_metadata. done.
Qed.

(** A fourth point is added to the stored collection; the [user_id] key of
    its metadata does not come back. *)
Lemma qdrant_added_document_is_searchable_witness :
  exists id results w2 r,
    QdrantStore.add_document demo demo_collection "Project C deadline is Feb 1"
      shadowed_metadata "org_3" (Some "user_9") qdrant_world
      = (inr id, deadline_notes_world)
    /\ QdrantStore.search demo demo_collection "deadline" "org_3" (Some "user_9") 5 (3 # 10)
         deadline_notes_world = (inr results, w2)
    /\ r ∈ results
    /\ sr_id r = id
    /\ sr_metadata r = {[ "title" := VStr "notes" ]}.
Proof.
  eexists _, _, _.
  assert (E1 : QdrantStore.add_document demo demo_collection "Project C deadline is Feb 1"
                 shadowed_metadata "org_3" (Some "user_9") qdrant_world
               = (inr _, deadline_notes_world)) by (vm_compute; reflexivity).
  assert (E2 : QdrantStore.search demo demo_collection "deadline" "org_3" (Some "user_9")
                 5 (3 # 10) deadline_notes_world = (inr _, _))
    by (vm_compute; reflexivity).
  destruct (qdrant_added_document_is_searchable demo demo_collection
              _ _ _ _ _ _ _ _ _ _ _ _ E1 E2)
    as (r & Hr & Hid & _ & Hmd & _).
  - reflexivity.
  - intros c Hc.
    assert (Hn : match collections deadline_notes_world
                         !! QdrantStore.collection_name demo_collection with
                 | Some c =>
                     length (qualifying demo (col_points c) (embedding_model demo "deadline")
                               (QdrantStore.filter_conditions "org_3" (Some "user_9"))
                               (3 # 10)) <=? 5
                 | None => true
                 end = true) by (vm_compute; reflexivity).
    rewrite Hc in Hn. apply Nat.leb_le. exact Hn.
  - exists r.
    assert (Hf : filter (fun kv : string * pyval => fst kv ∉ QdrantStore.hidden_keys)
                   shadowed_metadata = {[ "title" := VStr "notes" ]})
      by (vm_compute; reflexivity).
    rewrite Hf in Hmd.
    exact (conj E1 (conj E2 (conj Hr (conj Hid Hmd)))).
Defined.

Lemma payload_of_borrowed_user text md org u :
  md !! "user_id" = Some (VStr u) ->
  u <> EmptyString ->
  forallb (condition_holds (payload_of text md org None))
    (QdrantStore.filter_conditions org (Some u)) = true.
Proof.
  intros Hmd Hu.
  unfold QdrantStore.filter_conditions. rewrite (truthy_str_nonempty _ Hu).
  unfold payload_of, condition_holds, payload_keyword. cbn.
  simplify_map_eq. cbn. by rewrite !String.eqb_refl.
Qed.

(** X26. On the Qdrant store the user of a document can come from its
    metadata: a document added without a [user_id] argument whose metadata
    holds a string under the key [user_id] is stored with that payload key,
    and a search of the same organisation that names this user returns it
    (when the query scores above the threshold against the text and the
    qualifying points fit in [limit]). *)
Theorem qdrant_metadata_names_the_user X self text md org u q limit thr
    w id w1 results w2 :
  md !! "user_id" = Some (VStr u) ->
  u <> EmptyString ->
  QdrantStore.add_document X self text md org None w = (inr id, w1) ->
  QdrantStore.search X self q org (Some u) limit thr w1 = (inr results, w2) ->
  (thr < cosinesimil X (embedding_model X q) (embedding_model X text))%Q ->
  (forall c, collections w1 !! QdrantStore.collection_name self = Some c ->
     length (qualifying X (col_points c) (embedding_model X q)
               (QdrantStore.filter_conditions org (Some u)) thr) <= limit) ->
  (exists p, stored_point w1 (QdrantStore.collection_name self) p
     /\ pt_id p = id
     /\ pt_payload p !! "user_id" = Some (VStr u))
  /\ exists r, r ∈ results /\ sr_id r = id /\ sr_text r = text.
Proof.
  intros Hmd Hu Hadd Hs Hthr Hfit.
  apply qdrant_add_document_inr in Hadd as (n & old & Hc & _ & _).
  set (p := {| pt_id := id; pt_vector := embedding_model X text;
               pt_payload := payload_of text md org None |}) in *.
  split.
  { exists p. split; [|split; [reflexivity|]].
    - eexists. split; [exact Hc|]. cbn. apply elem_of_app. right.
      by apply list_elem_of_singleton.
    - cbn. unfold payload_of. by simplify_map_eq. }
  apply qdrant_search_inr in Hs as (Hg & c' & Hc' & ->).
  rewrite (grown_collection_kept _ _ _ _ Hg Hc) in Hc'. injection Hc' as <-.
  specialize (Hfit _ Hc). cbn [col_points] in Hfit.
  exists (QdrantStore.result_of_point (scored X (embedding_model X q) p)).
  split.
  - apply list_elem_of_fmap. eexists. split; [reflexivity|].
    unfold run_query_points. cbn [col_points].
    fold (qualifying X (drop_points [id] old ++ [p]) (embedding_model X q)
            (QdrantStore.filter_conditions org (Some u)) thr).
    rewrite take_rank_all by done.
    apply elem_of_rank. unfold qualifying.
    apply elem_of_List_filter. split.
    + apply list_elem_of_fmap. exists p. split; [done|].
      apply elem_of_List_filter. split.
      * apply elem_of_app. right. by apply list_elem_of_singleton.
      * by apply payload_of_borrowed_user.
    + cbn. by apply above_iff.
  - split; [reflexivity|]. exact (payload_of_text text md org None).
Qed.

(** A document of [org_1] is added without a user id, its metadata naming
    [user_1]; the search of [org_1] for [user_1] returns it. *)
Lemma qdrant_metadata_names_the_user_witness :
  exists id results w2 r,
    QdrantStore.add_document demo demo_collection "Project D deadline is Mar 1"
      borrowed_user_metadata "org_1" None qdrant_world
    = (inr id, borrowed_user_world)
    /\ QdrantStore.search demo demo_collection "deadline" "org_1" (Some "user_1") 5
         (3 # 10) borrowed_user_world = (inr results, w2)
    /\ r ∈ results
    /\ sr_id r = id
    /\ sr_text r = "Project D deadline is Mar 1".
Proof.
  eexists _, _, _.
  assert (E1 : QdrantStore.add_document demo demo_collection "Project D deadline is Mar 1"
                 borrowed_user_metadata "org_1" None qdrant_world
               = (inr _, borrowed_user_world)) by (vm_compute; reflexivity).
  assert (E2 : QdrantStore.search demo demo_collection "deadline" "org_1" (Some "user_1")
                 5 (3 # 10) borrowed_user_world = (inr _, _))
    by (vm_compute; reflexivity).
  destruct (qdrant_metadata_names_the_user demo demo_collection
              _ borrowed_user_metadata _ "user_1" _ _ _ _ _ _ _ _
              eq_refl ltac:(discriminate) E1 E2)
    as (_ & r & Hr & Hid & Ht).
  - reflexivity.
  - intros c Hc.
    assert (Hn : match collections borrowed_user_world
                         !! QdrantStore.collection_name demo_collection with
                 | Some c =>
                     length (qualifying demo (col_points c) (embedding_model demo "deadline")
                               (QdrantStore.filter_conditions "org_1" (Some "user_1"))
                               (3 # 10)) <=? 5
                 | None => true
                 end = true) by (vm_compute; reflexivity).
    rewrite Hc in Hn. apply Nat.leb_le. exact Hn.
  - exists r. exact (conj E1 (conj E2 (conj Hr (conj Hid Ht)))).
Defined.

(** * Orchestrator: further properties *)

Lemma external_trace c w r w1 :
  external c w = (r, w1) -> trace w1 = trace w ++ [c].
Proof.
  unfold external. simpl.
  destruct (schedule w) as [|[|e|index d|name n] rest]; by intros [= <- <-].
Qed.

Lemma chat_completions_create_inr X model messages temp max_tok w reply w1 :
  RAGEngine.chat_completions_create X model messages temp max_tok w = (inr reply, w1) ->
  reply = chat_model X model messages temp max_tok
  /\ trace w1 = trace w ++ [openai_chat model messages]
  /\ undisturbed w w1.
Proof.
  unfold RAGEngine.chat_completions_create. intros H.
  apply bind_inr in H as ([] & w2 & Hext & Hret). injection Hret as <- <-.
  split; [done|]. split; [by eapply external_trace|].
  pose proof (external_read_only (openai_chat model messages) w) as Hro.
  by rewrite Hext in Hro.
Qed.

Lemma run_search_length X docs body : length (run_search X docs body) <= size body.
Proof. unfold run_search. rewrite length_take. lia. Qed.

Lemma run_query_points_length X points query limit must thr :
  length (run_query_points X points query limit must thr) <= limit.
Proof. unfold run_query_points. rewrite length_take. lia. Qed.

(** What a successful [search_documents] of the orchestrator returns: at
    most [limit] renderings of documents stored under the organisation. *)
Lemma search_documents_inr X self q org user tags limit w results w' :
  backend_well_formed w (RAGEngine.vector_store self) ->
  RAGEngine.search_documents X self q org user tags limit w = (inr results, w') ->
  answers_from w (RAGEngine.vector_store self) org results
  /\ length results <= limit.
Proof.
  unfold RAGEngine.search_documents. rewrite try_except_reraise.
  destruct (RAGEngine.vector_store self) as [s|s]; simpl; intros Hwf Hsearch.
  - apply opensearch_search_inr in Hsearch as (Hg & ix & Hix & ->). split.
    + eexists. split; [reflexivity|].
      apply Forall_forall. intros h Hh.
      apply run_search_inv in Hh as ([id d] & Hin & Hm & ->). simpl. split.
      * eapply grown_stored_doc; [exact Hg|]. exists ix. by split.
      * by apply search_body_must_org in Hm.
    + rewrite length_map. apply run_search_length.
  - apply qdrant_search_inr in Hsearch as (Hg & c & Hc & ->). split.
    + eexists. split; [reflexivity|].
      apply Forall_forall. intros sp Hsp.
      apply run_query_points_inv in Hsp as (p & Hin & Hm & _ & ->). simpl.
      assert (Hst : stored_point w (QdrantStore.collection_name s) p).
      { eapply grown_stored_point; [exact Hg|]. exists c. by split. }
      exists p. repeat split; try done.
      destruct (Hwf p Hst) as [o Ho]. rewrite Ho. do 2 f_equal.
      apply qdrant_filter_org in Hm.
      rewrite (payload_keyword_str _ _ _ Ho) in Hm.
      by apply list_elem_of_singleton in Hm.
    + rewrite length_map. apply run_query_points_length.
Qed.

(** What a successful [generate_answer] did. *)
Lemma generate_answer_inr X self q org user limit w a w' :
  backend_well_formed w (RAGEngine.vector_store self) ->
  RAGEngine.generate_answer X self q org user limit w = (inr a, w') ->
  exists results w1,
    RAGEngine.search_documents X self q org user None limit w = (inr results, w1)
    /\ answers_from w (RAGEngine.vector_store self) org results
    /\ length results <= limit
    /\ RAGEngine.sources a = map RAGEngine.source_of results
    /\ RAGEngine.model a = RAGEngine.llm_model self
    /\ RAGEngine.answer a
       = chat_model X (RAGEngine.llm_model self) (prompt_messages q results)
           (RAGEngine.temperature self) (RAGEngine.max_tokens self)
    /\ trace w'
       = trace w1 ++ [openai_chat (RAGEngine.llm_model self) (prompt_messages q results)].
Proof.
  intros Hwf H. unfold RAGEngine.generate_answer in H.
  rewrite try_except_reraise in H.
  apply bind_inr in H as (results & w1 & Hs & H).
  destruct (search_documents_inr _ _ _ _ _ _ _ _ _ _ Hwf Hs) as [Hfrom Hlen].
  exists results, w1. split; [exact Hs|]. split; [exact Hfrom|]. split; [exact Hlen|].
  destruct results as [|r rs].
  - unfold RAGEngine._generate_without_context in H.
    apply bind_inr in H as (reply & w2 & Hc & H). injection H as <- <-.
    apply chat_completions_create_inr in Hc as (-> & Ht & _). by repeat split.
  - apply bind_inr in H as (reply & w2 & Hc & H). injection H as <- <-.
    apply chat_completions_create_inr in Hc as (-> & Ht & _). by repeat split.
Qed.

(** X8. Whenever [generate_answer] returns, its sources are the retrieved
    results in retrieval order: at most [context_limit] renderings of
    documents stored under the caller's organisation.  After the retrieval
    it made exactly one call, to the chat model, with the no-context
    messages when nothing was retrieved and otherwise with the system
    prompt and the user prompt built from the context of these results;
    the answer is the model's reply and [model] is the configured name. *)
Theorem answer_cites_what_was_retrieved X self q org user limit w a w' :
  backend_well_formed w (RAGEngine.vector_store self) ->
  RAGEngine.generate_answer X self q org user limit w = (inr a, w') ->
  exists results w1,
    RAGEngine.search_documents X self q org user None limit w = (inr results, w1)
    /\ answers_from w (RAGEngine.vector_store self) org results
    /\ length results <= limit
    /\ RAGEngine.sources a = map RAGEngine.source_of results
    /\ RAGEngine.model a = RAGEngine.llm_model self
    /\ RAGEngine.answer a
       = chat_model X (RAGEngine.llm_model self) (prompt_messages q results)
           (RAGEngine.temperature self) (RAGEngine.max_tokens self)
    /\ trace w'
       = trace w1 ++ [openai_chat (RAGEngine.llm_model self) (prompt_messages q results)].
Proof. apply generate_answer_inr. Qed.

(** A question of [org_1] about the deadline is answered from the stored
    documents of that organisation. *)
Lemma answer_cites_what_was_retrieved_witness :
  exists a w' results w1,
    RAGEngine.generate_answer demo opensearch_engine "deadline" "org_1" None 5
      opensearch_world = (inr a, w')
    /\ RAGEngine.search_documents demo opensearch_engine "deadline" "org_1" None None 5
         opensearch_world = (inr results, w1)
    /\ RAGEngine.sources a = map RAGEngine.source_of results
    /\ results <> [].
Proof.
  eexists _, _.
  assert (E : RAGEngine.generate_answer demo opensearch_engine "deadline" "org_1" None 5
                opensearch_world = (inr _, _)) by (vm_compute; reflexivity).
  destruct (answer_cites_what_was_retrieved demo opensearch_engine _ _ _ _ _ _ _ I E)
    as (results & w1 & Hs & _ & _ & Hsrc & _).
  exists results, w1.
  refine (conj E (conj Hs (conj Hsrc _))).
  intros ->.
  assert (E0 : RAGEngine.search_documents demo opensearch_engine "deadline" "org_1"
                 None None 5 opensearch_world = (inr (_ :: _), _)) by (vm_compute; reflexivity).
  rewrite E0 in Hs. discriminate Hs.
Defined.

(** * Deletion: further properties *)

Lemma drop_id_ids id docs : map fst (drop_id id docs) = without id (map fst docs).
Proof.
  unfold drop_id, without. induction docs as [|p docs IH]; [done|].
  cbn [List.filter map]. destruct (String.eqb (fst p) id); cbn [negb map]; by rewrite IH.
Qed.

Lemma not_elem_of_without id ids : id ∉ without id ids.
Proof.
  unfold without. intros H. apply elem_of_List_filter in H as [_ H].
  by rewrite String.eqb_refl in H.
Qed.

Lemma opensearch_delete_true self id w w' :
  OpenSearchStore.delete_document self id w = (inr true, w') ->
  doc_ids w' (OpenSearchStore.index_name self)
  = without id (doc_ids w (OpenSearchStore.index_name self)).
Proof.
  rewrite opensearch_delete_handler.
  destruct (bind _ _ w) as [[e|b] w0] eqn:E; [discriminate|].
  intros [= -> ->].
  apply bind_inr in E as ([] & w1 & Hdel & Hret). injection Hret as <-.
  unfold client_delete in Hdel.
  apply bind_inr in Hdel as ([] & w2 & Hext & Hdel).
  apply external_grown in Hext.
  apply bind_inr in Hdel as (w3 & w4 & Hget & Hdel). injection Hget as <- <-.
  destruct (indices w2 !! OpenSearchStore.index_name self) as [ix|] eqn:Hix;
    [|discriminate].
  destruct (has_id id (ix_docs ix)) eqn:Hid; [|discriminate].
  injection Hdel as <-.
  destruct (grown_same_ids _ _ Hext (OpenSearchStore.index_name self)) as [<- _].
  unfold doc_ids. cbn. rewrite lookup_insert_eq, Hix. cbn. apply drop_id_ids.
Qed.

Lemma qdrant_delete_true X self id w w' :
  QdrantStore.delete_document X self id w = (inr true, w') ->
  point_ids w' (QdrantStore.collection_name self)
  = without id (point_ids w (QdrantStore.collection_name self)).
Proof.
  unfold QdrantStore.delete_document, try_except.
  destruct (bind _ _ w) as [[e|b] w0] eqn:E; [discriminate|].
  intros [= -> ->].
  apply bind_inr in E as ([] & w1 & Hdel & Hret). injection Hret as <-.
  unfold qdrant_delete in Hdel.
  apply bind_inr in Hdel as ([] & w2 & Hext & Hdel).
  apply external_grown in Hext.
  apply bind_inr in Hdel as (w3 & w4 & Hget & Hdel). injection Hget as <- <-.
  destruct (collections w2 !! QdrantStore.collection_name self) as [c|] eqn:Hc;
    [|discriminate].
  destruct (valid_point_id X id); [|discriminate].
  injection Hdel as <-.
  destruct (grown_same_ids _ _ Hext (QdrantStore.collection_name self)) as [_ <-].
  unfold point_ids. cbn. rewrite lookup_insert_eq, Hc. cbn. apply drop_points_ids.
Qed.

Lemma engine_delete_true X self id w w' :
  RAGEngine.delete_document X self id w = (inr true, w') ->
  store_ids w' (RAGEngine.vector_store self)
  = without id (store_ids w (RAGEngine.vector_store self)).
Proof.
  unfold RAGEngine.delete_document, try_except, store_ids.
  destruct (RAGEngine.vector_store self) as [s|s].
  - destruct (OpenSearchStore.delete_document s id w) as [[e|b] w0] eqn:E;
      [discriminate|].
    intros [= -> ->]. by apply opensearch_delete_true.
  - destruct (QdrantStore.delete_document X s id w) as [[e|b] w0] eqn:E;
      [discriminate|].
    intros [= -> ->]. by eapply qdrant_delete_true.
Qed.

(** The ids of the results of a search are ids held by the store. *)
Lemma search_documents_ids X self q org user tags limit w results w' r :
  RAGEngine.search_documents X self q org user tags limit w = (inr results, w') ->
  r ∈ results ->
  sr_id r ∈ store_ids w (RAGEngine.vector_store self).
Proof.
  unfold RAGEngine.search_documents, store_ids. rewrite try_except_reraise.
  destruct (RAGEngine.vector_store self) as [s|s]; intros Hs Hr.
  - apply opensearch_search_inr in Hs as (Hg & ix & Hix & ->).
    destruct (grown_same_ids _ _ Hg (OpenSearchStore.index_name s)) as [<- _].
    apply list_elem_of_fmap in Hr as (h & -> & Hh).
    apply run_search_inv in Hh as (p & Hin & _ & ->). cbn.
    unfold doc_ids. rewrite Hix. apply list_elem_of_fmap. eauto.
  - apply qdrant_search_inr in Hs as (Hg & c & Hc & ->).
    destruct (grown_same_ids _ _ Hg (QdrantStore.collection_name s)) as [_ <-].
    apply list_elem_of_fmap in Hr as (sp & -> & Hsp).
    apply run_query_points_inv in Hsp as (p & Hin & _ & _ & ->). cbn.
    unfold point_ids. rewrite Hc. apply list_elem_of_fmap. eauto.
Qed.

(** X9. When [delete_document] of the orchestrator answers [true], the
    store holds the ids it held before except the deleted one, in the same
    order, and no later search, whatever its query and filters, returns a
    result with that id. *)
Theorem deleted_document_is_not_found X self id w w1 :
  RAGEngine.delete_document X self id w = (inr true, w1) ->
  store_ids w1 (RAGEngine.vector_store self)
  = without id (store_ids w (RAGEngine.vector_store self))
  /\ forall q org user tags limit results w2,
       RAGEngine.search_documents X self q org user tags limit w1 = (inr results, w2) ->
       Forall (fun r => sr_id r <> id) results.
Proof.
  intros Hd. apply engine_delete_true in Hd. split; [exact Hd|].
  intros q org user tags limit results w2 Hs.
  apply Forall_forall. intros r Hr Heq.
  eapply search_documents_ids in Hs; [|exact Hr].
  rewrite Hd, Heq in Hs. by apply not_elem_of_without in Hs.
Qed.

(** The first document of the stored world is deleted; the other two stay. *)
Lemma deleted_document_is_not_found_witness :
  exists w1,
    RAGEngine.delete_document demo opensearch_engine (fst deadline_doc) opensearch_world
    = (inr true, w1)
    /\ store_ids w1 (RAGEngine.vector_store opensearch_engine)
       = [ "00000000-0000-4000-8000-000000000001";
           "00000000-0000-4000-8000-000000000002" ].
Proof.
  eexists.
  assert (E : RAGEngine.delete_document demo opensearch_engine (fst deadline_doc)
                opensearch_world = (inr true, _)) by (vm_compute; reflexivity).
  refine (conj E _).
  rewrite (proj1 (deleted_document_is_not_found demo opensearch_engine _ _ _ E)).
  vm_compute. reflexivity.
Defined.

(** * The document routes *)

Lemma engine_delete_at_fault X self id w e rest :
  schedule w = Fault e :: rest ->
  fst (RAGEngine.delete_document X self id w) = inr false.
Proof.
  intros Hs. unfold RAGEngine.delete_document, try_except.
  destruct (RAGEngine.vector_store self) as [s|s].
  - rewrite opensearch_delete_handler. unfold client_delete, bind.
    by rewrite (external_fault _ _ _ _ Hs).
  - unfold QdrantStore.delete_document, try_except, qdrant_delete, bind.
    by rewrite (external_fault _ _ _ _ Hs).
Qed.

(** X10. [DELETE /documents/{doc_id}] answers 200 or 404 and never 500:
    the orchestrator's [delete_document] never raises, so the route returns
    the success message exactly when it answered [true] and raises the 404
    otherwise.  In particular a store that cannot be reached is reported to
    the client as a document that was not found. *)
Theorem delete_route_reports_outage_as_not_found X rag_engine doc_id w :
  (exists success w',
      RAGEngine.delete_document X rag_engine doc_id w = (inr success, w')
      /\ Documents.delete_document X rag_engine doc_id w
         = (if success then inr "문서가 성공적으로 삭제되었습니다."
            else inl {| status_code := 404;
                        detail := "문서를 찾을 수 없습니다: " ++ doc_id |}, w'))
  /\ forall e rest,
       schedule w = Fault e :: rest ->
       fst (Documents.delete_document X rag_engine doc_id w)
       = inl {| status_code := 404; detail := "문서를 찾을 수 없습니다: " ++ doc_id |}.
Proof.
  assert (Hnr : exists success w',
            RAGEngine.delete_document X rag_engine doc_id w = (inr success, w')).
  { unfold RAGEngine.delete_document, try_except.
    destruct (match RAGEngine.vector_store rag_engine with
              | RAGEngine.OpenSearch s => OpenSearchStore.delete_document s doc_id
              | RAGEngine.Qdrant s => QdrantStore.delete_document X s doc_id
              end w) as [[e|b] w']; eauto. }
  destruct Hnr as (success & w' & Hd). split.
  - exists success, w'. split; [exact Hd|].
    unfold Documents.delete_document. rewrite Hd. by destruct success.
  - intros e rest Hs.
    pose proof (engine_delete_at_fault X rag_engine doc_id w e rest Hs) as Hf.
    unfold Documents.delete_document.
    destruct (RAGEngine.delete_document X rag_engine doc_id w) as [[e'|b] w0];
      cbn in Hf; [discriminate|]. injection Hf as ->. reflexivity.
Qed.

Lemma engine_add_document_inr X self text md org user tags w id w' :
  RAGEngine.add_document X self text md org user tags w = (inr id, w') ->
  id ∈ store_ids w' (RAGEngine.vector_store self).
Proof.
  unfold RAGEngine.add_document, store_ids. rewrite try_except_reraise.
  destruct (RAGEngine.vector_store self) as [s|s]; intros H.
  - apply opensearch_add_document_inr in H as (n & old & d & Hix & _).
    unfold doc_ids. rewrite Hix. cbn. rewrite map_app. cbn.
    apply elem_of_app. right. by apply list_elem_of_singleton.
  - apply qdrant_add_document_inr in H as (n & old & Hc & _).
    unfold point_ids. rewrite Hc. cbn. rewrite map_app. cbn.
    apply elem_of_app. right. by apply list_elem_of_singleton.
Qed.

(** X11. [POST /documents] either returns the id under which the document
    is then held by the store, or raises a 500 whose detail is
    [문서 추가 실패: ] followed by the text of the error, and in that case the
    store holds exactly the ids it held before. *)
Theorem add_route_stores_or_reports X rag_engine request w :
  match Documents.add_document X rag_engine request w with
  | (inr response, w') =>
      DocumentAddResponse.doc_id response ∈ store_ids w' (RAGEngine.vector_store rag_engine)
      /\ DocumentAddResponse.message response = "문서가 성공적으로 추가되었습니다."
  | (inl h, w') =>
      status_code h = 500
      /\ (exists e, detail h = ("문서 추가 실패: " ++ exn_str e)%string)
      /\ store_ids w' (RAGEngine.vector_store rag_engine)
         = store_ids w (RAGEngine.vector_store rag_engine)
  end.
Proof.
  unfold Documents.add_document, or_500, bind.
  destruct (RAGEngine.add_document X rag_engine _ _ _ _ _ w) as [[e|id] w'] eqn:E.
  - split; [done|]. split; [by exists e|].
    apply engine_add_document_inl in E.
    unfold store_ids. destruct (RAGEngine.vector_store rag_engine) as [s|s].
    + by destruct (grown_same_ids _ _ E (OpenSearchStore.index_name s)) as [-> _].
    + by destruct (grown_same_ids _ _ E (QdrantStore.collection_name s)) as [_ ->].
  - cbn. split; [|done]. by eapply engine_add_document_inr.
Qed.

(** X12. A successful [POST /documents/search] returns at most [limit]
    sources, [count] being their number, and each source renders a document
    stored under the organisation of the request. *)
Theorem search_route_answers_within_tenant X rag_engine request w response w' :
  backend_well_formed w (RAGEngine.vector_store rag_engine) ->
  Documents.search_documents X rag_engine request w = (inr response, w') ->
  DocumentSearchResponse.count response
  = length (DocumentSearchResponse.results response)
  /\ DocumentSearchResponse.count response <= DocumentSearchRequest.limit request
  /\ exists results,
       answers_from w (RAGEngine.vector_store rag_engine)
         (DocumentSearchRequest.organization_id request) results
       /\ DocumentSearchResponse.results response = map Documents.to_source results.
Proof.
  intros Hwf H. unfold Documents.search_documents, or_500, bind in H.
  destruct (RAGEngine.search_documents X rag_engine _ _ _ _ _ w) as [[e|results] w1] eqn:E;
    [discriminate|].
  injection H as <- <-. cbn.
  apply search_documents_inr in E as [Hfrom Hlen]; [|exact Hwf].
  split; [done|]. split; [by rewrite length_map|]. by exists results.
Qed.

Lemma search_route_answers_within_tenant_witness :
  exists response w',
    Documents.search_documents demo qdrant_engine
      {| DocumentSearchRequest.query := "deadline";
         DocumentSearchRequest.organization_id := "org_1";
         DocumentSearchRequest.user_id := None;
         DocumentSearchRequest.tags := None;
         DocumentSearchRequest.limit := 5 |} qdrant_world = (inr response, w')
    /\ DocumentSearchResponse.count response = 1.
Proof.
  eexists _, _.
  assert (E : Documents.search_documents demo qdrant_engine
                {| DocumentSearchRequest.query := "deadline";
                   DocumentSearchRequest.organization_id := "org_1";
                   DocumentSearchRequest.user_id := None;
                   DocumentSearchRequest.tags := None;
                   DocumentSearchRequest.limit := 5 |} qdrant_world = (inr _, _))
    by (vm_compute; reflexivity).
  refine (conj E _).
  destruct (search_route_answers_within_tenant demo qdrant_engine _ _ _ _
              qdrant_world_single_tenant E) as (Hc & _).
  rewrite Hc. vm_compute. reflexivity.
Defined.

Lemma external_reachable_grown c w :
  reachable w -> exists w1, external c w = (inr tt, w1) /\ grown w w1.
Proof.
  intros Hr. destruct (external_reachable c w Hr) as (w1 & He & _).
  exists w1. split; [exact He|]. by eapply external_grown.
Qed.

Lemma external_unreachable c w :
  ~ reachable w -> exists e w1, external c w = (inl e, w1).
Proof.
  unfold reachable, external. simpl.
  destruct (schedule w) as [|[|e|index d|name n] rest]; intros H;
    try (by destruct H); eauto.
Qed.

(** [get_index_stats] always returns: the document count of the index when
    the cluster answers, the zero statistics otherwise. *)
Lemma get_index_stats_outcome X self w :
  exists st w',
    OpenSearchStore.get_index_stats X self w = (inr st, w')
    /\ (reachable w ->
        OpenSearchStore.document_count st
        = Z.of_nat (length (doc_ids w (OpenSearchStore.index_name self))))
    /\ (~ reachable w -> st = default_stats self).
Proof.
  unfold OpenSearchStore.get_index_stats, try_except, indices_stats.
  destruct (bind _ _ w) as [[e|st] w'] eqn:E.
  - eexists _, _. split; [reflexivity|]. split; [|done].
    intros Hr. cbn.
    destruct (external_reachable_grown
                (os_indices_stats (OpenSearchStore.index_name self)) w Hr)
      as (w1 & He & Hg).
    unfold bind in E. rewrite He in E. unfold get_world in E.
    destruct (grown_same_ids _ _ Hg (OpenSearchStore.index_name self)) as [<- _].
    unfold doc_ids.
    destruct (indices w1 !! OpenSearchStore.index_name self); [discriminate E|done].
  - exists st, w'. split; [reflexivity|]. split.
    + intros Hr.
      destruct (external_reachable_grown
                  (os_indices_stats (OpenSearchStore.index_name self)) w Hr)
        as (w1 & He & Hg).
      unfold bind in E. rewrite He in E. unfold get_world in E.
      destruct (grown_same_ids _ _ Hg (OpenSearchStore.index_name self)) as [<- _].
      unfold doc_ids.
      destruct (indices w1 !! OpenSearchStore.index_name self); [|discriminate E].
      injection E as <- <-. cbn. by rewrite length_map.
    + intros Hn.
      destruct (external_unreachable
                  (os_indices_stats (OpenSearchStore.index_name self)) w Hn)
        as (e & w1 & He).
      unfold bind in E. rewrite He in E. discriminate E.
Qed.

(** X13. Over the OpenSearch store, [GET /documents/stats] never fails.
    When the cluster answers, [total_documents] is the number of documents
    of the index (0 when the index does not exist); when it cannot be
    reached, the route still answers 200, with [total_documents = 0] and
    the zero statistics, so a count of 0 does not tell an empty index from
    an outage. *)
Theorem stats_route_hides_outage X rag_engine s w :
  RAGEngine.vector_store rag_engine = RAGEngine.OpenSearch s ->
  exists response w',
    Documents.get_stats X rag_engine w = (inr response, w')
    /\ StatsResponse.llm_model response = RAGEngine.llm_model rag_engine
    /\ (reachable w ->
        StatsResponse.total_documents response
        = Z.of_nat (length (doc_ids w (OpenSearchStore.index_name s))))
    /\ (~ reachable w ->
        StatsResponse.total_documents response = 0%Z
        /\ StatsResponse.vector_store response = inl (default_stats s)).
Proof.
  intros Hs.
  destruct (get_index_stats_outcome X s w) as (st & w' & Hst & Hok & Hdown).
  unfold Documents.get_stats, or_500, RAGEngine.get_stats.
  unfold bind at 1. rewrite try_except_reraise, Hs.
  unfold bind. rewrite Hst. cbn.
  eexists _, _. split; [reflexivity|]. cbn. split; [done|]. split; [exact Hok|].
  intros Hn. rewrite (Hdown Hn). by split.
Qed.

(** The stored cluster holds three documents; when it is down the route
    reports none. *)
Lemma stats_route_hides_outage_witness :
  (exists response w',
      Documents.get_stats demo opensearch_engine opensearch_world = (inr response, w')
      /\ StatsResponse.total_documents response = 3%Z)
  /\ (exists response w',
      Documents.get_stats demo opensearch_engine opensearch_down = (inr response, w')
      /\ StatsResponse.total_documents response = 0%Z).
Proof.
  split.
  - destruct (stats_route_hides_outage demo opensearch_engine demo_index
                opensearch_world eq_refl) as (response & w' & E & _ & Hok & _).
    exists response, w'. refine (conj E _).
    rewrite (Hok I). vm_compute. reflexivity.
  - destruct (stats_route_hides_outage demo opensearch_engine demo_index
                opensearch_down eq_refl) as (response & w' & E & _ & _ & Hdown).
    exists response, w'. refine (conj E _).
    apply Hdown. vm_compute. intros H. exact H.
Defined.

(** * Statistics *)

Lemma opensearch_add_document_ids X self text md org user tags w id w' :
  OpenSearchStore.add_document X self text md org user tags w = (inr id, w') ->
  doc_ids w' (OpenSearchStore.index_name self)
  = without id (doc_ids w (OpenSearchStore.index_name self)) ++ [id].
Proof.
  unfold OpenSearchStore.add_document. rewrite try_except_reraise. intros H.
  apply bind_inr in H as (v & w1 & Hemb & H).
  unfold OpenSearchStore._create_embedding in Hemb.
  rewrite try_except_reraise in Hemb.
  apply embeddings_create_inr in Hemb as [-> Hg1].
  apply bind_inr in H as (doc_id & w2 & Hid & H). injection Hid as <- <-.
  apply bind_inr in H as (w3 & w4 & Hget & H). injection Hget as <- <-.
  apply bind_inr in H as ([] & w5 & Hidx & H). injection H as <- <-.
  unfold client_index in Hidx.
  apply bind_inr in Hidx as ([] & w6 & Hext & Hmod). injection Hmod as <-.
  apply external_grown in Hext.
  pose proof (grown_trans _ _ _ Hg1 (grown_trans _ _ _ (grown_bump_uuid w1) Hext)) as Hg.
  destruct (grown_same_ids _ _ Hg (OpenSearchStore.index_name self)) as [<- _].
  unfold doc_ids. cbn. rewrite lookup_insert_eq. cbn.
  rewrite map_app, drop_id_ids. cbn.
  by destruct (indices w6 !! OpenSearchStore.index_name self).
Qed.

Lemma qdrant_add_document_ids X self text md org user w id w' :
  QdrantStore.add_document X self text md org user w = (inr id, w') ->
  point_ids w' (QdrantStore.collection_name self)
  = without id (point_ids w (QdrantStore.collection_name self)) ++ [id].
Proof.
  intros H. apply qdrant_add_document_inr in H as (n & old & Hc & _ & _ & Hold).
  unfold point_ids at 1. rewrite Hc. cbn. rewrite map_app, drop_points_ids. cbn.
  by rewrite <- Hold.
Qed.

Lemma engine_add_document_ids X self text md org user tags w id w' :
  RAGEngine.add_document X self text md org user tags w = (inr id, w') ->
  store_ids w' (RAGEngine.vector_store self)
  = without id (store_ids w (RAGEngine.vector_store self)) ++ [id].
Proof.
  unfold RAGEngine.add_document, store_ids. rewrite try_except_reraise.
  destruct (RAGEngine.vector_store self) as [s|s].
  - apply opensearch_add_document_ids.
  - apply qdrant_add_document_ids.
Qed.

(** [get_collection_info] against a server that answers: the counts are
    the ones the server reports, 0 for a count reported as [None]; an
    attribute that the collection info lacks makes it raise. *)
Lemma get_collection_info_reachable X self w c :
  reachable w ->
  collections w !! QdrantStore.collection_name self = Some c ->
  exists w',
    QdrantStore.get_collection_info X self w
    = (match vectors_count_of X (col_points c),
             indexed_vectors_count_of X (col_points c) with
       | Some v, Some i =>
           inr {| QdrantStore.name := QdrantStore.collection_name self;
                  QdrantStore.vectors_count := QdrantStore.or_zero v;
                  QdrantStore.indexed_vectors_count := QdrantStore.or_zero i;
                  QdrantStore.points_count := Z.of_nat (length (col_points c)) |}
       | None, _ => inl (no_attribute "vectors_count")
       | Some _, None => inl (no_attribute "indexed_vectors_count")
       end, w').
Proof.
  intros Hr Hc.
  destruct (external_reachable_grown
              (qd_get_collection (QdrantStore.collection_name self)) w Hr)
    as (w1 & He & Hg).
  exists w1. unfold QdrantStore.get_collection_info. rewrite try_except_reraise.
  unfold get_collection, bind. rewrite He. unfold get_world.
  rewrite (grown_collection_kept _ _ _ _ Hg Hc). cbn.
  destruct (vectors_count_of X (col_points c)) as [v|]; [|reflexivity]. cbn.
  destruct (indexed_vectors_count_of X (col_points c)) as [i|]; reflexivity.
Qed.

Lemma without_absent id ids : id ∉ ids -> without id ids = ids.
Proof.
  unfold without. induction ids as [|i ids IH]; [done|]. intros Hn.
  apply not_elem_of_cons in Hn as [Hne Hn]. cbn.
  destruct (String.eqb i id) eqn:E.
  - apply String.eqb_eq in E. congruence.
  - cbn. by rewrite IH.
Qed.

(** X14. A successful [add_document] of the orchestrator appends the new id
    to the ids of the store, after removing an older entry of the same id.
    When the store then answers, [get_stats] over the OpenSearch store
    counts the document: for an id that was not held before,
    [total_documents] is one more than the number of ids held before the
    call.  Over the Qdrant store [total_documents] is not a count of the
    stored points: it is the [vectors_count] that the server reports, 0
    when it reports [None], and [get_stats] raises when the collection info
    of the client has no such attribute. *)
Theorem added_document_is_counted X self text md org user tags w id w1 :
  RAGEngine.add_document X self text md org user tags w = (inr id, w1) ->
  store_ids w1 (RAGEngine.vector_store self)
  = without id (store_ids w (RAGEngine.vector_store self)) ++ [id]
  /\ (reachable w1 ->
      id ∉ store_ids w (RAGEngine.vector_store self) ->
      match RAGEngine.vector_store self with
      | RAGEngine.OpenSearch s =>
          exists st w2,
            RAGEngine.get_stats X self w1 = (inr st, w2)
            /\ RAGEngine.total_documents st
               = Z.of_nat (S (length (doc_ids w (OpenSearchStore.index_name s))))
      | RAGEngine.Qdrant s =>
          let points := collection_points w1 (QdrantStore.collection_name s) in
          match vectors_count_of X points, indexed_vectors_count_of X points with
          | Some v, Some _ =>
              exists st w2,
                RAGEngine.get_stats X self w1 = (inr st, w2)
                /\ RAGEngine.total_documents st = QdrantStore.or_zero v
          | None, _ =>
              fst (RAGEngine.get_stats X self w1) = inl (no_attribute "vectors_count")
          | Some _, None =>
              fst (RAGEngine.get_stats X self w1)
              = inl (no_attribute "indexed_vectors_count")
          end
      end).
Proof.
  intros H. pose proof (engine_add_document_ids _ _ _ _ _ _ _ _ _ _ H) as Hids.
  split; [exact Hids|]. intros Hr Hfresh.
  unfold RAGEngine.add_document in H. rewrite try_except_reraise in H.
  unfold RAGEngine.get_stats. rewrite try_except_reraise.
  destruct (RAGEngine.vector_store self) as [s|s]; unfold store_ids in Hids, Hfresh.
  - destruct (get_index_stats_outcome X s w1) as (st & w2 & Hst & Hok & _).
    eexists _, _. unfold bind. rewrite Hst. cbn. split; [reflexivity|]. cbn.
    rewrite (Hok Hr), Hids, without_absent by done.
    rewrite length_app. cbn. f_equal. lia.
  - apply qdrant_add_document_inr in H as (n & old & Hc & _).
    destruct (get_collection_info_reachable X s w1 _ Hr Hc) as (w2 & Hinfo).
    unfold collection_points. rewrite Hc. cbn zeta. cbn [col_points] in *.
    destruct (vectors_count_of X _) as [v|];
      [destruct (indexed_vectors_count_of X _) as [i|]|];
      unfold bind; rewrite Hinfo; cbn; try reflexivity.
    eexists _, _. split; reflexivity.
Qed.

(** A fourth document is added to the stored index and counted. *)
Lemma added_document_is_counted_witness :
  exists id st w2,
    RAGEngine.add_document demo opensearch_engine "Release notes of Project C"
      {[ "title" := VStr "notes" ]} "org_3" None (Some ["projectC"]) opensearch_world
    = (inr id, release_notes_world)
    /\ RAGEngine.get_stats demo opensearch_engine release_notes_world = (inr st, w2)
    /\ RAGEngine.total_documents st = 4%Z.
Proof.
  eexists.
  assert (E : RAGEngine.add_document demo opensearch_engine "Release notes of Project C"
                {[ "title" := VStr "notes" ]} "org_3" None (Some ["projectC"])
                opensearch_world
              = (inr "00000000-0000-4000-8000-000000000003", release_notes_world))
    by (vm_compute; reflexivity).
  destruct (proj2 (added_document_is_counted demo opensearch_engine _ _ _ _ _ _ _ _ E))
    as (st & w2 & Hst & Hn).
  - assert (Hr : match schedule release_notes_world with
                 | Fault _ :: _ => false
                 | _ => true
                 end = true) by (vm_compute; reflexivity).
    unfold reachable. by destruct (schedule release_notes_world) as [|[] ?].
  - apply mem_str_false. vm_compute. reflexivity.
  - exists st, w2. refine (conj E (conj Hst _)).
    rewrite Hn. vm_compute. reflexivity.
Defined.

(** * The chat route *)

Lemma chat_completions_create_read_only X model messages temp max_tok :
  read_only (RAGEngine.chat_completions_create X model messages temp max_tok).
Proof.
  intros w. unfold RAGEngine.chat_completions_create.
  apply (bind_keeps undisturbed); [apply undisturbed_trans|apply external_read_only|].
  intros _ w1. apply undisturbed_refl.
Qed.

Lemma search_documents_read_only X self q org user tags limit :
  read_only (RAGEngine.search_documents X self q org user tags limit).
Proof.
  intros w. unfold RAGEngine.search_documents. rewrite try_except_reraise.
  destruct (RAGEngine.vector_store self) as [s|s].
  - apply opensearch_search_read_only.
  - apply qdrant_search_read_only.
Qed.

Lemma generate_answer_read_only X self q org user limit :
  read_only (RAGEngine.generate_answer X self q org user limit).
Proof.
  intros w. unfold RAGEngine.generate_answer. rewrite try_except_reraise.
  apply (bind_keeps undisturbed);
    [apply undisturbed_trans|apply search_documents_read_only|].
  intros [|r rs] w1.
  - unfold RAGEngine._generate_without_context.
    apply (bind_keeps undisturbed);
      [apply undisturbed_trans|apply chat_completions_create_read_only|].
    intros reply w2. apply undisturbed_refl.
  - apply (bind_keeps undisturbed);
      [apply undisturbed_trans|apply chat_completions_create_read_only|].
    intros reply w2. apply undisturbed_refl.
Qed.

Lemma openai_generate_read_only X self messages temp max_tok :
  read_only (OpenAIClient.generate X self messages temp max_tok).
Proof.
  intros w. unfold OpenAIClient.generate. rewrite try_except_reraise.
  apply (bind_keeps undisturbed);
    [apply undisturbed_trans|apply chat_completions_create_read_only|].
  intros reply w2. apply undisturbed_refl.
Qed.

Lemma is_hex_not_hyphen c : is_hex c = true -> Ascii.eqb c "-" = false.
Proof.
  destruct c as [[] [] [] [] [] [] [] []]; intros H; try reflexivity;
    vm_compute in H; discriminate H.
Qed.

(** The first twelve characters of the [hex] form of a canonical id:
    twelve hexadecimal digits. *)
Lemma canonical_uuid_hex_prefix s :
  is_canonical_uuid s = true ->
  String.length (String.substring 0 12 (Chat.hex_of_uuid s)) = 12
  /\ all_hex (String.substring 0 12 (Chat.hex_of_uuid s)) = true.
Proof.
  unfold is_canonical_uuid. intros H.
  do 13 (destruct s as [|? s]; [discriminate H|];
         cbn [uuid_shape Nat.eqb orb] in H; apply andb_prop in H as [? H]).
  cbn [Chat.hex_of_uuid].
  repeat match goal with
         | Hc : is_hex ?c = true |- _ =>
             rewrite (is_hex_not_hyphen c Hc); revert Hc
         end.
  match goal with Hc : Ascii.eqb _ _ = true |- _ => rewrite Hc end.
  intros. cbn [String.substring String.length all_hex].
  assert (E0 : forall t, String.substring 0 0 t = EmptyString) by (by intros []).
  rewrite E0. cbn [String.length all_hex].
  split; [reflexivity|].
  repeat match goal with Hc : is_hex _ = true |- _ => rewrite Hc; clear Hc end.
  reflexivity.
Qed.

Lemma session_id_of_outcome X request w :
  exists sid w1,
    Chat.session_id_of X request w = (inr sid, w1)
    /\ grown w w1 /\ trace w1 = trace w /\ schedule w1 = schedule w
    /\ indices w1 = indices w /\ collections w1 = collections w
    /\ (truthy_str (ChatRequest.session_id request) = true ->
        Some sid = ChatRequest.session_id request
        /\ uuid_counter w1 = uuid_counter w)
    /\ (truthy_str (ChatRequest.session_id request) = false ->
        uuid_counter w1 = S (uuid_counter w)
        /\ sid = ("sess_"
                  ++ String.substring 0 12 (Chat.hex_of_uuid (uuid4 X (uuid_counter w))))%string).
Proof.
  unfold Chat.session_id_of.
  destruct (ChatRequest.session_id request) as [s|];
    [destruct (truthy_str (Some s)) eqn:Ht|]; cbn;
    eexists _, _; (split; [reflexivity|]);
    repeat split; try done; try apply grown_refl; apply grown_bump_uuid.
Qed.

(** X15. A request to [POST /chat] that is answered leaves the stores as
    they were.  A non-empty [session_id] of the request is echoed and no id
    is drawn; without one (or with the empty string) one id is drawn and the
    session id is [sess_] followed by the first twelve characters of its
    [hex] form, which for a canonical UUID are twelve hexadecimal digits. *)
Theorem chat_session_id X rag_engine openai_client request w response w' :
  Chat.chat X rag_engine openai_client request w = (inr response, w') ->
  grown w w'
  /\ (truthy_str (ChatRequest.session_id request) = true ->
      Some (ChatResponse.session_id response) = ChatRequest.session_id request
      /\ uuid_counter w' = uuid_counter w)
  /\ (truthy_str (ChatRequest.session_id request) = false ->
      uuid_counter w' = S (uuid_counter w)
      /\ exists h,
           ChatResponse.session_id response = ("sess_" ++ h)%string
           /\ h = String.substring 0 12 (Chat.hex_of_uuid (uuid4 X (uuid_counter w)))
           /\ (is_canonical_uuid (uuid4 X (uuid_counter w)) = true ->
               String.length h = 12 /\ all_hex h = true)).
Proof.
  intros H. unfold Chat.chat in H.
  destruct (session_id_of_outcome X request w)
    as (sid & w1 & Hsid & Hg1 & _ & _ & _ & _ & Hgiven & Hdrawn).
  rewrite Hsid in H. unfold or_500 in H.
  assert (Hrest : undisturbed w1 w' /\ ChatResponse.session_id response = sid).
  { destruct (ChatRequest.use_rag request).
    - pose proof (generate_answer_read_only X rag_engine
                    (ChatRequest.message request) (ChatRequest.organization_id request)
                    (ChatRequest.user_id request) RAGEngine.default_limit w1) as Hro.
      unfold bind in H at 1.
      destruct (RAGEngine.generate_answer X rag_engine _ _ _ _ w1) as [[e|a] w2];
        [discriminate H|].
      cbn in H, Hro. injection H as <- <-. by split.
    - pose proof (openai_generate_read_only X openai_client
                    [ {| role := "system"; content := Chat.general_system_prompt |};
                      {| role := "user"; content := ChatRequest.message request |} ]
                    None None w1) as Hro.
      unfold bind in H at 1.
      destruct (OpenAIClient.generate X openai_client _ None None w1) as [[e|a] w2];
        [discriminate H|].
      cbn in H, Hro. injection H as <- <-. by split. }
  destruct Hrest as [[Hg2 Hu] ->].
  split; [by eapply grown_trans|]. split.
  - intros Ht. destruct (Hgiven Ht) as [-> Hu1]. split; [done|congruence].
  - intros Ht. destruct (Hdrawn Ht) as [Hu1 ->]. split; [congruence|].
    eexists. split; [reflexivity|]. split; [reflexivity|].
    apply canonical_uuid_hex_prefix.
Qed.

(** A chat request without a session id, in general mode. *)
Lemma chat_session_id_witness :
  exists response w',
    Chat.chat demo opensearch_engine (OpenAIClient.of_settings default_settings)
      {| ChatRequest.message := "hello";
         ChatRequest.organization_id := "org_1";
         ChatRequest.user_id := None;
         ChatRequest.session_id := None;
         ChatRequest.use_rag := false |} opensearch_world = (inr response, w')
    /\ ChatResponse.session_id response = "sess_000000000000"
    /\ uuid_counter w' = 4.
Proof.
  eexists _, _.
  assert (E : Chat.chat demo opensearch_engine (OpenAIClient.of_settings default_settings)
                {| ChatRequest.message := "hello";
                   ChatRequest.organization_id := "org_1";
                   ChatRequest.user_id := None;
                   ChatRequest.session_id := None;
                   ChatRequest.use_rag := false |} opensearch_world = (inr _, _))
    by (vm_compute; reflexivity).
  refine (conj E _).
  destruct (chat_session_id demo opensearch_engine _ _ _ _ _ E)
    as (_ & _ & Hdrawn).
  destruct (Hdrawn eq_refl) as (Hu & h & Hs & Hh & _).
  split.
  - rewrite Hs, Hh. vm_compute. reflexivity.
  - rewrite Hu. vm_compute. reflexivity.
Defined.

Lemma openai_generate_outcome X self messages temp max_tok w :
  exists r w',
    OpenAIClient.generate X self messages temp max_tok w = (r, w')
    /\ trace w' = trace w ++ [openai_chat (OpenAIClient.model self) messages]
    /\ forall reply, r = inr reply ->
         reply = OpenAIClient.content_or_empty
                   (chat_model X (OpenAIClient.model self) messages
                      (OpenAIClient.temperature_or temp (OpenAIClient.temperature self))
                      (OpenAIClient.max_tokens_or max_tok (OpenAIClient.max_tokens self))).
Proof.
  unfold OpenAIClient.generate. rewrite try_except_reraise.
  unfold RAGEngine.chat_completions_create, bind.
  destruct (external (openai_chat (OpenAIClient.model self) messages) w)
    as [[e|[]] w1] eqn:E; apply external_trace in E;
    eexists _, _; (split; [reflexivity|]); (split; [exact E|]);
    intros reply [= <-]; reflexivity.
Qed.

(** X16. With [use_rag] off, [POST /chat] makes exactly one outgoing call,
    the chat completion with the configured model on the general system
    prompt followed by the user's message; no embedding is computed and no
    store is searched.  When the call is served the response carries the
    reply (at the temperature and token limit of the settings), no sources
    and the general suggestions; when it fails the route raises a 500 whose
    detail is [답변 생성 실패: ] followed by the text of the error. *)
Theorem chat_general_mode_calls_model_once X rag_engine openai_client request w :
  ChatRequest.use_rag request = false ->
  match Chat.chat X rag_engine openai_client request w with
  | (inr response, w') =>
      trace w'
      = trace w ++ [openai_chat (OpenAIClient.model openai_client)
                      (general_messages (ChatRequest.message request))]
      /\ ChatResponse.message response
         = OpenAIClient.content_or_empty
             (chat_model X (OpenAIClient.model openai_client)
                (general_messages (ChatRequest.message request))
                (OpenAIClient.temperature openai_client)
                (OpenAIClient.max_tokens openai_client))
      /\ ChatResponse.sources response = None
      /\ ChatResponse.suggestions response = Some Chat.general_suggestions
  | (inl h, w') =>
      trace w'
      = trace w ++ [openai_chat (OpenAIClient.model openai_client)
                      (general_messages (ChatRequest.message request))]
      /\ status_code h = 500
      /\ exists e, detail h = ("답변 생성 실패: " ++ exn_str e)%string
  end.
Proof.
  intros Hmode. unfold Chat.chat.
  destruct (session_id_of_outcome X request w)
    as (sid & w1 & Hsid & _ & Ht1 & _).
  rewrite Hsid, Hmode. unfold or_500, bind at 1.
  destruct (openai_generate_outcome X openai_client
              (general_messages (ChatRequest.message request)) None None w1)
    as (r & w2 & Hgen & Ht2 & Hreply).
  unfold general_messages in Hgen. rewrite Hgen. rewrite Ht1 in Ht2.
  destruct r as [e|reply]; cbn.
  - split; [exact Ht2|]. split; [done|]. by exists e.
  - split; [exact Ht2|]. split; [|done]. by apply Hreply.
Qed.

Lemma chat_general_mode_calls_model_once_witness :
  exists response w',
    Chat.chat demo opensearch_engine (OpenAIClient.of_settings default_settings)
      {| ChatRequest.message := "hello";
         ChatRequest.organization_id := "org_1";
         ChatRequest.user_id := None;
         ChatRequest.session_id := Some "sess_abc";
         ChatRequest.use_rag := false |} opensearch_world = (inr response, w')
    /\ ChatResponse.sources response = None.
Proof.
  eexists _, _.
  assert (E : Chat.chat demo opensearch_engine (OpenAIClient.of_settings default_settings)
                {| ChatRequest.message := "hello";
                   ChatRequest.organization_id := "org_1";
                   ChatRequest.user_id := None;
                   ChatRequest.session_id := Some "sess_abc";
                   ChatRequest.use_rag := false |} opensearch_world = (inr _, _))
    by (vm_compute; reflexivity).
  refine (conj E _).
  pose proof (chat_general_mode_calls_model_once demo opensearch_engine
                (OpenAIClient.of_settings default_settings) _ opensearch_world
                (eq_refl : ChatRequest.use_rag
                             {| ChatRequest.message := "hello";
                                ChatRequest.organization_id := "org_1";
                                ChatRequest.user_id := None;
                                ChatRequest.session_id := Some "sess_abc";
                                ChatRequest.use_rag := false |} = false)) as H.
  rewrite E in H. exact (proj1 (proj2 (proj2 H))).
Defined.

Lemma grown_answers_from w w1 b org results :
  grown w w1 -> answers_from w1 b org results -> answers_from w b org results.
Proof.
  intros Hg. destruct b as [s|s]; cbn.
  - intros (hits & -> & Hall). exists hits. split; [done|].
    eapply Forall_impl; [exact Hall|]. intros h [Hst Ho]. split; [|done].
    by eapply grown_stored_doc.
  - intros (points & -> & Hall). exists points. split; [done|].
    eapply Forall_impl; [exact Hall|]. intros sp (p & Hst & Hrest).
    exists p. split; [by eapply grown_stored_point|done].
Qed.

Lemma grown_backend_well_formed w w1 b :
  grown w w1 -> backend_well_formed w b -> backend_well_formed w1 b.
Proof. destruct b as [s|s]; cbn; [done|]. apply grown_single_tenant. Qed.

Lemma rewrap_sources (l : list RAGEngine.Source) :
  map (fun src =>
         {| RAGEngine.src_text := RAGEngine.src_text src;
            RAGEngine.src_score := RAGEngine.src_score src;
            RAGEngine.src_metadata := RAGEngine.src_metadata src |}) l = l.
Proof. induction l as [|[t s m] l IH]; [done|]. cbn. by rewrite IH. Qed.

(** X17. With [use_rag] on, an answered [POST /chat] carries the reply of
    the chat model to the prompt built from the retrieved results, and as
    sources these results: at most five renderings of documents stored
    under the organisation of the request, or no [sources] field at all
    when nothing was retrieved. *)
Theorem chat_rag_mode_cites_tenant_documents X rag_engine openai_client request w
    response w' :
  ChatRequest.use_rag request = true ->
  backend_well_formed w (RAGEngine.vector_store rag_engine) ->
  Chat.chat X rag_engine openai_client request w = (inr response, w') ->
  exists results,
    answers_from w (RAGEngine.vector_store rag_engine)
      (ChatRequest.organization_id request) results
    /\ length results <= 5
    /\ ChatResponse.sources response
       = match results with
         | [] => None
         | _ :: _ => Some (map RAGEngine.source_of results)
         end
    /\ ChatResponse.message response
       = chat_model X (RAGEngine.llm_model rag_engine)
           (prompt_messages (ChatRequest.message request) results)
           (RAGEngine.temperature rag_engine) (RAGEngine.max_tokens rag_engine)
    /\ ChatResponse.suggestions response = Some Chat.rag_suggestions.
Proof.
  intros Hmode Hwf H. unfold Chat.chat in H.
  destruct (session_id_of_outcome X request w) as (sid & w1 & Hsid & Hg1 & _).
  rewrite Hsid, Hmode in H. unfold or_500, bind at 1 in H.
  destruct (RAGEngine.generate_answer X rag_engine _ _ _ _ w1) as [[e|a] w2] eqn:E;
    [discriminate H|].
  cbn in H. injection H as <- <-. cbn.
  apply generate_answer_inr in E
    as (results & w3 & _ & Hfrom & Hlen & Hsrc & _ & Hans & _);
    [|by eapply grown_backend_well_formed].
  exists results. split; [by eapply grown_answers_from|]. split; [exact Hlen|].
  rewrite rewrap_sources, Hsrc, Hans. split; [by destruct results|]. by split.
Qed.

(** A question of [org_1] in retrieval mode. *)
Lemma chat_rag_mode_cites_tenant_documents_witness :
  exists response w' sources,
    Chat.chat demo qdrant_engine (OpenAIClient.of_settings default_settings)
      deadline_question qdrant_world = (inr response, w')
    /\ ChatResponse.sources response = Some sources
    /\ length sources = 1.
Proof.
  eexists _, _, _.
  assert (E : Chat.chat demo qdrant_engine (OpenAIClient.of_settings default_settings)
                deadline_question qdrant_world = (inr _, _))
    by (vm_compute; reflexivity).
  refine (conj E _).
  destruct (chat_rag_mode_cites_tenant_documents demo qdrant_engine _ deadline_question
              _ _ _ eq_refl qdrant_world_single_tenant E) as (results & _ & _ & _ & _).
  split; reflexivity.
Defined.

(** * The chat client and the constructors *)



Lemma ensure_index_at_fault self w e rest :
  schedule w = Fault e :: rest ->
  already_exists_error e = false ->
  fst (OpenSearchStore._ensure_index self w) = inl e.
Proof.
  intros Hs He. rewrite ensure_index_handler.
  unfold indices_exists, bind. rewrite (external_fault _ _ _ _ Hs).
  by rewrite He.
Qed.

Lemma ensure_index_quiet self w :
  schedule w = [] ->
  exists w',
    OpenSearchStore._ensure_index self w = (inr tt, w')
    /\ schedule w' = []
    /\ collections w' = collections w
    /\ indices w'
       = match indices w !! OpenSearchStore.index_name self with
         | Some _ => indices w
         | None =>
             <[OpenSearchStore.index_name self :=
                 {| ix_dimension := 3072; ix_docs := [] |}]> (indices w)
         end.
Proof.
  intros H0. unfold OpenSearchStore._ensure_index, try_except, bind,
    indices_exists, indices_create, external, get_world, ret, modify, raise, bind.
  simpl. rewrite H0. simpl.
  destruct (indices w !! OpenSearchStore.index_name self) as [ix|] eqn:Hix; simpl.
  - eexists. repeat split; simpl; eauto.
  - rewrite H0. simpl. rewrite Hix. simpl.
    eexists. repeat split; simpl; eauto.
Qed.

(** X19. [RAGEngine()] with its defaults, against a cluster that answers,
    returns an engine over an OpenSearch store on the configured index with
    the model [gpt-4o], temperature 0.7 and 2000 tokens; the index exists
    afterwards, created empty with 3072 dimensions when it was missing, and
    an index that existed keeps its documents.  When the first call to the
    cluster fails with an error other than the already-exists one, the
    constructor raises that error, so no engine is obtained. *)
Theorem engine_construction_ensures_index settings w :
  (schedule w = [] ->
   exists w',
     rag_engine_default settings w
     = (inr {| RAGEngine.vector_store :=
                 RAGEngine.OpenSearch
                   {| OpenSearchStore.index_name := opensearch_index settings |};
               RAGEngine.llm_model := "gpt-4o";
               RAGEngine.temperature := 7 # 10;
               RAGEngine.max_tokens := 2000 |}, w')
     /\ collections w' = collections w
     /\ indices w'
        = match indices w !! opensearch_index settings with
          | Some _ => indices w
          | None =>
              <[opensearch_index settings :=
                  {| ix_dimension := 3072; ix_docs := [] |}]> (indices w)
          end)
  /\ (forall e rest,
        schedule w = Fault e :: rest ->
        already_exists_error e = false ->
        fst (rag_engine_default settings w) = inl e).
Proof.
  unfold rag_engine_default, rag_engine_init, opensearch_store_init. split.
  - intros Hq.
    destruct (ensure_index_quiet
                {| OpenSearchStore.index_name := opensearch_index settings |} w Hq)
      as (w' & He & _ & Hc & Hi).
    exists w'. unfold bind. rewrite He. cbn. by repeat split.
  - intros e rest Hs He.
    pose proof (ensure_index_at_fault
                  {| OpenSearchStore.index_name := opensearch_index settings |}
                  w e rest Hs He) as Hf.
    unfold bind.
    destruct (OpenSearchStore._ensure_index _ w) as [[e'|[]] w']; cbn in Hf |- *;
      congruence.
Qed.

(** * Invariants of the stored ids *)

Lemma NoDup_map_List_filter {A B} (g : A -> B) (f : A -> bool) l :
  NoDup (map g l) -> NoDup (map g (List.filter f l)).
Proof.
  induction l as [|a l IH]; [done|]. cbn. intros [Hn Hl]%NoDup_cons.
  destruct (f a); [|by apply IH]. cbn. apply NoDup_cons. split; [|by apply IH].
  intros Hin. apply Hn. apply list_elem_of_fmap in Hin as (b & -> & Hb).
  apply elem_of_List_filter in Hb as [Hb _]. apply list_elem_of_fmap. eauto.
Qed.

Lemma NoDup_map_take_rank {A B} (g : A -> B) (score : A -> Q) n l :
  NoDup (map g l) -> NoDup (map g (take n (rank score l))).
Proof.
  intros H. change (map g (take n (rank score l))) with (g <$> take n (rank score l)).
  rewrite fmap_take. apply (sublist_NoDup _ (g <$> rank score l)); [|apply sublist_take].
  unfold rank. by rewrite merge_sort_Permutation.
Qed.

Lemma NoDup_without id ids : NoDup ids -> NoDup (without id ids).
Proof.
  unfold without. induction ids as [|i ids IH]; [done|].
  intros [Hn Hl]%NoDup_cons. cbn.
  destruct (negb (String.eqb i id)); [|by apply IH].
  apply NoDup_cons. split; [|by apply IH].
  intros Hin. apply elem_of_List_filter in Hin as [Hin _]. by apply Hn.
Qed.

Lemma NoDup_without_snoc id ids : NoDup ids -> NoDup (without id ids ++ [id]).
Proof.
  intros H. apply NoDup_app. split; [by apply NoDup_without|]. split.
  - intros x Hx Hin. apply list_elem_of_singleton in Hin as ->.
    by apply not_elem_of_without in Hx.
  - apply NoDup_singleton.
Qed.

Lemma qdrant_delete_inl X name id w e w' :
  qdrant_delete X name id w = (inl e, w') -> grown w w'.
Proof.
  unfold qdrant_delete. intros H.
  apply bind_inl in H as [H|([] & w1 & Hext & H)]; [by eapply external_grown|].
  apply external_grown in Hext.
  apply bind_inl in H as [H|(w2 & w3 & Hget & H)]; [discriminate H|].
  injection Hget as <- <-.
  destruct (collections w1 !! name); [|by injection H as _ <-].
  destruct (valid_point_id X id); [discriminate H|by injection H as _ <-].
Qed.

(** Whatever [delete_document] of the orchestrator answers, the store
    holds the ids it held, or these without the given one. *)
Lemma engine_delete_ids X self id w r w' :
  RAGEngine.delete_document X self id w = (r, w') ->
  store_ids w' (RAGEngine.vector_store self) = store_ids w (RAGEngine.vector_store self)
  \/ store_ids w' (RAGEngine.vector_store self)
     = without id (store_ids w (RAGEngine.vector_store self)).
Proof.
  unfold RAGEngine.delete_document, try_except, store_ids.
  destruct (RAGEngine.vector_store self) as [s|s].
  - rewrite opensearch_delete_handler.
    destruct (bind _ _ w) as [[e|b] w0] eqn:E; intros [= <- <-].
    + left. apply bind_inl in E as [E|([] & w1 & _ & E)]; [|discriminate E].
      unfold client_delete in E.
      apply bind_inl in E as [E|([] & w1 & Hext & E)].
      * apply external_grown in E.
        by destruct (grown_same_ids _ _ E (OpenSearchStore.index_name s)) as [-> _].
      * apply external_grown in Hext.
        destruct (grown_same_ids _ _ Hext (OpenSearchStore.index_name s)) as [<- _].
        apply bind_inl in E as [E|(w2 & w3 & Hget & E)]; [discriminate E|].
        injection Hget as <- <-.
        destruct (indices w1 !! OpenSearchStore.index_name s) as [ix|];
          [|by injection E as _ <-].
        destruct (has_id id (ix_docs ix)); [discriminate E|by injection E as _ <-].
    + right. apply opensearch_delete_true. rewrite opensearch_delete_handler, E.
      apply bind_inr in E as ([] & w1 & _ & Hret). by injection Hret as <- <-.
  - unfold QdrantStore.delete_document, try_except.
    destruct (bind _ _ w) as [[e|b] w0] eqn:E; intros [= <- <-].
    + left. apply bind_inl in E as [E|([] & w1 & _ & E)]; [|discriminate E].
      by destruct (grown_same_ids _ _ (qdrant_delete_inl _ _ _ _ _ _ E)
                     (QdrantStore.collection_name s)) as [_ ->].
    + right. eapply qdrant_delete_true.
      unfold QdrantStore.delete_document, try_except. rewrite E.
      apply bind_inr in E as ([] & w1 & _ & Hret). by injection Hret as <- <-.
Qed.

Lemma search_documents_unique_ids X self q org user tags limit w results w' :
  NoDup (store_ids w (RAGEngine.vector_store self)) ->
  RAGEngine.search_documents X self q org user tags limit w = (inr results, w') ->
  NoDup (map sr_id results).
Proof.
  unfold RAGEngine.search_documents, store_ids. rewrite try_except_reraise.
  destruct (RAGEngine.vector_store self) as [s|s]; intros Hnd Hs.
  - apply opensearch_search_inr in Hs as (Hg & ix & Hix & ->).
    destruct (grown_same_ids _ _ Hg (OpenSearchStore.index_name s)) as [E _].
    rewrite <- E in Hnd. unfold doc_ids in Hnd. rewrite Hix in Hnd.
    rewrite map_map. cbn.
    change (map (fun x => hit_id x)) with (map hit_id).
    unfold run_search. apply NoDup_map_take_rank.
    rewrite map_map. cbn. by apply NoDup_map_List_filter.
  - apply qdrant_search_inr in Hs as (Hg & c & Hc & ->).
    destruct (grown_same_ids _ _ Hg (QdrantStore.collection_name s)) as [_ E].
    rewrite <- E in Hnd. unfold point_ids in Hnd. rewrite Hc in Hnd.
    rewrite map_map. cbn.
    change (map (fun x => sp_id x)) with (map sp_id).
    unfold run_query_points. apply NoDup_map_take_rank, NoDup_map_List_filter.
    rewrite map_map. cbn. by apply NoDup_map_List_filter.
Qed.

(** X24. The ids held by the store of an engine stay pairwise distinct:
    when they are so before a call of [add_document] or of
    [delete_document], they are so after it, whatever the call returns or
    raises (a write under an id that is held replaces the older entry), and
    a search then never returns two results of the same id. *)
Theorem stored_ids_stay_unique X self w :
  NoDup (store_ids w (RAGEngine.vector_store self)) ->
  (forall text md org user tags r w',
      RAGEngine.add_document X self text md org user tags w = (r, w') ->
      NoDup (store_ids w' (RAGEngine.vector_store self)))
  /\ (forall id r w',
        RAGEngine.delete_document X self id w = (r, w') ->
        NoDup (store_ids w' (RAGEngine.vector_store self)))
  /\ (forall q org user tags limit results w',
        RAGEngine.search_documents X self q org user tags limit w = (inr results, w') ->
        NoDup (map sr_id results)).
Proof.
  intros Hnd. split; [|split].
  - intros text md org user tags [e|id] w' H.
    + apply engine_add_document_inl in H.
      unfold store_ids in *. destruct (RAGEngine.vector_store self) as [s|s].
      * by destruct (grown_same_ids _ _ H (OpenSearchStore.index_name s)) as [-> _].
      * by destruct (grown_same_ids _ _ H (QdrantStore.collection_name s)) as [_ ->].
    + apply engine_add_document_ids in H. rewrite H. by apply NoDup_without_snoc.
  - intros id r w' H. apply engine_delete_ids in H as [->| ->]; [done|].
    by apply NoDup_without.
  - intros q org user tags limit results w'. by apply search_documents_unique_ids.
Qed.

(** The three ids of the stored cluster are distinct, and so are the ids
    of the results of a search. *)
Lemma stored_ids_stay_unique_witness :
  exists results w',
    RAGEngine.search_documents demo opensearch_engine "deadline" "org_1" None None 5
      opensearch_world = (inr results, w')
    /\ length results = 2
    /\ NoDup (map sr_id results).
Proof.
  eexists _, _.
  assert (E : RAGEngine.search_documents demo opensearch_engine "deadline" "org_1"
                None None 5 opensearch_world = (inr [_; _], _))
    by (vm_compute; reflexivity).
  refine (conj E (conj eq_refl _)).
  assert (Hnd : NoDup (store_ids opensearch_world
                         (RAGEngine.vector_store opensearch_engine))).
  { assert (Eids : store_ids opensearch_world (RAGEngine.vector_store opensearch_engine)
                   = [ "00000000-0000-4000-8000-000000000000";
                       "00000000-0000-4000-8000-000000000001";
                       "00000000-0000-4000-8000-000000000002" ])
      by (vm_compute; reflexivity).
    rewrite Eids. apply (bool_decide_unpack _). vm_compute. reflexivity. }
  exact (proj2 (proj2 (stored_ids_stay_unique demo opensearch_engine opensearch_world Hnd))
           _ _ _ _ _ _ _ E).
Defined.

(** * What a write leaves alone *)

Lemma stored_doc_index_docs w index id d :
  stored_doc w index id d <-> (id, d) ∈ index_docs w index.
Proof.
  unfold stored_doc, index_docs. split.
  - by intros (ix & -> & Hin).
  - destruct (indices w !! index) as [ix|]; [eauto|]. by intros H%elem_of_nil.
Qed.

Lemma stored_point_collection_points w name p :
  stored_point w name p <-> p ∈ collection_points w name.
Proof.
  unfold stored_point, collection_points. split.
  - by intros (c & -> & Hin).
  - destruct (collections w !! name) as [c|]; [eauto|]. by intros H%elem_of_nil.
Qed.

(** X25. A successful [add_document] of the orchestrator changes nothing
    about the documents held under other ids: each of them is stored after
    the call exactly when it was stored before, with the same content. *)
Theorem add_document_leaves_others X self text md org user tags w id w1 :
  RAGEngine.add_document X self text md org user tags w = (inr id, w1) ->
  match RAGEngine.vector_store self with
  | RAGEngine.OpenSearch s =>
      forall id' d, id' <> id ->
        (stored_doc w1 (OpenSearchStore.index_name s) id' d
         <-> stored_doc w (OpenSearchStore.index_name s) id' d)
  | RAGEngine.Qdrant s =>
      forall p, pt_id p <> id ->
        (stored_point w1 (QdrantStore.collection_name s) p
         <-> stored_point w (QdrantStore.collection_name s) p)
  end.
Proof.
  unfold RAGEngine.add_document. rewrite try_except_reraise.
  destruct (RAGEngine.vector_store self) as [s|s]; intros H.
  - apply opensearch_add_document_inr in H as (n & old & d0 & Hix & -> & _).
    intros id' d Hne. rewrite !stored_doc_index_docs.
    unfold index_docs at 1. rewrite Hix. cbn.
    rewrite elem_of_app, list_elem_of_singleton. unfold drop_id.
    rewrite elem_of_List_filter. cbn. split.
    + intros [[Hin _]|[= -> _]]; [done|by destruct Hne].
    + intros Hin. left. split; [done|].
      apply negb_true_iff. by apply String.eqb_neq.
  - apply qdrant_add_document_inr in H as (n & old & Hc & -> & _).
    intros p Hne. rewrite !stored_point_collection_points.
    unfold collection_points at 1. rewrite Hc. cbn.
    rewrite elem_of_app, list_elem_of_singleton. unfold drop_points.
    rewrite elem_of_List_filter. split.
    + intros [[Hin _]| ->]; [done|by destruct Hne].
    + intros Hin. left. split; [done|].
      apply negb_true_iff. apply mem_str_false. intros Hm.
      apply list_elem_of_singleton in Hm. by destruct Hne.
Qed.

(** The deadline document is still stored after a fourth document was
    added. *)
Lemma add_document_leaves_others_witness :
  exists id,
    RAGEngine.add_document demo opensearch_engine "Release notes of Project C"
      {[ "title" := VStr "notes" ]} "org_3" None (Some ["projectC"]) opensearch_world
    = (inr id, release_notes_world)
    /\ stored_doc release_notes_world "ai_documents" (fst deadline_doc) (snd deadline_doc).
Proof.
  eexists.
  assert (E : RAGEngine.add_document demo opensearch_engine "Release notes of Project C"
                {[ "title" := VStr "notes" ]} "org_3" None (Some ["projectC"])
                opensearch_world = (inr "00000000-0000-4000-8000-000000000003",
                                    release_notes_world))
    by (vm_compute; reflexivity).
  refine (conj E _).
  apply (add_document_leaves_others demo opensearch_engine _ _ _ _ _ _ _ _ E).
  - discriminate.
  - eexists. split; [vm_compute; reflexivity|].
    apply list_elem_of_In. cbn. left. reflexivity.
Defined.
